(** * tap-story: the native mixing and recording engine

    A shallow embedding of [AudioEngine.h] / [AudioEngine.cpp]
    (mobile/android/app/src/main/cpp).  The engine is a record of the
    class's data members; every member function is a function on that
    record.  What the device layer (Oboe) and the file system answer is
    passed in explicitly or, for the writes and the close of the
    recording file, taken from a ghost list of the answers still to come;
    the calls the engine issues to the device layer are appended to a
    ghost log.  A run interleaves the engine's member functions with what
    the device layer does to a stream on its own.

    Conventions
    - [int16_t], [int32_t] and [int64_t] values are [Z]; arithmetic that can
      leave the type's range is written with [int32_wrap] / [int64_wrap],
      the two's-complement result (what [std::atomic] defines and what the
      Android targets compute for plain signed arithmetic).
    - [float] is IEEE binary32: [spec_float] with precision 24 and
      exponent bound 128.  [std::tanh] is a parameter of the model.
    - An access outside a vector or buffer has no defined meaning in C++;
      the functions that index return [option] and answer [None] there. *)

From Stdlib Require Import ZArith List Bool String Lia QArith.
From Stdlib Require Import Floats.SpecFloat.
From stdpp Require Import base option list.

Open Scope Z_scope.

(** A failing step aborts the whole computation. *)
Notation "'do' x <- e ; k" :=
  (match e with Some x => k | None => None end)
  (at level 10, x pattern, e at level 100, k at level 200, only parsing).

(* ================================================================== *)
(** ** Fixed-width integers *)

Definition INT16_MIN : Z := -32768.
Definition INT16_MAX : Z := 32767.
Definition INT32_MIN : Z := - 2 ^ 31.
Definition INT32_MAX : Z := 2 ^ 31 - 1.
Definition INT64_MIN : Z := - 2 ^ 63.
Definition INT64_MAX : Z := 2 ^ 63 - 1.

Definition is_int16 (z : Z) : Prop := INT16_MIN <= z <= INT16_MAX.
Definition is_int32 (z : Z) : Prop := INT32_MIN <= z <= INT32_MAX.
Definition is_int64 (z : Z) : Prop := INT64_MIN <= z <= INT64_MAX.

(** Two's-complement reduction into the signed range. *)
Definition int32_wrap (z : Z) : Z := (z + 2 ^ 31) mod 2 ^ 32 - 2 ^ 31.
Definition int64_wrap (z : Z) : Z := (z + 2 ^ 63) mod 2 ^ 64 - 2 ^ 63.

(** The object representation of an [int16_t] on the (little-endian)
    Android ABIs: low byte first. *)
Definition int16_bytes (x : Z) : list Z := [x mod 256; (x / 256) mod 256].

(* ================================================================== *)
(** ** Vectors and raw buffers indexed by a signed integer *)

Definition vec_at {A} (v : list A) (i : Z) : option A :=
  if i <? 0 then None else v !! Z.to_nat i.

Definition vec_set {A} (v : list A) (i : Z) (x : A) : option (list A) :=
  if (0 <=? i) && (i <? Z.of_nat (length v))
  then Some (<[Z.to_nat i := x]> v) else None.

(** [for (int32_t i = 0; i < n; ++i) body]: [count] iterations remain and
    the loop variable is [i]. *)
Fixpoint for_from {S} (count : nat) (i : Z)
    (body : Z -> S -> option S) (s : S) : option S :=
  match count with
  | O => Some s
  | Datatypes.S k => do s' <- body i s; for_from k (i + 1) body s'
  end.

Definition for_loop {S} (n : Z) (body : Z -> S -> option S) (s : S) : option S :=
  for_from (Z.to_nat n) 0 body s.

(* ================================================================== *)
(** ** Single-precision floats *)

Definition float32 : Type := spec_float.

Definition f32_of_int (z : Z) : float32 := binary_normalize 24 128 z 0 false.
Definition f32_add : float32 -> float32 -> float32 := SFadd 24 128.
Definition f32_mul : float32 -> float32 -> float32 := SFmul 24 128.
Definition f32_div : float32 -> float32 -> float32 := SFdiv 24 128.
Definition f32_abs : float32 -> float32 := SFabs.
Definition f32_ltb : float32 -> float32 -> bool := SFltb.
Definition f32_leb : float32 -> float32 -> bool := SFleb.
(** [a > b] *)
Definition f32_gtb (a b : float32) : bool := SFltb b a.

Definition f32_zero : float32 := S754_zero false.            (* 0.0f *)
Definition f32_one : float32 := f32_of_int 1.                (* 1.0f *)
Definition f32_minus_one : float32 := SFopp f32_one.         (* -1.0f *)
Definition f32_two : float32 := f32_of_int 2.                (* 2.0f *)

(** The rational a float denotes; infinities and NaN denote none. *)
Definition f32_value (x : float32) : option Q :=
  match x with
  | S754_zero _ => Some 0%Q
  | S754_finite s m e =>
      Some (inject_Z (if s then Z.neg m else Z.pos m) * 2 ^ e)%Q
  | S754_infinity _ | S754_nan => None
  end.

(* ================================================================== *)
(** ** [std::ofstream], as far as the engine uses it *)

Module Ofstream.

(** The stream keeps what it is given in a buffer and moves it to the
    file when the buffer fills and when the file is closed; nothing in
    the engine flushes it. *)
Record t := build {
  is_open : bool;      (* rdbuf()->is_open() *)
  failed : bool;       (* failbit or badbit is set: !good() *)
  path : string;       (* the file the buffer is (or was last) attached to *)
  written : list Z;    (* the bytes the stream accepted since that file was opened *)
  flushed : nat        (* how many of them have reached the file *)
}.

(** A stream with nothing moved to its file yet. *)
Definition mk (o fl : bool) (p : string) (w : list Z) : t := build o fl p w 0.

Definition closed : t := mk false false EmptyString [].

(** Which paths the file system lets the process create. *)
Definition FileSystem : Type := string -> bool.

(** What the file system does with one write or close that reaches it.
    [Done k]: it succeeds, and [k] more of the buffered bytes reach the
    file.  [Failed taken k]: it fails (no space, I/O error) after the
    stream took [taken] of the bytes it was handed, fewer than all of
    them, and [k] more bytes reached the file.  How much the stream
    buffers is left to the implementation, so any write may be the one
    that has to reach the file system. *)
Inductive Answer :=
| Done (k : nat)
| Failed (taken : nat) (k : nat).

(** The answer to the next operation; with no answer listed the
    operation succeeds and stays in the buffer. *)
Definition next_answer (answers : list Answer) : Answer * list Answer :=
  match answers with
  | [] => (Done 0, [])
  | a :: rest => (a, rest)
  end.

(** [basic_filebuf::open]: refuses when a file is already attached,
    otherwise asks the file system. *)
Definition rdbuf_open (fs : FileSystem) (f : t) (p : string) : bool :=
  if is_open f then false else fs p.

(** [basic_ofstream::open(p, ios::binary)]: on success the file is
    created empty and the state is cleared; otherwise [failbit] is set
    and whatever was attached stays attached. *)
Definition open (fs : FileSystem) (f : t) (p : string) : t :=
  if rdbuf_open fs f p then mk true false p []
  else build (is_open f) true (path f) (written f) (flushed f).

(** [basic_ofstream::close]: the buffer is flushed and the file is let
    go of; a failure of either sets [failbit]. *)
Definition close (a : Answer) (f : t) : t :=
  if is_open f then
    match a with
    | Done _ => build false (failed f) (path f) (written f) (length (written f))
    | Failed _ k =>
        build false true (path f) (written f)
          (Nat.min (flushed f + k) (length (written f)))
    end
  else build false true (path f) (written f) (flushed f).

(** Does a write on this stream get as far as the buffer and the file
    system?  The sentry of an unformatted output function refuses when
    the stream is not [good()]. *)
Definition consults (f : t) : bool := is_open f && negb (failed f).

(** [basic_ostream::write]: nothing happens on a stream that is not
    [good()]; otherwise the bytes go to the buffer, and when fewer than
    all of them are taken [badbit] is set.  Writing through a buffer with
    no file sets [badbit]. *)
Definition write (a : Answer) (f : t) (bytes : list Z) : t :=
  if failed f then f
  else if is_open f then
    match a with
    | Done k =>
        build true false (path f) (written f ++ bytes)
          (Nat.min (flushed f + k) (length (written f ++ bytes)))
    | Failed taken k =>
        let accepted := take (Nat.min taken (length bytes - 1)) bytes in
        build true true (path f) (written f ++ accepted)
          (Nat.min (flushed f + k) (length (written f ++ accepted)))
    end
  else build false true (path f) (written f) (flushed f).

(** The bytes in the file itself. *)
Definition in_file (f : t) : list Z := take (flushed f) (written f).

End Ofstream.

(* ================================================================== *)
(** ** The device layer (Oboe), as far as the engine uses it *)

Module Oboe.

Inductive StreamState :=
| Uninitialized | Unknown | Open | Starting | Started | Pausing | Paused
| Flushing | Flushed | Stopping | Stopped | Closing | Closed | Disconnected.

Inductive Result := OK | ErrorDisconnected | ErrorClosed | ErrorInternal.

Inductive Direction := Output | Input.

(** What the engine asks of the device layer. *)
Inductive Call :=
| CallOpen (d : Direction)
| CallStart (d : Direction)
| CallStop (d : Direction)
| CallClose (d : Direction)
| CallRead (numFrames : Z) (returned : Z).

Definition state_eqb (a b : StreamState) : bool :=
  match a, b with
  | Uninitialized, Uninitialized | Unknown, Unknown | Open, Open
  | Starting, Starting | Started, Started | Pausing, Pausing
  | Paused, Paused | Flushing, Flushing | Flushed, Flushed
  | Stopping, Stopping | Stopped, Stopped | Closing, Closing
  | Closed, Closed | Disconnected, Disconnected => true
  | _, _ => false
  end.

Definition is_ok (r : Result) : bool :=
  match r with OK => true | _ => false end.

(** [AudioStream::start()] with the answer [r] of the device. *)
Definition stream_start (r : Result) (s : StreamState) : StreamState :=
  if is_ok r then Started else s.

(** [AudioStream::stop()]: a live stream ends up stopped. *)
Definition stream_stop (s : StreamState) : StreamState :=
  match s with
  | Uninitialized | Closing | Closed | Disconnected => s
  | _ => Stopped
  end.

(** The answers of the device to one [start()] of the engine. *)
Record StartEnv := {
  openPlay : Result;      (* builder.openStream(mPlayStream) *)
  openRecord : Result;    (* recBuilder.openStream(mRecordStream) *)
  startRecord : Result;   (* mRecordStream->start() *)
  startPlay : Result      (* mPlayStream->start() *)
}.

(** The answer to [mRecordStream->read(buffer, numFrames, 0)]: the
    samples waiting in the capture queue, or an error. *)
Inductive ReadEnv :=
| ReadAvailable (samples : list Z)
| ReadError (r : Result).

(** The samples the read copies out: at most [numFrames] of them. *)
Definition read_samples (rd : ReadEnv) (numFrames : Z) : list Z :=
  match rd with
  | ReadAvailable samples => take (Z.to_nat numFrames) samples
  | ReadError _ => []
  end.

(** [ResultWithValue::value()]: the frame count, 0 for an error. *)
Definition read_value (rd : ReadEnv) (numFrames : Z) : Z :=
  Z.of_nat (length (read_samples rd numFrames)).

End Oboe.

(* ================================================================== *)
(** ** The engine's data *)

Definition kSampleRate : Z := 44100.
Definition kChannelCountOut : Z := 2.   (* stereo output *)
Definition kChannelCountIn : Z := 1.    (* mono input *)

Record Track := {
  data : list float32;
  startFrame : Z;       (* int32_t *)
  lengthFrames : Z      (* int32_t *)
}.

Record AudioEngine := {
  mPlayStream : option Oboe.StreamState;     (* null, or the stream and its state *)
  mRecordStream : option Oboe.StreamState;
  mTracks : list Track;
  mIsRecording : bool;
  mRecordingFile : Ofstream.t;
  mRecordStartFrame : Z;                     (* int32_t *)
  mRecordedSampleCount : Z;                  (* atomic int64_t *)
  mCurrentFrame : Z;                         (* atomic int64_t *)
  mIsRunning : bool;
  deviceLog : list Oboe.Call;                (* ghost: calls issued so far, oldest first *)
  sinkAnswers : list Ofstream.Answer         (* ghost: the file system's answers to the
                                                writes and closes still to come *)
}.

(** The members as the in-class initialisers leave them. *)
Definition newEngine : AudioEngine :=
  {| mPlayStream := None; mRecordStream := None; mTracks := [];
     mIsRecording := false; mRecordingFile := Ofstream.closed;
     mRecordStartFrame := 0; mRecordedSampleCount := 0;
     mCurrentFrame := 0; mIsRunning := false; deviceLog := [];
     sinkAnswers := [] |}.

Definition set_mPlayStream (v : option Oboe.StreamState) (e : AudioEngine) :=
  {| mPlayStream := v; mRecordStream := mRecordStream e; mTracks := mTracks e;
     mIsRecording := mIsRecording e; mRecordingFile := mRecordingFile e;
     mRecordStartFrame := mRecordStartFrame e;
     mRecordedSampleCount := mRecordedSampleCount e;
     mCurrentFrame := mCurrentFrame e; mIsRunning := mIsRunning e;
     deviceLog := deviceLog e; sinkAnswers := sinkAnswers e |}.

Definition set_mRecordStream (v : option Oboe.StreamState) (e : AudioEngine) :=
  {| mPlayStream := mPlayStream e; mRecordStream := v; mTracks := mTracks e;
     mIsRecording := mIsRecording e; mRecordingFile := mRecordingFile e;
     mRecordStartFrame := mRecordStartFrame e;
     mRecordedSampleCount := mRecordedSampleCount e;
     mCurrentFrame := mCurrentFrame e; mIsRunning := mIsRunning e;
     deviceLog := deviceLog e; sinkAnswers := sinkAnswers e |}.

Definition set_mTracks (v : list Track) (e : AudioEngine) :=
  {| mPlayStream := mPlayStream e; mRecordStream := mRecordStream e; mTracks := v;
     mIsRecording := mIsRecording e; mRecordingFile := mRecordingFile e;
     mRecordStartFrame := mRecordStartFrame e;
     mRecordedSampleCount := mRecordedSampleCount e;
     mCurrentFrame := mCurrentFrame e; mIsRunning := mIsRunning e;
     deviceLog := deviceLog e; sinkAnswers := sinkAnswers e |}.

Definition set_mIsRecording (v : bool) (e : AudioEngine) :=
  {| mPlayStream := mPlayStream e; mRecordStream := mRecordStream e;
     mTracks := mTracks e;
     mIsRecording := v; mRecordingFile := mRecordingFile e;
     mRecordStartFrame := mRecordStartFrame e;
     mRecordedSampleCount := mRecordedSampleCount e;
     mCurrentFrame := mCurrentFrame e; mIsRunning := mIsRunning e;
     deviceLog := deviceLog e; sinkAnswers := sinkAnswers e |}.

Definition set_mRecordingFile (v : Ofstream.t) (e : AudioEngine) :=
  {| mPlayStream := mPlayStream e; mRecordStream := mRecordStream e;
     mTracks := mTracks e;
     mIsRecording := mIsRecording e; mRecordingFile := v;
     mRecordStartFrame := mRecordStartFrame e;
     mRecordedSampleCount := mRecordedSampleCount e;
     mCurrentFrame := mCurrentFrame e; mIsRunning := mIsRunning e;
     deviceLog := deviceLog e; sinkAnswers := sinkAnswers e |}.

Definition set_mRecordStartFrame (v : Z) (e : AudioEngine) :=
  {| mPlayStream := mPlayStream e; mRecordStream := mRecordStream e;
     mTracks := mTracks e;
     mIsRecording := mIsRecording e; mRecordingFile := mRecordingFile e;
     mRecordStartFrame := v;
     mRecordedSampleCount := mRecordedSampleCount e;
     mCurrentFrame := mCurrentFrame e; mIsRunning := mIsRunning e;
     deviceLog := deviceLog e; sinkAnswers := sinkAnswers e |}.

Definition set_mRecordedSampleCount (v : Z) (e : AudioEngine) :=
  {| mPlayStream := mPlayStream e; mRecordStream := mRecordStream e;
     mTracks := mTracks e;
     mIsRecording := mIsRecording e; mRecordingFile := mRecordingFile e;
     mRecordStartFrame := mRecordStartFrame e;
     mRecordedSampleCount := v;
     mCurrentFrame := mCurrentFrame e; mIsRunning := mIsRunning e;
     deviceLog := deviceLog e; sinkAnswers := sinkAnswers e |}.

Definition set_mCurrentFrame (v : Z) (e : AudioEngine) :=
  {| mPlayStream := mPlayStream e; mRecordStream := mRecordStream e;
     mTracks := mTracks e;
     mIsRecording := mIsRecording e; mRecordingFile := mRecordingFile e;
     mRecordStartFrame := mRecordStartFrame e;
     mRecordedSampleCount := mRecordedSampleCount e;
     mCurrentFrame := v; mIsRunning := mIsRunning e;
     deviceLog := deviceLog e; sinkAnswers := sinkAnswers e |}.

Definition set_mIsRunning (v : bool) (e : AudioEngine) :=
  {| mPlayStream := mPlayStream e; mRecordStream := mRecordStream e;
     mTracks := mTracks e;
     mIsRecording := mIsRecording e; mRecordingFile := mRecordingFile e;
     mRecordStartFrame := mRecordStartFrame e;
     mRecordedSampleCount := mRecordedSampleCount e;
     mCurrentFrame := mCurrentFrame e; mIsRunning := v;
     deviceLog := deviceLog e; sinkAnswers := sinkAnswers e |}.

(** Record one call to the device layer. *)
Definition called (c : Oboe.Call) (e : AudioEngine) :=
  {| mPlayStream := mPlayStream e; mRecordStream := mRecordStream e;
     mTracks := mTracks e;
     mIsRecording := mIsRecording e; mRecordingFile := mRecordingFile e;
     mRecordStartFrame := mRecordStartFrame e;
     mRecordedSampleCount := mRecordedSampleCount e;
     mCurrentFrame := mCurrentFrame e; mIsRunning := mIsRunning e;
     deviceLog := deviceLog e ++ [c]; sinkAnswers := sinkAnswers e |}.

(** The answers still to come from the file system. *)
Definition set_sinkAnswers (v : list Ofstream.Answer) (e : AudioEngine) :=
  {| mPlayStream := mPlayStream e; mRecordStream := mRecordStream e;
     mTracks := mTracks e;
     mIsRecording := mIsRecording e; mRecordingFile := mRecordingFile e;
     mRecordStartFrame := mRecordStartFrame e;
     mRecordedSampleCount := mRecordedSampleCount e;
     mCurrentFrame := mCurrentFrame e; mIsRunning := mIsRunning e;
     deviceLog := deviceLog e; sinkAnswers := v |}.

(* ================================================================== *)
(** ** Lifecycle: start, stop, reset *)

(** [AudioEngine::openStreams]: the play stream first; no record stream
    is attempted when the play stream cannot be opened. *)
Definition openStreams (dev : Oboe.StartEnv) (e : AudioEngine) : AudioEngine :=
  let e := called (Oboe.CallOpen Oboe.Output) e in
  if Oboe.is_ok (Oboe.openPlay dev) then
    let e := set_mPlayStream (Some Oboe.Open) e in
    let e := called (Oboe.CallOpen Oboe.Input) e in
    if Oboe.is_ok (Oboe.openRecord dev)
    then set_mRecordStream (Some Oboe.Open) e
    else set_mRecordStream None e
  else set_mPlayStream None e.

(** [AudioEngine::closeStreams]. *)
Definition closeStreams (e : AudioEngine) : AudioEngine :=
  let e := match mPlayStream e with
           | Some _ => set_mPlayStream None (called (Oboe.CallClose Oboe.Output) e)
           | None => e
           end in
  match mRecordStream e with
  | Some _ => set_mRecordStream None (called (Oboe.CallClose Oboe.Input) e)
  | None => e
  end.

(** [state == Stopped || state == Open] *)
Definition startable (s : Oboe.StreamState) : bool :=
  Oboe.state_eqb s Oboe.Stopped || Oboe.state_eqb s Oboe.Open.

(** [!mPlayStream || mPlayStream->getState() == Closed] *)
Definition needs_open (p : option Oboe.StreamState) : bool :=
  match p with
  | None => true
  | Some s => Oboe.state_eqb s Oboe.Closed
  end.

(** [AudioEngine::start]. *)
Definition start (dev : Oboe.StartEnv) (e : AudioEngine) : AudioEngine :=
  if mIsRunning e then e
  else
    let e := if needs_open (mPlayStream e) then openStreams dev e else e in
    (* the microphone first *)
    let e := match mRecordStream e with
             | Some state =>
                 if startable state
                 then set_mRecordStream
                        (Some (Oboe.stream_start (Oboe.startRecord dev) state))
                        (called (Oboe.CallStart Oboe.Input) e)
                 else e
             | None => e
             end in
    (* then the speaker, which drives the callback *)
    match mPlayStream e with
    | Some state =>
        if startable state then
          let e := set_mPlayStream
                     (Some (Oboe.stream_start (Oboe.startPlay dev) state))
                     (called (Oboe.CallStart Oboe.Output) e) in
          if Oboe.is_ok (Oboe.startPlay dev) then set_mIsRunning true e else e
        else e
    | None => e
    end.

(** The two [if (stream) stream->stop();] statements shared by [stop]
    and [reset]. *)
Definition stopStreams (e : AudioEngine) : AudioEngine :=
  let e := match mPlayStream e with
           | Some s => set_mPlayStream (Some (Oboe.stream_stop s))
                         (called (Oboe.CallStop Oboe.Output) e)
           | None => e
           end in
  match mRecordStream e with
  | Some s => set_mRecordStream (Some (Oboe.stream_stop s))
                (called (Oboe.CallStop Oboe.Input) e)
  | None => e
  end.

(** [AudioEngine::stop]: the frame counter is left alone. *)
Definition stop (e : AudioEngine) : AudioEngine :=
  if negb (mIsRunning e) then e
  else stopStreams (set_mIsRunning false e).

(** [AudioEngine::reset]. *)
Definition reset (e : AudioEngine) : AudioEngine :=
  let e := set_mIsRunning false e in
  let e := stopStreams e in
  let e := closeStreams e in
  set_mCurrentFrame 0 e.

(** [AudioEngine::onErrorAfterClose]. *)
Definition onErrorAfterClose (result : Oboe.Result) (e : AudioEngine) : AudioEngine :=
  match result with
  | Oboe.ErrorDisconnected => set_mIsRunning false e
  | _ => e
  end.

(* ================================================================== *)
(** ** The track store *)

(** [const float scalar = 1.0f / 32768.0f;] *)
Definition scalar : float32 := f32_div f32_one (f32_of_int 32768).

(** [static_cast<float>(x) * scalar] *)
Definition int16_to_float (x : Z) : float32 := f32_mul (f32_of_int x) scalar.

(** [AudioEngine::loadTrack].  [data] is the array behind the pointer;
    reading past it, or resizing to a negative count, gives [None]. *)
Definition loadTrack (trackId : string) (data : list Z)
    (numSamples startFrame : Z) (e : AudioEngine) : option AudioEngine :=
  if numSamples <? 0 then None
  else
    let resized := replicate (Z.to_nat numSamples) f32_zero in
    do samples <- for_loop numSamples
                    (fun i v => do x <- vec_at data i;
                                vec_set v i (int16_to_float x))
                    resized;
    Some (set_mTracks (mTracks e ++ [Build_Track samples startFrame numSamples]) e).

(** [AudioEngine::clearTracks]. *)
Definition clearTracks (e : AudioEngine) : AudioEngine := set_mTracks [] e.

(* ================================================================== *)
(** ** Recording control *)

(** [mRecordingFile.write(bytes)] and [mRecordingFile.close()] as the
    engine issues them: the file system's next answer is used up when the
    operation gets as far as the file system. *)
Definition recordingFile_write (bytes : list Z) (e : AudioEngine) : AudioEngine :=
  let answer := fst (Ofstream.next_answer (sinkAnswers e)) in
  let rest := snd (Ofstream.next_answer (sinkAnswers e)) in
  let file := Ofstream.write answer (mRecordingFile e) bytes in
  set_mRecordingFile file
    (if Ofstream.consults (mRecordingFile e) then set_sinkAnswers rest e else e).

Definition recordingFile_close (e : AudioEngine) : AudioEngine :=
  let answer := fst (Ofstream.next_answer (sinkAnswers e)) in
  let rest := snd (Ofstream.next_answer (sinkAnswers e)) in
  let file := Ofstream.close answer (mRecordingFile e) in
  set_mRecordingFile file
    (if Ofstream.is_open (mRecordingFile e) then set_sinkAnswers rest e else e).

(** [AudioEngine::startRecording]. *)
Definition startRecording (fs : Ofstream.FileSystem) (filePath : string)
    (startFrame : Z) (e : AudioEngine) : AudioEngine :=
  let e := set_mRecordStartFrame startFrame e in
  let e := set_mRecordedSampleCount 0 e in
  let e := set_mRecordingFile (Ofstream.open fs (mRecordingFile e) filePath) e in
  if Ofstream.is_open (mRecordingFile e)
  then set_mIsRecording true e
  else e.

(** [AudioEngine::stopRecording]. *)
Definition stopRecording (e : AudioEngine) : AudioEngine :=
  let e := set_mIsRecording false e in
  if Ofstream.is_open (mRecordingFile e)
  then recordingFile_close e
  else e.

Definition getRecordingStartFrame (e : AudioEngine) : Z := mRecordStartFrame e.
Definition getRecordedSampleCount (e : AudioEngine) : Z := mRecordedSampleCount e.
Definition getCurrentFrame (e : AudioEngine) : Z := mCurrentFrame e.

(** [AudioEngine::seekToFrame]. *)
Definition seekToFrame (frame : Z) (e : AudioEngine) : AudioEngine :=
  set_mCurrentFrame frame e.

(* ================================================================== *)
(** ** The audio callback *)

(** Capture path: the first statement group of [onAudioReady], given the
    frame value loaded at entry. *)
Definition capture (currentFrame : Z) (rd : Oboe.ReadEnv) (numFrames : Z)
    (e : AudioEngine) : AudioEngine :=
  match mRecordStream e with
  | Some state =>
      if Oboe.state_eqb state Oboe.Started then
        (* std::vector<int16_t> inputBuffer(numFrames), then the read *)
        let got := Oboe.read_samples rd numFrames in
        let inputBuffer :=
          got ++ drop (length got) (replicate (Z.to_nat numFrames) 0) in
        let value := Oboe.read_value rd numFrames in
        let e := called (Oboe.CallRead numFrames value) e in
        if (value >? 0) && mIsRecording e && Ofstream.is_open (mRecordingFile e)
        then
          if currentFrame >=? mRecordStartFrame e then
            (* the first value * sizeof(int16_t) bytes of the buffer *)
            let bytes := take (Z.to_nat (value * 2))
                              (concat (map int16_bytes inputBuffer)) in
            let e := recordingFile_write bytes e in
            set_mRecordedSampleCount
              (int64_wrap (mRecordedSampleCount e + value)) e
          else e
        else e
      else e
  | None => e
  end.

(** [outputBuffer[idx] += sample] *)
Definition buf_add (outputBuffer : list float32) (idx : Z) (sample : float32)
    : option (list float32) :=
  do old <- vec_at outputBuffer idx;
  vec_set outputBuffer idx (f32_add old sample).

(** The body of [for (const auto& track : mTracks)]. *)
Definition mix_track (track : Track) (currentFrame numFrames : Z)
    (outputBuffer : list float32) : option (list float32) :=
  let trackOffset := int64_wrap (currentFrame - startFrame track) in
  if (trackOffset <? lengthFrames track)
     && (int64_wrap (trackOffset + numFrames) >? 0)
  then
    for_loop numFrames
      (fun i out =>
         let sampleIndex := int64_wrap (trackOffset + i) in
         if (sampleIndex >=? 0) && (sampleIndex <? lengthFrames track) then
           do sample <- vec_at (data track) sampleIndex;
           do out <- buf_add out (int32_wrap (i * 2)) sample;
           buf_add out (int32_wrap (int32_wrap (i * 2) + 1)) sample
         else Some out)
      outputBuffer
  else Some outputBuffer.

Fixpoint mix_tracks (tracks : list Track) (currentFrame numFrames : Z)
    (outputBuffer : list float32) : option (list float32) :=
  match tracks with
  | [] => Some outputBuffer
  | track :: rest =>
      do out <- mix_track track currentFrame numFrames outputBuffer;
      mix_tracks rest currentFrame numFrames out
  end.

(** [std::fill(outputBuffer, outputBuffer + numFrames * kChannelCountOut, 0.0f)]
    on a buffer of exactly that many slots, then the summation. *)
Definition mix_sum (tracks : list Track) (currentFrame numFrames : Z)
    : option (list float32) :=
  let cleared :=
    replicate (Z.to_nat (int32_wrap (numFrames * kChannelCountOut))) f32_zero in
  mix_tracks tracks currentFrame numFrames cleared.

Section Callback.

(** [std::tanh] on [float]. *)
Variable tanhf : float32 -> float32.

(** The soft-clipping loop. *)
Definition soft_clip (numFrames : Z) (outputBuffer : list float32)
    : option (list float32) :=
  for_loop (int32_wrap (numFrames * kChannelCountOut))
    (fun i out =>
       do sample <- vec_at out i;
       if f32_gtb sample f32_one || f32_ltb sample f32_minus_one
       then vec_set out i (tanhf sample)
       else Some out)
    outputBuffer.

(** Mix path: clear, sum, clip. *)
Definition mix_path (tracks : list Track) (currentFrame numFrames : Z)
    : option (list float32) :=
  do summed <- mix_sum tracks currentFrame numFrames;
  soft_clip numFrames summed.

(** [AudioEngine::onAudioReady]: the engine afterwards and the buffer
    handed back to the device (the return value is always [Continue]). *)
Definition onAudioReady (rd : Oboe.ReadEnv) (numFrames : Z) (e : AudioEngine)
    : option (AudioEngine * list float32) :=
  let currentFrame := mCurrentFrame e in
  let e := capture currentFrame rd numFrames e in
  do out <- mix_path (mTracks e) currentFrame numFrames;
  Some (set_mCurrentFrame (int64_wrap (mCurrentFrame e + numFrames)) e, out).

(* ---------------------------------------------------------------- *)
(** *** Runs of the engine *)

(** One step of a run: a call into the engine, from the control thread
    or from the device layer, with what the environment answers; or
    something the environment does on its own ([StreamMoved]: the device
    layer changes the state of a stream; [SinkWillAnswer]: the file
    system's answers to the coming writes and closes are fixed). *)
Inductive Command :=
| Start (dev : Oboe.StartEnv)
| Stop
| Reset
| LoadTrack (trackId : string) (samples : list Z) (numSamples : Z) (startFrame : Z)
| ClearTracks
| StartRecording (fs : Ofstream.FileSystem) (filePath : string) (startFrame : Z)
| StopRecording
| SeekToFrame (frame : Z)
| AudioReady (rd : Oboe.ReadEnv) (numFrames : Z)
| ErrorAfterClose (result : Oboe.Result)
| StreamMoved (d : Oboe.Direction) (state : Oboe.StreamState)
| SinkWillAnswer (answers : list Ofstream.Answer).

(** The device layer moves a stream the engine holds to another state on
    its own: a disconnect, an error, the close that precedes the error
    callback. *)
Definition streamMoved (d : Oboe.Direction) (state : Oboe.StreamState)
    (e : AudioEngine) : AudioEngine :=
  match d with
  | Oboe.Output =>
      match mPlayStream e with
      | Some _ => set_mPlayStream (Some state) e
      | None => e
      end
  | Oboe.Input =>
      match mRecordStream e with
      | Some _ => set_mRecordStream (Some state) e
      | None => e
      end
  end.

(** The arguments hold values of their C++ types. *)
Definition well_typed (c : Command) : Prop :=
  match c with
  | LoadTrack _ samples numSamples startFrame =>
      Forall is_int16 samples /\ is_int32 numSamples /\ is_int32 startFrame
  | StartRecording _ _ startFrame => is_int32 startFrame
  | SeekToFrame frame => is_int64 frame
  | AudioReady rd numFrames =>
      is_int32 numFrames
      /\ match rd with
         | Oboe.ReadAvailable samples => Forall is_int16 samples
         | Oboe.ReadError _ => True
         end
  | _ => True
  end.

(** What the caller of [loadTrack] and the device layer owe the engine:
    a count within the array, and a callback with a frame count that is
    not negative and a buffer whose slot count fits [int32_t]. *)
Definition in_contract (c : Command) : Prop :=
  match c with
  | LoadTrack _ samples numSamples _ =>
      0 <= numSamples <= Z.of_nat (length samples)
  | AudioReady _ numFrames =>
      0 <= numFrames /\ numFrames * kChannelCountOut <= INT32_MAX
  | _ => True
  end.

Definition step (c : Command) (e : AudioEngine) : option AudioEngine :=
  match c with
  | Start dev => Some (start dev e)
  | Stop => Some (stop e)
  | Reset => Some (reset e)
  | LoadTrack trackId samples numSamples startFrame =>
      loadTrack trackId samples numSamples startFrame e
  | ClearTracks => Some (clearTracks e)
  | StartRecording fs filePath startFrame =>
      Some (startRecording fs filePath startFrame e)
  | StopRecording => Some (stopRecording e)
  | SeekToFrame frame => Some (seekToFrame frame e)
  | AudioReady rd numFrames => option_map fst (onAudioReady rd numFrames e)
  | ErrorAfterClose result => Some (onErrorAfterClose result e)
  | StreamMoved d state => Some (streamMoved d state e)
  | SinkWillAnswer answers => Some (set_sinkAnswers answers e)
  end.

Fixpoint run (cs : list Command) (e : AudioEngine) : option AudioEngine :=
  match cs with
  | [] => Some e
  | c :: rest => do e' <- step c e; run rest e'
  end.

(** The states a freshly constructed engine can get into: through calls
    and callbacks that return, with any answers of the device and of the
    file system, and through what the device layer does to the streams
    in between.  A callback outside the device layer's contract has no
    defined behaviour in the code and is not a step. *)
Inductive reachable : AudioEngine -> Prop :=
| reachable_new : reachable newEngine
| reachable_step c e e' :
    reachable e -> well_typed c -> in_contract c -> step c e = Some e' ->
    reachable e'.

(** Steps in which the device layer changes a stream on its own. *)
Definition is_stream_event (c : Command) : bool :=
  match c with
  | StreamMoved _ _ => true
  | _ => false
  end.

(** Commands that are neither a reset, nor a seek, nor a callback. *)
Definition keeps_position (c : Command) : bool :=
  match c with
  | Reset | SeekToFrame _ | AudioReady _ _ => false
  | _ => true
  end.

End Callback.

(* ================================================================== *)
(** ** Invariants of the data model *)

(** [lengthFrames == |samples|], within the field types. *)
Definition track_ok (t : Track) : Prop :=
  lengthFrames t = Z.of_nat (length (data t))
  /\ is_int32 (startFrame t) /\ is_int32 (lengthFrames t).

Definition engine_ok (e : AudioEngine) : Prop :=
  Forall track_ok (mTracks e)
  /\ mIsRecording e = Ofstream.is_open (mRecordingFile e)
  /\ is_int64 (mCurrentFrame e)
  /\ is_int64 (mRecordedSampleCount e)
  /\ is_int32 (mRecordStartFrame e).

(* ================================================================== *)
(** ** The mix as section 4.3 of the specification words it *)

(** What one track adds to output frame [i] of the callback window that
    starts at [currentFrame]: [samples[sampleIndex]] when
    [0 <= sampleIndex < lengthFrames], nothing otherwise. *)
Definition contribution (track : Track) (currentFrame i : Z) : option float32 :=
  let offset := currentFrame - startFrame track in
  let sampleIndex := offset + i in
  if (0 <=? sampleIndex) && (sampleIndex <? lengthFrames track)
  then data track !! Z.to_nat sampleIndex
  else None.

(** Adding a contribution to a slot; no contribution leaves the slot as
    it is (no addition takes place). *)
Definition accumulate (slot : float32) (c : option float32) : float32 :=
  match c with
  | Some sample => f32_add slot sample
  | None => slot
  end.

(** A slot after the tracks were added in store order. *)
Fixpoint summed_sample (tracks : list Track) (currentFrame i : Z)
    (slot : float32) : float32 :=
  match tracks with
  | [] => slot
  | track :: rest =>
      summed_sample rest currentFrame i
        (accumulate slot (contribution track currentFrame i))
  end.

(** Soft clipping of one sample, by magnitude. *)
Definition clipped (tanhf : float32 -> float32) (x : float32) : float32 :=
  if f32_ltb f32_one (f32_abs x) then tanhf x else x.

(* ================================================================== *)
(** ** Checkers and sample data used by the proofs *)

(** The float made from [x] denotes exactly [x / 32768]. *)
Definition conversion_exact (x : Z) : bool :=
  match f32_value (int16_to_float x) with
  | Some q => Qeq_bool q (x # 32768)
  | None => false
  end.

(** The integers [lo], [lo + 1], ... ([n] of them). *)
Fixpoint zrange (lo : Z) (n : nat) : list Z :=
  match n with
  | O => []
  | Datatypes.S k => lo :: zrange (lo + 1) k
  end.

(** A stand-in for [std::tanh] where a concrete function is needed to
    run the model: exact at 0 and at the limits, the sign of the
    argument elsewhere. *)
Definition sign_tanhf (x : float32) : float32 :=
  match x with
  | S754_zero _ | S754_nan => x
  | S754_infinity s | S754_finite s _ _ => if s then f32_minus_one else f32_one
  end.

(** The call a stream receives, if the engine holds one. *)
Definition calls_for (stream : option Oboe.StreamState) (c : Oboe.Call)
    : list Oboe.Call :=
  match stream with
  | Some _ => [c]
  | None => []
  end.

(** A run of callbacks only, and the frames it delivers. *)
Definition callbacks (cbs : list (Oboe.ReadEnv * Z)) : list Command :=
  map (fun cb => AudioReady (fst cb) (snd cb)) cbs.

Fixpoint total_frames (cbs : list (Oboe.ReadEnv * Z)) : Z :=
  match cbs with
  | [] => 0
  | cb :: rest => snd cb + total_frames rest
  end.

(** A device on which everything succeeds, and a file system that
    accepts or refuses every path. *)
Definition devices_ok : Oboe.StartEnv :=
  {| Oboe.openPlay := Oboe.OK; Oboe.openRecord := Oboe.OK;
     Oboe.startRecord := Oboe.OK; Oboe.startPlay := Oboe.OK |}.

Definition every_path : Ofstream.FileSystem := fun _ => true.
Definition no_path : Ofstream.FileSystem := fun _ => false.

(** The clip of section 8 of the specification: 50 frames placed at
    frame 100 (the samples 1, 2, ..., 50 before scaling). *)
Definition clip_100_50 : Track :=
  {| data := map int16_to_float (zrange 1 50);
     startFrame := 100; lengthFrames := 50 |}.

(** Four clips of one sample 0.5 each, all placed at frame 0. *)
Definition half : Track :=
  {| data := [int16_to_float 16384]; startFrame := 0; lengthFrames := 1 |}.

Definition four_halves : AudioEngine := set_mTracks [half; half; half; half] newEngine.

(** Recording is started twice without a stop in between, then the
    engine is started. *)
Definition started_twice : list Command :=
  [ StartRecording every_path "a.pcm" 0;
    StartRecording every_path "b.pcm" 0;
    Start devices_ok ].

(** One complete recording session of two callbacks, armed at frame 5. *)
Definition one_session : list Command :=
  [ SeekToFrame 5;
    StartRecording every_path "take1.pcm" 5;
    Start devices_ok;
    AudioReady (Oboe.ReadAvailable [11; -12]) 2;
    Stop;
    StopRecording ].

(** An engine playing from frame 4410. *)
Definition playing_at_4410 : AudioEngine :=
  start devices_ok (seekToFrame 4410 four_halves).

(** An engine holding the clip of section 8. *)
Definition with_clip : AudioEngine := set_mTracks [clip_100_50] newEngine.

(** An engine at frame 5, armed to record from frame 5 into a fresh
    file, and running. *)
Definition armed_at_5 : list Command :=
  [ SeekToFrame 5;
    StartRecording every_path "take1.pcm" 5;
    Start devices_ok ].

Definition armed : AudioEngine :=
  start devices_ok (startRecording every_path "take1.pcm" 5 (seekToFrame 5 newEngine)).

(** The same engine when the device that holds the file has no room
    left: the next write fails with nothing taken. *)
Definition device_full : list Ofstream.Answer := [Ofstream.Failed 0 0].

Definition armed_device_full : list Command :=
  armed_at_5 ++ [SinkWillAnswer device_full].

(* ================================================================== *)
(** ** Destruction and the JNI bridge ([native-lib.cpp]) *)

(** [AudioEngine::~AudioEngine]: the body stops the engine; the members
    are destroyed afterwards. *)
Definition destructor (e : AudioEngine) : AudioEngine := stop e.

Module Jni.

(** [static AudioEngine *engine]: null, or the one engine. *)
Definition State : Type := option AudioEngine.

Definition nativeCreateEngine (engine : State) : State :=
  match engine with
  | None => Some newEngine
  | Some _ => engine
  end.

(** The pointer afterwards, and the engine as its destructor left it
    just before the storage was released. *)
Definition nativeDeleteEngine (engine : State) : State * option AudioEngine :=
  match engine with
  | Some e => (None, Some (destructor e))
  | None => (None, None)
  end.

Definition nativeStart (dev : Oboe.StartEnv) (engine : State) : State :=
  match engine with
  | Some e => Some (start dev e)
  | None => None
  end.

Definition nativeStop (engine : State) : State :=
  match engine with
  | Some e => Some (stop e)
  | None => None
  end.

(** [audioData] is the Java [short[]]; the bridge passes its elements and
    [GetArrayLength] of it.  [None] stands for an out-of-bounds access
    inside [loadTrack]. *)
Definition nativeLoadTrack (trackId : string) (audioData : list Z)
    (startFrame : Z) (engine : State) : option State :=
  match engine with
  | None => Some None
  | Some e =>
      let len := Z.of_nat (length audioData) in
      do e' <- loadTrack trackId audioData len startFrame e;
      Some (Some e')
  end.

Definition nativeClearTracks (engine : State) : State :=
  match engine with
  | Some e => Some (clearTracks e)
  | None => None
  end.

Definition nativeStartRecording (fs : Ofstream.FileSystem) (filePath : string)
    (startFrame : Z) (engine : State) : State :=
  match engine with
  | None => None
  | Some e => Some (startRecording fs filePath startFrame e)
  end.

Definition nativeStopRecording (engine : State) : State :=
  match engine with
  | Some e => Some (stopRecording e)
  | None => None
  end.

Definition nativeGetCurrentFrame (engine : State) : Z :=
  match engine with
  | Some e => getCurrentFrame e
  | None => 0
  end.

Definition nativeSeekToFrame (frame : Z) (engine : State) : State :=
  match engine with
  | Some e => Some (seekToFrame frame e)
  | None => None
  end.

Definition nativeGetRecordingStartFrame (engine : State) : Z :=
  match engine with
  | Some e => getRecordingStartFrame e
  | None => 0
  end.

Definition nativeGetRecordedSampleCount (engine : State) : Z :=
  match engine with
  | Some e => getRecordedSampleCount e
  | None => 0
  end.

(** One call from the managed side. *)
Inductive Call :=
| CreateEngine
| DeleteEngine
| Start (dev : Oboe.StartEnv)
| Stop
| LoadTrack (trackId : string) (audioData : list Z) (startFrame : Z)
| ClearTracks
| StartRecording (fs : Ofstream.FileSystem) (filePath : string) (startFrame : Z)
| StopRecording
| SeekToFrame (frame : Z).

(** [jshort], [jint] and [jlong] arguments hold values of their types;
    a Java array has at most 2^31 - 1 elements. *)
Definition well_typed (c : Call) : Prop :=
  match c with
  | LoadTrack _ audioData startFrame =>
      Forall is_int16 audioData /\ Z.of_nat (length audioData) <= INT32_MAX
      /\ is_int32 startFrame
  | StartRecording _ _ startFrame => is_int32 startFrame
  | SeekToFrame frame => is_int64 frame
  | _ => True
  end.

Definition step (c : Call) (engine : State) : option State :=
  match c with
  | CreateEngine => Some (nativeCreateEngine engine)
  | DeleteEngine => Some (fst (nativeDeleteEngine engine))
  | Start dev => Some (nativeStart dev engine)
  | Stop => Some (nativeStop engine)
  | LoadTrack trackId audioData startFrame =>
      nativeLoadTrack trackId audioData startFrame engine
  | ClearTracks => Some (nativeClearTracks engine)
  | StartRecording fs filePath startFrame =>
      Some (nativeStartRecording fs filePath startFrame engine)
  | StopRecording => Some (nativeStopRecording engine)
  | SeekToFrame frame => Some (nativeSeekToFrame frame engine)
  end.

Fixpoint run (cs : list Call) (engine : State) : option State :=
  match cs with
  | [] => Some engine
  | c :: rest => do engine' <- step c engine; run rest engine'
  end.

Definition is_create (c : Call) : bool :=
  match c with
  | CreateEngine => true
  | _ => false
  end.

End Jni.

(* ================================================================== *)
(** ** More checkers and sample data *)

(** Structural equality of floats. *)
Definition f32_same (a b : float32) : bool :=
  match a, b with
  | S754_zero s, S754_zero t => Bool.eqb s t
  | S754_infinity s, S754_infinity t => Bool.eqb s t
  | S754_nan, S754_nan => true
  | S754_finite s m e, S754_finite t n f =>
      Bool.eqb s t && Pos.eqb m n && Z.eqb e f
  | _, _ => false
  end.

(** The float made from [x] survives being added to a cleared slot and
    is not touched by the clip test. *)
Definition passes_unchanged (x : Z) : bool :=
  f32_same (f32_add f32_zero (int16_to_float x)) (int16_to_float x)
  && negb (f32_gtb (int16_to_float x) f32_one
           || f32_ltb (int16_to_float x) f32_minus_one).

(** The calls [start] adds to the log of an engine that holds no stream. *)
Definition cold_start_calls (dev : Oboe.StartEnv) : list Oboe.Call :=
  Oboe.CallOpen Oboe.Output
  :: (if Oboe.is_ok (Oboe.openPlay dev)
      then Oboe.CallOpen Oboe.Input
           :: (if Oboe.is_ok (Oboe.openRecord dev)
               then [Oboe.CallStart Oboe.Input] else [])
           ++ [Oboe.CallStart Oboe.Output]
      else []).

(** A device whose microphone cannot be opened. *)
Definition no_microphone : Oboe.StartEnv :=
  {| Oboe.openPlay := Oboe.OK; Oboe.openRecord := Oboe.ErrorInternal;
     Oboe.startRecord := Oboe.OK; Oboe.startPlay := Oboe.OK |}.

(** The samples -3, 7, 20000 placed at frame 2. *)
Definition short_clip_samples : list Z := [-3; 7; 20000].

Definition short_clip : Track :=
  {| data := map int16_to_float short_clip_samples;
     startFrame := 2; lengthFrames := 3 |}.

(** The calls an operation added to the device log. *)
Definition new_calls (before after : AudioEngine) : list Oboe.Call :=
  drop (length (deviceLog before)) (deviceLog after).

Definition is_open_call (c : Oboe.Call) : bool :=
  match c with
  | Oboe.CallOpen _ => true
  | _ => false
  end.

Definition is_close_call (c : Oboe.Call) : bool :=
  match c with
  | Oboe.CallClose _ => true
  | _ => false
  end.


Definition is_speaker_start (c : Oboe.Call) : bool :=
  match c with
  | Oboe.CallStart Oboe.Output => true
  | _ => false
  end.

(** The running flag is only set while the play stream's last start
    succeeded. *)
Definition running_started (e : AudioEngine) : Prop :=
  mIsRunning e = true -> mPlayStream e = Some Oboe.Started.

(** While no operation on the sink's stream has failed, the counter is
    the number of 16-bit samples the stream has accepted (in 64-bit
    arithmetic). *)
Definition sink_matches_counter (e : AudioEngine) : Prop :=
  Ofstream.failed (mRecordingFile e) = false ->
  mRecordedSampleCount e
  = int64_wrap (Z.of_nat (length (Ofstream.written (mRecordingFile e))) / 2)
  /\ Z.of_nat (length (Ofstream.written (mRecordingFile e))) mod 2 = 0.

(** The file never holds more than the stream accepted, and holds all
    of it once the stream is closed with no operation failed. *)
Definition file_follows_stream (f : Ofstream.t) : Prop :=
  (Ofstream.flushed f <= length (Ofstream.written f))%nat
  /\ (Ofstream.is_open f = false -> Ofstream.failed f = false ->
      Ofstream.flushed f = length (Ofstream.written f)).

(* ================================================================== *)
(** * Properties *)

(** ** Integers *)

Lemma int32_wrap_id z : is_int32 z -> int32_wrap z = z.
Proof.
  unfold is_int32, INT32_MIN, INT32_MAX, int32_wrap. intros H.
  rewrite Z.mod_small; lia.
Qed.

Lemma int64_wrap_id z : is_int64 z -> int64_wrap z = z.
Proof.
  unfold is_int64, INT64_MIN, INT64_MAX, int64_wrap. intros H.
  rewrite Z.mod_small; lia.
Qed.

Lemma int64_wrap_range z : is_int64 (int64_wrap z).
Proof.
  unfold is_int64, INT64_MIN, INT64_MAX, int64_wrap.
  pose proof (Z.mod_pos_bound (z + 2 ^ 63) (2 ^ 64)). lia.
Qed.

(** The wrapped value differs from the exact one by a multiple of 2^64. *)
Lemma int64_wrap_shift z : exists k, int64_wrap z = z + k * 2 ^ 64.
Proof.
  exists (- ((z + 2 ^ 63) / 2 ^ 64)). unfold int64_wrap.
  pose proof (Z.div_mod (z + 2 ^ 63) (2 ^ 64)). lia.
Qed.

(** ** Vectors and loops *)

Lemma vec_at_Some {A} (v : list A) i x :
  vec_at v i = Some x <-> 0 <= i /\ v !! Z.to_nat i = Some x.
Proof.
  unfold vec_at. destruct (Z.ltb_spec i 0); split.
  - discriminate.
  - intros [? _]. lia.
  - auto.
  - tauto.
Qed.

Lemma vec_at_in_range {A} (v : list A) i :
  0 <= i < Z.of_nat (length v) -> exists x, vec_at v i = Some x.
Proof.
  intros Hi. destruct (lookup_lt_is_Some_2 v (Z.to_nat i)) as [x Hx]; [lia|].
  exists x. apply vec_at_Some. split; [lia | exact Hx].
Qed.

Lemma vec_at_lt {A} (v : list A) i x :
  vec_at v i = Some x -> 0 <= i < Z.of_nat (length v).
Proof.
  intros H. apply vec_at_Some in H as [H0 H].
  apply lookup_lt_Some in H. lia.
Qed.

Lemma vec_set_in_range {A} (v : list A) i x :
  0 <= i < Z.of_nat (length v) ->
  vec_set v i x = Some (<[Z.to_nat i := x]> v).
Proof.
  intros Hi. unfold vec_set.
  destruct (Z.leb_spec 0 i); [|lia].
  destruct (Z.ltb_spec i (Z.of_nat (length v))); [reflexivity | lia].
Qed.

Lemma vec_at_insert_eq {A} (v : list A) i x :
  0 <= i < Z.of_nat (length v) -> vec_at (<[Z.to_nat i := x]> v) i = Some x.
Proof.
  intros Hi. apply vec_at_Some. split; [lia|].
  apply list_lookup_insert_eq. lia.
Qed.

Lemma vec_at_insert_ne {A} (v : list A) i j x :
  0 <= i -> i <> j -> vec_at (<[Z.to_nat i := x]> v) j = vec_at v j.
Proof.
  intros Hi Hne. unfold vec_at. destruct (Z.ltb_spec j 0); [reflexivity|].
  apply list_lookup_insert_ne. lia.
Qed.

(** The invariant rule for the counted loop. *)
Lemma for_from_invariant {S} (P : Z -> S -> Prop) (body : Z -> S -> option S) :
  forall count i s,
    P i s ->
    (forall j t, i <= j < i + Z.of_nat count -> P j t ->
                 exists t', body j t = Some t' /\ P (j + 1) t') ->
    exists s', for_from count i body s = Some s' /\ P (i + Z.of_nat count) s'.
Proof.
  induction count as [|k IH]; intros i s Hinit Hstep.
  - exists s. split; [reflexivity|]. now replace (i + Z.of_nat 0) with i by lia.
  - cbn [for_from].
    destruct (Hstep i s) as [t [Hbody Ht]]; [lia | assumption |].
    rewrite Hbody.
    destruct (IH (i + 1) t Ht) as [s' [Hrun Hs']].
    + intros j u Hj Hu. apply Hstep; [lia | assumption].
    + exists s'. split; [assumption|].
      now replace (i + Z.of_nat (Datatypes.S k)) with (i + 1 + Z.of_nat k) by lia.
Qed.

Lemma for_loop_invariant {S} (P : Z -> S -> Prop) (body : Z -> S -> option S) n s :
  0 <= n ->
  P 0 s ->
  (forall j t, 0 <= j < n -> P j t ->
               exists t', body j t = Some t' /\ P (j + 1) t') ->
  exists s', for_loop n body s = Some s' /\ P n s'.
Proof.
  intros Hn Hinit Hstep. unfold for_loop.
  destruct (for_from_invariant P body (Z.to_nat n) 0 s Hinit) as [s' [Hrun Hs']].
  - intros j t Hj. apply Hstep. lia.
  - exists s'. split; [assumption|].
    now replace n with (0 + Z.of_nat (Z.to_nat n)) by lia.
Qed.

(** ** One track of the mix *)

(** Adding what a track contributes, if anything. *)
Lemma buf_add_spec (out : list float32) idx sample old :
  vec_at out idx = Some old ->
  buf_add out idx sample = Some (<[Z.to_nat idx := f32_add old sample]> out).
Proof.
  intros H. unfold buf_add. rewrite H.
  apply vec_set_in_range. eapply vec_at_lt; eassumption.
Qed.

(** The window test lets through every track that has a sample to give,
    and inside the loop the wrapped index is the exact one. *)
Lemma track_offset_exact track currentFrame numFrames :
  track_ok track -> is_int64 currentFrame ->
  0 <= numFrames -> numFrames * kChannelCountOut <= INT32_MAX ->
  let trackOffset := int64_wrap (currentFrame - startFrame track) in
  ((trackOffset <? lengthFrames track)
   && (int64_wrap (trackOffset + numFrames) >? 0) = true ->
   trackOffset = currentFrame - startFrame track
   /\ forall i, 0 <= i < numFrames -> int64_wrap (trackOffset + i) = trackOffset + i)
  /\ ((trackOffset <? lengthFrames track)
      && (int64_wrap (trackOffset + numFrames) >? 0) = false ->
      forall i, 0 <= i < numFrames -> contribution track currentFrame i = None).
Proof.
  intros (Hlen & Hsf & Hlf) Hcf Hn0 Hn2 trackOffset.
  unfold is_int32, is_int64, INT32_MIN, INT32_MAX, INT64_MIN, INT64_MAX,
    kChannelCountOut in *.
  pose proof (int64_wrap_range (currentFrame - startFrame track)) as Hr.
  destruct (int64_wrap_shift (currentFrame - startFrame track)) as [k Hk].
  fold trackOffset in Hr, Hk.
  unfold is_int64, INT64_MIN, INT64_MAX in Hr.
  split.
  - intros Hguard. apply andb_true_iff in Hguard as [H1 H2].
    apply Z.ltb_lt in H1. apply Z.gtb_lt in H2.
    assert (Hsum : int64_wrap (trackOffset + numFrames) = trackOffset + numFrames).
    { apply int64_wrap_id. unfold is_int64, INT64_MIN, INT64_MAX. lia. }
    rewrite Hsum in H2.
    split; [lia|].
    intros i Hi. apply int64_wrap_id. unfold is_int64, INT64_MIN, INT64_MAX. lia.
  - intros Hguard i Hi. unfold contribution.
    destruct (Z.leb_spec 0 (currentFrame - startFrame track + i)); [|reflexivity].
    destruct (Z.ltb_spec (currentFrame - startFrame track + i) (lengthFrames track));
      [|reflexivity].
    exfalso.
    assert (Hoff : trackOffset = currentFrame - startFrame track) by lia.
    assert (Hsum : int64_wrap (trackOffset + numFrames) = trackOffset + numFrames).
    { apply int64_wrap_id. unfold is_int64, INT64_MIN, INT64_MAX. lia. }
    rewrite Hsum in Hguard.
    apply andb_false_iff in Hguard as [Hg | Hg].
    + apply Z.ltb_ge in Hg. lia.
    + rewrite Z.gtb_ltb in Hg. apply Z.ltb_ge in Hg. lia.
Qed.

(** One pass of the inner loop: every frame of the window gets the
    track's contribution in both of its slots, and nothing else moves. *)
Lemma mix_track_spec track currentFrame numFrames (buf : list float32) :
  track_ok track -> is_int64 currentFrame ->
  0 <= numFrames -> numFrames * kChannelCountOut <= INT32_MAX ->
  Z.of_nat (length buf) = numFrames * kChannelCountOut ->
  exists out,
    mix_track track currentFrame numFrames buf = Some out
    /\ length out = length buf
    /\ forall i side x,
         0 <= i < numFrames -> 0 <= side <= 1 ->
         vec_at buf (2 * i + side) = Some x ->
         vec_at out (2 * i + side)
         = Some (accumulate x (contribution track currentFrame i)).
Proof.
  intros Hok Hcf Hn0 Hn2 Hlen.
  destruct (track_offset_exact track currentFrame numFrames Hok Hcf Hn0 Hn2)
    as [Hin Hout].
  unfold mix_track.
  set (trackOffset := int64_wrap (currentFrame - startFrame track)) in *.
  destruct ((trackOffset <? lengthFrames track)
            && (int64_wrap (trackOffset + numFrames) >? 0)) eqn:Hguard.
  2:{ exists buf. split; [reflexivity|]. split; [reflexivity|].
      intros i side x Hi _ Hx. rewrite (Hout eq_refl i Hi). exact Hx. }
  destruct (Hin eq_refl) as [Hoff Hidx]. clear Hin Hout.
  set (P := fun (j : Z) (out : list float32) =>
              length out = length buf
              /\ forall i side x,
                   0 <= i < numFrames -> 0 <= side <= 1 ->
                   vec_at buf (2 * i + side) = Some x ->
                   vec_at out (2 * i + side)
                   = Some (if i <? j
                           then accumulate x (contribution track currentFrame i)
                           else x)).
  match goal with
  | |- exists out, for_loop _ ?body _ = _ /\ _ =>
      destruct (for_loop_invariant P body numFrames buf Hn0) as [out [Hrun [HL HP]]]
  end.
  - split; [reflexivity|]. intros i side x Hi _ Hx.
    destruct (Z.ltb_spec i 0); [lia | exact Hx].
  - intros j out Hj [HL HP].
    unfold kChannelCountOut, INT32_MAX in *.
    rewrite (Hidx j Hj).
    assert (Hw0 : int32_wrap (j * 2) = 2 * j).
    { rewrite int32_wrap_id; [lia|]. unfold is_int32, INT32_MIN, INT32_MAX. lia. }
    assert (Hw1 : int32_wrap (int32_wrap (j * 2) + 1) = 2 * j + 1).
    { rewrite Hw0. apply int32_wrap_id. unfold is_int32, INT32_MIN, INT32_MAX. lia. }
    rewrite Hw1, Hw0.
    assert (Hc : contribution track currentFrame j =
                 if (trackOffset + j >=? 0) && (trackOffset + j <? lengthFrames track)
                 then data track !! Z.to_nat (trackOffset + j) else None).
    { unfold contribution. rewrite <- Hoff. rewrite Z.geb_leb. reflexivity. }
    destruct ((trackOffset + j >=? 0) && (trackOffset + j <? lengthFrames track))
      eqn:Hrange.
    + apply andb_true_iff in Hrange as [Hge Hlt].
      rewrite Z.geb_leb in Hge. apply Z.leb_le in Hge. apply Z.ltb_lt in Hlt.
      destruct Hok as (Hdata & _ & _).
      destruct (vec_at_in_range (data track) (trackOffset + j)) as [sample Hs];
        [lia|].
      rewrite Hs. apply vec_at_Some in Hs as [_ Hs]. rewrite Hs in Hc.
      destruct (vec_at_in_range buf (2 * j)) as [x0 Hx0]; [lia|].
      destruct (vec_at_in_range buf (2 * j + 1)) as [x1 Hx1]; [lia|].
      pose proof (HP j 0 x0 Hj ltac:(lia)) as Ho0.
      pose proof (HP j 1 x1 Hj ltac:(lia)) as Ho1.
      rewrite Z.add_0_r in Ho0. specialize (Ho0 Hx0).
      specialize (Ho1 Hx1).
      rewrite Z.ltb_irrefl in Ho0, Ho1.
      rewrite (buf_add_spec out (2 * j) sample x0 Ho0).
      set (out1 := <[Z.to_nat (2 * j) := f32_add x0 sample]> out).
      assert (Ho1' : vec_at out1 (2 * j + 1) = Some x1).
      { unfold out1. rewrite vec_at_insert_ne; [exact Ho1 | lia | lia]. }
      rewrite (buf_add_spec out1 (2 * j + 1) sample x1 Ho1').
      eexists. split; [reflexivity|].
      split.
      * unfold out1. rewrite !length_insert. exact HL.
      * intros i side x Hi Hside Hx.
        destruct (Z.eq_dec i j) as [->|Hne].
        -- replace (j <? j + 1) with true by (symmetry; apply Z.ltb_lt; lia).
           rewrite Hc. cbn [accumulate].
           assert (side = 0 \/ side = 1) as [-> | ->] by lia.
           ++ rewrite vec_at_insert_ne by lia.
              rewrite Z.add_0_r in *.
              unfold out1. rewrite vec_at_insert_eq.
              ** congruence.
              ** apply vec_at_lt in Ho0. lia.
           ++ rewrite vec_at_insert_eq.
              ** congruence.
              ** apply vec_at_lt in Ho1'. lia.
        -- rewrite vec_at_insert_ne by lia.
           unfold out1. rewrite vec_at_insert_ne by lia.
           rewrite (HP i side x Hi Hside Hx).
           replace (i <? j + 1) with (i <? j); [reflexivity|].
           destruct (Z.ltb_spec i j), (Z.ltb_spec i (j + 1)); try reflexivity; lia.
    + exists out. split; [reflexivity|]. split; [exact HL|].
      intros i side x Hi Hside Hx.
      rewrite (HP i side x Hi Hside Hx).
      destruct (Z.eq_dec i j) as [->|Hne].
      * rewrite Z.ltb_irrefl.
        replace (j <? j + 1) with true by (symmetry; apply Z.ltb_lt; lia).
        rewrite Hc. reflexivity.
      * replace (i <? j + 1) with (i <? j); [reflexivity|].
        destruct (Z.ltb_spec i j), (Z.ltb_spec i (j + 1)); try reflexivity; lia.
  - exists out. split; [exact Hrun|]. split; [exact HL|].
    intros i side x Hi Hside Hx.
    rewrite (HP i side x Hi Hside Hx).
    destruct (Z.ltb_spec i numFrames); [reflexivity | lia].
Qed.

(** All tracks, in store order. *)
Lemma mix_tracks_spec tracks currentFrame numFrames :
  Forall track_ok tracks -> is_int64 currentFrame ->
  0 <= numFrames -> numFrames * kChannelCountOut <= INT32_MAX ->
  forall buf : list float32,
    Z.of_nat (length buf) = numFrames * kChannelCountOut ->
    exists out,
      mix_tracks tracks currentFrame numFrames buf = Some out
      /\ length out = length buf
      /\ forall i side x,
           0 <= i < numFrames -> 0 <= side <= 1 ->
           vec_at buf (2 * i + side) = Some x ->
           vec_at out (2 * i + side)
           = Some (summed_sample tracks currentFrame i x).
Proof.
  intros Hok Hcf Hn0 Hn2.
  induction Hok as [|track rest Htrack Hrest IH]; intros buf Hlen.
  - exists buf. cbn. auto.
  - cbn [mix_tracks summed_sample].
    destruct (mix_track_spec track currentFrame numFrames buf
                Htrack Hcf Hn0 Hn2 Hlen) as (mid & Hmid & HLmid & Hslots).
    rewrite Hmid.
    destruct (IH mid) as (out & Hout & HLout & Hrest_slots); [congruence|].
    exists out. split; [exact Hout|]. split; [congruence|].
    intros i side x Hi Hside Hx.
    apply Hrest_slots; auto.
Qed.

Lemma cleared_buffer_slot numFrames k :
  0 <= numFrames -> numFrames * kChannelCountOut <= INT32_MAX ->
  0 <= k < numFrames * kChannelCountOut ->
  vec_at (replicate (Z.to_nat (int32_wrap (numFrames * kChannelCountOut))) f32_zero) k
  = Some f32_zero.
Proof.
  intros Hn0 Hn2 Hk.
  rewrite int32_wrap_id
    by (unfold is_int32, INT32_MIN, INT32_MAX, kChannelCountOut in *; lia).
  apply vec_at_Some. split; [lia|].
  apply lookup_replicate_2. lia.
Qed.

Lemma mix_sum_spec tracks currentFrame numFrames :
  Forall track_ok tracks -> is_int64 currentFrame ->
  0 <= numFrames -> numFrames * kChannelCountOut <= INT32_MAX ->
  exists summed,
    mix_sum tracks currentFrame numFrames = Some summed
    /\ Z.of_nat (length summed) = numFrames * kChannelCountOut
    /\ forall i side,
         0 <= i < numFrames -> 0 <= side <= 1 ->
         vec_at summed (2 * i + side)
         = Some (summed_sample tracks currentFrame i f32_zero).
Proof.
  intros Hok Hcf Hn0 Hn2. unfold mix_sum.
  set (cleared := replicate _ f32_zero).
  assert (Hlen : Z.of_nat (length cleared) = numFrames * kChannelCountOut).
  { unfold cleared. rewrite length_replicate.
    rewrite int32_wrap_id
      by (unfold is_int32, INT32_MIN, INT32_MAX, kChannelCountOut in *; lia).
    unfold kChannelCountOut. lia. }
  destruct (mix_tracks_spec tracks currentFrame numFrames Hok Hcf Hn0 Hn2
              cleared Hlen) as (out & Hout & HL & Hslots).
  exists out. split; [exact Hout|]. split; [congruence|].
  intros i side Hi Hside. apply Hslots; auto.
  apply cleared_buffer_slot; auto. unfold kChannelCountOut. lia.
Qed.

(** What [contribution] says, in the words of the window test. *)
Lemma contribution_in_range track currentFrame i :
  track_ok track ->
  0 <= currentFrame - startFrame track + i < lengthFrames track ->
  exists sample,
    vec_at (data track) (currentFrame - startFrame track + i) = Some sample
    /\ contribution track currentFrame i = Some sample.
Proof.
  intros (Hlen & _ & _) Hr.
  destruct (vec_at_in_range (data track) (currentFrame - startFrame track + i))
    as [sample Hs]; [lia|].
  exists sample. split; [exact Hs|].
  unfold contribution.
  destruct (Z.leb_spec 0 (currentFrame - startFrame track + i)); [|lia].
  destruct (Z.ltb_spec (currentFrame - startFrame track + i) (lengthFrames track));
    [|lia].
  cbn. apply vec_at_Some in Hs. tauto.
Qed.

Lemma contribution_out_of_range track currentFrame i :
  ~ (0 <= currentFrame - startFrame track + i < lengthFrames track) ->
  contribution track currentFrame i = None.
Proof.
  intros Hr. unfold contribution.
  destruct (Z.leb_spec 0 (currentFrame - startFrame track + i)); [|reflexivity].
  destruct (Z.ltb_spec (currentFrame - startFrame track + i) (lengthFrames track));
    [lia | reflexivity].
Qed.

(** ** Float comparisons *)

Lemma f32_one_eq : f32_one = S754_finite false 8388608 (-23).
Proof. reflexivity. Qed.

Lemma f32_minus_one_eq : f32_minus_one = S754_finite true 8388608 (-23).
Proof. reflexivity. Qed.

Lemma SFcompare_antisym x y :
  SFcompare y x = option_map CompOpp (SFcompare x y).
Proof.
  destruct x as [sx | sx | | sx mx ex], y as [sy | sy | | sy my ey];
    try reflexivity;
    try (destruct sx; reflexivity);
    try (destruct sy; reflexivity);
    try (destruct sx, sy; reflexivity).
  assert (Hm : Pos.compare_cont Eq my mx = CompOpp (Pos.compare_cont Eq mx my))
    by (symmetry; apply (Pos.compare_cont_antisym mx my Eq)).
  cbn. rewrite (Z.compare_antisym ex ey), Hm.
  destruct sx, sy; try reflexivity;
    destruct (ex ?= ey); cbn; try reflexivity;
    destruct (Pos.compare_cont Eq mx my); reflexivity.
Qed.

(** The test the code writes, [x > 1.0f || x < -1.0f], is the test on the
    magnitude. *)
Lemma exceeds_unit_iff_abs x :
  f32_gtb x f32_one || f32_ltb x f32_minus_one = f32_ltb f32_one (f32_abs x).
Proof.
  unfold f32_gtb, f32_ltb, f32_abs, SFltb.
  rewrite f32_one_eq, f32_minus_one_eq.
  destruct x as [s | s | | s m e];
    try reflexivity; try (destruct s; reflexivity).
  assert (Hm : Pos.compare_cont Eq m 8388608
               = CompOpp (Pos.compare_cont Eq 8388608 m))
    by (symmetry; apply (Pos.compare_cont_antisym 8388608 m Eq)).
  pose proof (Z.compare_antisym (-23) e) as He.
  destruct s; cbn -[Pos.compare_cont Z.compare]; rewrite ?He, ?Hm;
    destruct (-23 ?= e); cbn -[Pos.compare_cont]; try reflexivity;
    destruct (Pos.compare_cont Eq 8388608 m); reflexivity.
Qed.

Lemma within_unit_not_exceeds x :
  f32_leb (f32_abs x) f32_one = true -> f32_ltb f32_one (f32_abs x) = false.
Proof.
  unfold f32_leb, f32_ltb, SFleb, SFltb.
  rewrite (SFcompare_antisym (f32_abs x) f32_one).
  destruct (SFcompare (f32_abs x) f32_one) as [[]|]; cbn; congruence.
Qed.

Lemma clip_test_clipped tanhf x :
  (if f32_gtb x f32_one || f32_ltb x f32_minus_one then tanhf x else x)
  = clipped tanhf x.
Proof. unfold clipped. now rewrite exceeds_unit_iff_abs. Qed.

(** ** Soft clipping *)

Lemma soft_clip_spec tanhf numFrames (buf : list float32) :
  0 <= numFrames -> numFrames * kChannelCountOut <= INT32_MAX ->
  Z.of_nat (length buf) = numFrames * kChannelCountOut ->
  exists out,
    soft_clip tanhf numFrames buf = Some out
    /\ length out = length buf
    /\ forall k x, vec_at buf k = Some x ->
                   vec_at out k = Some (clipped tanhf x).
Proof.
  intros Hn0 Hn2 Hlen. unfold soft_clip.
  rewrite int32_wrap_id
    by (unfold is_int32, INT32_MIN, INT32_MAX, kChannelCountOut in *; lia).
  set (P := fun (j : Z) (out : list float32) =>
              length out = length buf
              /\ forall k x, vec_at buf k = Some x ->
                   vec_at out k = Some (if k <? j then clipped tanhf x else x)).
  match goal with
  | |- exists out, for_loop _ ?body _ = _ /\ _ =>
      destruct (for_loop_invariant P body (numFrames * kChannelCountOut) buf)
        as [out [Hrun [HL HP]]]
  end.
  - unfold kChannelCountOut. lia.
  - split; [reflexivity|]. intros k x Hx.
    pose proof (vec_at_lt _ _ _ Hx).
    destruct (Z.ltb_spec k 0); [lia | exact Hx].
  - intros j out Hj [HL HP].
    destruct (vec_at_in_range buf j) as [x Hx]; [lia|].
    pose proof (HP j x Hx) as Ho. rewrite Z.ltb_irrefl in Ho.
    rewrite Ho.
    assert (Hnext : forall k, k <> j -> (k <? j + 1) = (k <? j)).
    { intros k Hk.
      destruct (Z.ltb_spec k j), (Z.ltb_spec k (j + 1)); try reflexivity; lia. }
    assert (Hjj : (j <? j + 1) = true) by (apply Z.ltb_lt; lia).
    pose proof (clip_test_clipped tanhf x) as Hclip.
    destruct (f32_gtb x f32_one || f32_ltb x f32_minus_one).
    + rewrite vec_set_in_range by (rewrite HL; lia).
      eexists. split; [reflexivity|]. split.
      * rewrite length_insert. exact HL.
      * intros k y Hy. destruct (Z.eq_dec k j) as [->|Hne].
        -- rewrite vec_at_insert_eq by (rewrite HL; lia).
           rewrite Hjj. congruence.
        -- rewrite vec_at_insert_ne by lia.
           rewrite (HP k y Hy), (Hnext k Hne). reflexivity.
    + exists out. split; [reflexivity|]. split; [exact HL|].
      intros k y Hy. destruct (Z.eq_dec k j) as [->|Hne].
      * rewrite Hjj. congruence.
      * rewrite (HP k y Hy), (Hnext k Hne). reflexivity.
  - exists out. split; [exact Hrun|]. split; [exact HL|].
    intros k x Hx. rewrite (HP k x Hx).
    pose proof (vec_at_lt _ _ _ Hx).
    destruct (Z.ltb_spec k (numFrames * kChannelCountOut)); [reflexivity | lia].
Qed.

(** ** The track store *)

Lemma lookup_map {A B} (f : A -> B) (l : list A) (i : nat) :
  map f l !! i = option_map f (l !! i).
Proof.
  revert i. induction l as [|a l IH]; intros [|i]; cbn; auto.
Qed.

Lemma loadTrack_spec trackId (samples : list Z) startFrame e :
  loadTrack trackId samples (Z.of_nat (length samples)) startFrame e
  = Some (set_mTracks
            (mTracks e ++ [Build_Track (map int16_to_float samples) startFrame
                             (Z.of_nat (length samples))]) e).
Proof.
  unfold loadTrack.
  destruct (Z.ltb_spec (Z.of_nat (length samples)) 0); [lia|].
  rewrite Nat2Z.id.
  set (P := fun (j : Z) (v : list float32) =>
              length v = length samples
              /\ forall k x, samples !! k = Some x ->
                   v !! k = Some (if Z.of_nat k <? j
                                  then int16_to_float x else f32_zero)).
  match goal with
  | |- context [for_loop _ ?body ?init] =>
      destruct (for_loop_invariant P body (Z.of_nat (length samples)) init)
        as [v [Hrun [HL HP]]]
  end.
  - lia.
  - split; [apply length_replicate|].
    intros k x Hx. pose proof (lookup_lt_Some _ _ _ Hx).
    destruct (Z.ltb_spec (Z.of_nat k) 0); [lia|].
    now apply lookup_replicate_2.
  - intros j v Hj [HL HP].
    destruct (vec_at_in_range samples j) as [x Hx]; [lia|].
    rewrite Hx. rewrite vec_set_in_range by (rewrite HL; lia).
    eexists. split; [reflexivity|]. split.
    + rewrite length_insert. exact HL.
    + intros k y Hy. apply vec_at_Some in Hx as [_ Hx].
      destruct (Nat.eq_dec k (Z.to_nat j)) as [->|Hne].
      * rewrite list_lookup_insert_eq by lia.
        destruct (Z.ltb_spec (Z.of_nat (Z.to_nat j)) (j + 1)); [|lia].
        congruence.
      * rewrite list_lookup_insert_ne by lia.
        rewrite (HP k y Hy).
        destruct (Z.ltb_spec (Z.of_nat k) j), (Z.ltb_spec (Z.of_nat k) (j + 1));
          try reflexivity; lia.
  - rewrite Hrun.
    enough (Hv : v = map int16_to_float samples) by now rewrite Hv.
    apply list_eq. intros k. rewrite lookup_map.
    destruct (samples !! k) as [x|] eqn:Hx; cbn.
    + rewrite (HP k x Hx). pose proof (lookup_lt_Some _ _ _ Hx).
      destruct (Z.ltb_spec (Z.of_nat k) (Z.of_nat (length samples))); [reflexivity|lia].
    + apply lookup_ge_None. apply lookup_ge_None in Hx. lia.
Qed.

Lemma for_from_ext {S} (body1 body2 : Z -> S -> option S) :
  forall count i s,
    (forall j t, i <= j < i + Z.of_nat count -> body1 j t = body2 j t) ->
    for_from count i body1 s = for_from count i body2 s.
Proof.
  induction count as [|k IH]; intros i s Hext; [reflexivity|].
  cbn [for_from]. rewrite (Hext i s) by lia.
  destruct (body2 i s) as [s'|]; [|reflexivity].
  apply IH. intros j t Hj. apply Hext. lia.
Qed.

(** A loop whose body cannot get past index [j] does not finish. *)
Lemma for_from_stuck {S} (body : Z -> S -> option S) j :
  (forall t, body j t = None) ->
  forall count i s,
    i <= j < i + Z.of_nat count -> for_from count i body s = None.
Proof.
  intros Hj. induction count as [|k IH]; intros i s Hr; [lia|].
  cbn [for_from]. destruct (Z.eq_dec i j) as [->|Hne].
  - now rewrite Hj.
  - destruct (body i s) as [s'|]; [|reflexivity]. apply IH. lia.
Qed.

Lemma vec_at_take {A} (v : list A) (n i : Z) :
  0 <= i < n -> vec_at (take (Z.to_nat n) v) i = vec_at v i.
Proof.
  intros Hi. unfold vec_at. destruct (Z.ltb_spec i 0); [reflexivity|].
  apply lookup_take_lt. lia.
Qed.

(** [loadTrack] with a count within the array. *)
Lemma loadTrack_within trackId (samples : list Z) numSamples placedAt e :
  0 <= numSamples <= Z.of_nat (length samples) ->
  loadTrack trackId samples numSamples placedAt e
  = Some (set_mTracks
            (mTracks e
             ++ [Build_Track
                   (map int16_to_float (take (Z.to_nat numSamples) samples))
                   placedAt numSamples]) e).
Proof.
  intros Hn.
  assert (Hlen : Z.of_nat (length (take (Z.to_nat numSamples) samples))
                 = numSamples) by (rewrite length_take; lia).
  pose proof (loadTrack_spec trackId (take (Z.to_nat numSamples) samples)
                placedAt e) as Hspec.
  rewrite Hlen in Hspec. rewrite <- Hspec.
  unfold loadTrack. destruct (Z.ltb_spec numSamples 0); [lia|].
  unfold for_loop.
  erewrite for_from_ext; [reflexivity|].
  intros j t Hj. cbn beta. rewrite vec_at_take by lia. reflexivity.
Qed.

(** [loadTrack] with a count outside the array: the resize or a read
    fails. *)
Lemma loadTrack_outside trackId (samples : list Z) numSamples placedAt e :
  numSamples < 0 \/ Z.of_nat (length samples) < numSamples ->
  loadTrack trackId samples numSamples placedAt e = None.
Proof.
  intros [Hneg | Hpast]; unfold loadTrack.
  - destruct (Z.ltb_spec numSamples 0); [reflexivity | lia].
  - destruct (Z.ltb_spec numSamples 0); [reflexivity|].
    unfold for_loop.
    rewrite (for_from_stuck _ (Z.of_nat (length samples))); [reflexivity| |lia].
    intros t. unfold vec_at.
    destruct (Z.ltb_spec (Z.of_nat (length samples)) 0); [reflexivity|].
    rewrite (proj2 (lookup_ge_None samples _)) by lia. reflexivity.
Qed.

(** A load that returns did take a count within the array. *)
Lemma loadTrack_Some trackId (samples : list Z) numSamples placedAt e e' :
  loadTrack trackId samples numSamples placedAt e = Some e' ->
  0 <= numSamples <= Z.of_nat (length samples)
  /\ e' = set_mTracks
            (mTracks e
             ++ [Build_Track
                   (map int16_to_float (take (Z.to_nat numSamples) samples))
                   placedAt numSamples]) e.
Proof.
  intros Hload.
  destruct (Z_lt_dec numSamples 0) as [Hneg|Hnn].
  { rewrite loadTrack_outside in Hload by (left; exact Hneg). discriminate. }
  destruct (Z_lt_dec (Z.of_nat (length samples)) numSamples) as [Hpast|Hin].
  { rewrite loadTrack_outside in Hload by (right; exact Hpast). discriminate. }
  assert (Hn : 0 <= numSamples <= Z.of_nat (length samples)) by lia.
  rewrite (loadTrack_within _ _ _ _ _ Hn) in Hload.
  inversion Hload. split; [exact Hn | reflexivity].
Qed.

Lemma in_zrange n : forall lo x,
  lo <= x < lo + Z.of_nat n -> In x (zrange lo n).
Proof.
  induction n as [|k IH]; intros lo x Hx; [lia|].
  cbn [zrange]. destruct (Z.eq_dec lo x) as [->|Hne]; [now left|].
  right. apply IH. lia.
Qed.

(** Every 16-bit sample converts without rounding. *)
Lemma conversion_exact_all :
  forallb conversion_exact (zrange INT16_MIN (Z.to_nat 65536)) = true.
Proof. vm_compute. reflexivity. Qed.

Lemma int16_to_float_exact x :
  is_int16 x ->
  exists q, f32_value (int16_to_float x) = Some q /\ (q == x # 32768)%Q.
Proof.
  intros Hx. pose proof conversion_exact_all as Hall.
  rewrite forallb_forall in Hall.
  assert (Hin : In x (zrange INT16_MIN (Z.to_nat 65536))).
  { apply in_zrange. unfold is_int16, INT16_MIN, INT16_MAX in *. lia. }
  specialize (Hall x Hin). unfold conversion_exact in Hall.
  destruct (f32_value (int16_to_float x)) as [q|]; [|discriminate].
  exists q. split; [reflexivity|]. now apply Qeq_bool_iff.
Qed.

(** ** The capture path *)

Ltac break_ifs :=
  repeat match goal with
         | |- context [if ?c then _ else _] => destruct c
         | |- context [match ?c with Some _ => _ | None => _ end] => destruct c
         end.

Lemma capture_keeps cf rd n e :
  mTracks (capture cf rd n e) = mTracks e
  /\ mCurrentFrame (capture cf rd n e) = mCurrentFrame e
  /\ mIsRecording (capture cf rd n e) = mIsRecording e
  /\ mRecordStartFrame (capture cf rd n e) = mRecordStartFrame e
  /\ mIsRunning (capture cf rd n e) = mIsRunning e
  /\ mPlayStream (capture cf rd n e) = mPlayStream e
  /\ mRecordStream (capture cf rd n e) = mRecordStream e.
Proof.
  unfold capture, recordingFile_write. destruct e; cbn. break_ifs; cbn; auto 10.
Qed.

(** The bytes of the first [|got|] samples of the input buffer are the
    bytes of [got]. *)
Lemma take_sample_bytes (got rest : list Z) :
  take (Z.to_nat (Z.of_nat (length got) * 2))
       (concat (map int16_bytes (got ++ rest)))
  = concat (map int16_bytes got).
Proof.
  induction got as [|x got IH]; cbn [length app map concat].
  - reflexivity.
  - replace (Z.to_nat (Z.of_nat (Datatypes.S (length got)) * 2))
      with (Datatypes.S (Datatypes.S (Z.to_nat (Z.of_nat (length got) * 2))))
      by lia.
    unfold int16_bytes at 1. cbn [app take]. now rewrite IH.
Qed.

(** What the capture path does once the record stream is started. *)
Lemma capture_started cf rd n e :
  mRecordStream e = Some Oboe.Started ->
  let got := Oboe.read_samples rd n in
  let value := Z.of_nat (length got) in
  let e1 := called (Oboe.CallRead n value) e in
  capture cf rd n e
  = if (value >? 0) && mIsRecording e && Ofstream.is_open (mRecordingFile e)
       && (cf >=? mRecordStartFrame e)
    then set_mRecordedSampleCount (int64_wrap (mRecordedSampleCount e + value))
           (recordingFile_write (concat (map int16_bytes got)) e1)
    else e1.
Proof.
  intros Hs got value e1. unfold capture. rewrite Hs. cbn [Oboe.state_eqb].
  unfold Oboe.read_value. fold got. fold value.
  rewrite (take_sample_bytes got).
  destruct e; cbn in *.
  destruct (value >? 0), mIsRecording0, (Ofstream.is_open mRecordingFile0),
    (cf >=? mRecordStartFrame0); try reflexivity.
  unfold recordingFile_write; cbn.
  destruct (Ofstream.consults mRecordingFile0); reflexivity.
Qed.

(** ** The callback as a whole *)

Lemma onAudioReady_runs tanhf rd n e :
  Forall track_ok (mTracks e) -> is_int64 (mCurrentFrame e) ->
  0 <= n -> n * kChannelCountOut <= INT32_MAX ->
  exists summed out,
    mix_sum (mTracks e) (mCurrentFrame e) n = Some summed
    /\ soft_clip tanhf n summed = Some out
    /\ onAudioReady tanhf rd n e
       = Some (set_mCurrentFrame (int64_wrap (mCurrentFrame e + n))
                 (capture (mCurrentFrame e) rd n e), out).
Proof.
  intros Hok Hcf Hn0 Hn2.
  destruct (mix_sum_spec (mTracks e) (mCurrentFrame e) n Hok Hcf Hn0 Hn2)
    as (summed & Hsum & Hlen & _).
  destruct (soft_clip_spec tanhf n summed Hn0 Hn2 Hlen) as (out & Hclip & _).
  exists summed, out. split; [exact Hsum|]. split; [exact Hclip|].
  unfold onAudioReady, mix_path.
  destruct (capture_keeps (mCurrentFrame e) rd n e) as (-> & -> & _).
  now rewrite Hsum, Hclip.
Qed.

(** The buffer handed back depends on the tracks and on the frame value
    loaded at entry only. *)
Lemma onAudioReady_output tanhf rd n e :
  option_map snd (onAudioReady tanhf rd n e)
  = mix_path tanhf (mTracks e) (mCurrentFrame e) n.
Proof.
  unfold onAudioReady.
  destruct (capture_keeps (mCurrentFrame e) rd n e) as (-> & _).
  destruct (mix_path tanhf (mTracks e) (mCurrentFrame e) n); reflexivity.
Qed.

(** ** Invariants of reachable states *)

Lemma write_keeps_open a f bytes :
  Ofstream.is_open (Ofstream.write a f bytes) = Ofstream.is_open f.
Proof.
  unfold Ofstream.write. destruct f as [o fl p w fd]; cbn.
  destruct fl, o, a; reflexivity.
Qed.

Lemma capture_ok cf rd n e : engine_ok e -> engine_ok (capture cf rd n e).
Proof.
  intros (Ht & Hrec & Hcf & Hcount & Hstart).
  destruct (capture_keeps cf rd n e) as (Et & Ef & Er & Es & _).
  unfold engine_ok. rewrite Et, Ef, Er, Es.
  repeat split; try assumption; try apply Hcf; try apply Hstart.
  - rewrite Hrec. unfold capture, recordingFile_write. destruct e; cbn.
    break_ifs; cbn; try reflexivity; symmetry; apply write_keeps_open.
  - unfold capture, recordingFile_write. destruct e; cbn in *. break_ifs; cbn;
      try apply Hcount; apply int64_wrap_range.
  - unfold capture, recordingFile_write. destruct e; cbn in *. break_ifs; cbn;
      try apply Hcount; apply int64_wrap_range.
Qed.

Lemma newEngine_ok : engine_ok newEngine.
Proof.
  unfold engine_ok, newEngine, is_int64, is_int32, INT64_MIN, INT64_MAX,
    INT32_MIN, INT32_MAX; cbn. repeat split; try constructor; lia.
Qed.

Lemma start_keeps dev e :
  mTracks (start dev e) = mTracks e
  /\ mCurrentFrame (start dev e) = mCurrentFrame e
  /\ mIsRecording (start dev e) = mIsRecording e
  /\ mRecordingFile (start dev e) = mRecordingFile e
  /\ mRecordStartFrame (start dev e) = mRecordStartFrame e
  /\ mRecordedSampleCount (start dev e) = mRecordedSampleCount e.
Proof.
  unfold start, openStreams. destruct e; cbn.
  destruct mIsRunning0; cbn; [auto 10|].
  destruct (needs_open mPlayStream0); cbn;
    [destruct (Oboe.is_ok (Oboe.openPlay dev)); cbn;
     [destruct (Oboe.is_ok (Oboe.openRecord dev)); cbn|]|];
    try destruct mRecordStream0 as [rs|]; cbn;
    try destruct (startable rs); cbn;
    try destruct mPlayStream0 as [ps|]; cbn;
    try destruct (startable ps); cbn;
    try destruct (Oboe.is_ok (Oboe.startPlay dev)); cbn; auto 10.
Qed.

Lemma stop_keeps e :
  mTracks (stop e) = mTracks e
  /\ mCurrentFrame (stop e) = mCurrentFrame e
  /\ mIsRecording (stop e) = mIsRecording e
  /\ mRecordingFile (stop e) = mRecordingFile e
  /\ mRecordStartFrame (stop e) = mRecordStartFrame e
  /\ mRecordedSampleCount (stop e) = mRecordedSampleCount e.
Proof.
  unfold stop, stopStreams. destruct e; cbn.
  destruct mIsRunning0, mPlayStream0, mRecordStream0; cbn; auto 10.
Qed.

Lemma reset_keeps e :
  mTracks (reset e) = mTracks e
  /\ mIsRecording (reset e) = mIsRecording e
  /\ mRecordingFile (reset e) = mRecordingFile e
  /\ mRecordStartFrame (reset e) = mRecordStartFrame e
  /\ mRecordedSampleCount (reset e) = mRecordedSampleCount e.
Proof.
  unfold reset, stopStreams, closeStreams. destruct e; cbn.
  destruct mPlayStream0, mRecordStream0; cbn; auto 10.
Qed.

Lemma startRecording_ok fs filePath startFrame e :
  is_int32 startFrame -> engine_ok e ->
  engine_ok (startRecording fs filePath startFrame e).
Proof.
  intros Hsf (Ht & Hrec & Hcf & Hcount & Hstart).
  unfold startRecording, Ofstream.open, Ofstream.rdbuf_open, engine_ok.
  destruct e as [ps rs tr rec [o fl p w fd] sf cnt cur run log ans]; cbn in *.
  assert (is_int64 0) by (unfold is_int64, INT64_MIN, INT64_MAX; lia).
  destruct o; cbn; [auto 10|].
  destruct (fs filePath); cbn; auto 10.
Qed.

Lemma stopRecording_ok e : engine_ok e -> engine_ok (stopRecording e).
Proof.
  intros (Ht & Hrec & Hcf & Hcount & Hstart).
  unfold stopRecording, recordingFile_close, Ofstream.close, engine_ok.
  destruct e as [ps rs tr rec [o fl p w fd] sf cnt cur run log ans]; cbn in *.
  destruct o; cbn; [|auto 10].
  destruct (Ofstream.next_answer ans) as [[k | taken k] rest]; cbn; auto 10.
Qed.

Lemma streamMoved_keeps d state e :
  mTracks (streamMoved d state e) = mTracks e
  /\ mIsRecording (streamMoved d state e) = mIsRecording e
  /\ mRecordingFile (streamMoved d state e) = mRecordingFile e
  /\ mCurrentFrame (streamMoved d state e) = mCurrentFrame e
  /\ mRecordedSampleCount (streamMoved d state e) = mRecordedSampleCount e
  /\ mRecordStartFrame (streamMoved d state e) = mRecordStartFrame e
  /\ mIsRunning (streamMoved d state e) = mIsRunning e
  /\ deviceLog (streamMoved d state e) = deviceLog e
  /\ sinkAnswers (streamMoved d state e) = sinkAnswers e.
Proof.
  unfold streamMoved.
  destruct d, (mPlayStream e), (mRecordStream e); cbn; auto 10.
Qed.

Lemma step_ok tanhf c e e' :
  well_typed c -> in_contract c -> engine_ok e ->
  step tanhf c e = Some e' -> engine_ok e'.
Proof.
  intros Hc Hin He Hstep.
  pose proof He as (Ht & Hrec & Hcf & Hcount & Hstart).
  destruct c; cbn in Hstep, Hc, Hin.
  - inversion Hstep; subst e'. unfold engine_ok.
    destruct (start_keeps dev e) as (-> & -> & -> & -> & -> & ->). exact He.
  - inversion Hstep; subst e'. unfold engine_ok.
    destruct (stop_keeps e) as (-> & -> & -> & -> & -> & ->). exact He.
  - inversion Hstep; subst e'. unfold engine_ok.
    destruct (reset_keeps e) as (-> & -> & -> & -> & ->).
    repeat split; try assumption; try apply Hcount; try apply Hstart;
      unfold reset; cbn; unfold INT64_MIN, INT64_MAX; lia.
  - rewrite loadTrack_within in Hstep by exact Hin.
    inversion Hstep; subst e'.
    destruct Hc as (_ & Hlen & Hsf).
    unfold engine_ok. cbn. repeat split; try assumption;
      try apply Hcf; try apply Hcount; try apply Hstart.
    apply Forall_app. split; [assumption|].
    constructor; [|constructor].
    unfold track_ok; cbn. rewrite length_map, length_take.
    repeat split; try apply Hsf; try apply Hlen; lia.
  - inversion Hstep; subst e'. unfold engine_ok, clearTracks; cbn.
    repeat split; try assumption; try constructor;
      try apply Hcf; try apply Hcount; try apply Hstart.
  - inversion Hstep; subst e'. now apply startRecording_ok.
  - inversion Hstep; subst e'. now apply stopRecording_ok.
  - inversion Hstep; subst e'. unfold engine_ok, seekToFrame; cbn.
    repeat split; try assumption; try apply Hc; try apply Hcount; try apply Hstart.
  - destruct Hin as (Hn0 & Hn2).
    destruct (onAudioReady_runs tanhf rd numFrames e Ht Hcf Hn0 Hn2)
      as (summed & out & _ & _ & Hrun).
    rewrite Hrun in Hstep. cbn in Hstep. inversion Hstep; subst e'.
    pose proof (capture_ok (mCurrentFrame e) rd numFrames e He)
      as (Ht' & Hrec' & Hcf' & Hcount' & Hstart').
    unfold engine_ok; cbn. repeat split; try assumption;
      try apply Hcount'; try apply Hstart'; apply int64_wrap_range.
  - inversion Hstep; subst e'. unfold onErrorAfterClose.
    destruct result; exact He.
  - inversion Hstep; subst e'. unfold engine_ok.
    destruct (streamMoved_keeps d state e)
      as (-> & -> & -> & -> & -> & -> & _). exact He.
  - inversion Hstep; subst e'. exact He.
Qed.

Lemma reachable_ok tanhf e : reachable tanhf e -> engine_ok e.
Proof.
  induction 1 as [|c e e' _ IH Hc Hin Hstep].
  - apply newEngine_ok.
  - eapply step_ok; eassumption.
Qed.

(* ================================================================== *)
(** * The engine against its specification *)

(** C1.  For every track and every callback with clock value
    [currentFrame] and [numFrames] frames, and for every output frame
    [i] in [0, numFrames): with [sampleIndex = currentFrame - startFrame + i],
    the pass over the track adds [samples[sampleIndex]] to the left slot
    [2i] and to the right slot [2i+1] exactly when
    [0 <= sampleIndex < lengthFrames], and leaves both slots as they were
    otherwise; after all tracks each slot of frame [i] holds the sum, in
    store order, of those contributions starting from 0.  The engine's
    tracks satisfy [lengthFrames = |samples|] and the buffer has
    [2 * numFrames] slots. *)
Theorem C1_mix_adds_overlapping_samples tracks currentFrame numFrames :
  Forall track_ok tracks -> is_int64 currentFrame ->
  0 <= numFrames -> numFrames * kChannelCountOut <= INT32_MAX ->
  (* what a track contributes to frame i *)
  (forall track i, In track tracks -> 0 <= i < numFrames ->
     let sampleIndex := currentFrame - startFrame track + i in
     (0 <= sampleIndex < lengthFrames track ->
        exists sample, vec_at (data track) sampleIndex = Some sample
                       /\ contribution track currentFrame i = Some sample)
     /\ (~ (0 <= sampleIndex < lengthFrames track) ->
        contribution track currentFrame i = None))
  (* one track's pass over any buffer of the callback *)
  /\ (forall track (buf : list float32), In track tracks ->
        Z.of_nat (length buf) = numFrames * kChannelCountOut ->
        exists out,
          mix_track track currentFrame numFrames buf = Some out
          /\ length out = length buf
          /\ forall i l r, 0 <= i < numFrames ->
               vec_at buf (2 * i) = Some l -> vec_at buf (2 * i + 1) = Some r ->
               vec_at out (2 * i)
               = Some (accumulate l (contribution track currentFrame i))
               /\ vec_at out (2 * i + 1)
                  = Some (accumulate r (contribution track currentFrame i)))
  (* the whole summation *)
  /\ exists summed,
       mix_sum tracks currentFrame numFrames = Some summed
       /\ Z.of_nat (length summed) = numFrames * kChannelCountOut
       /\ forall i, 0 <= i < numFrames ->
            vec_at summed (2 * i)
            = Some (summed_sample tracks currentFrame i f32_zero)
            /\ vec_at summed (2 * i + 1)
               = Some (summed_sample tracks currentFrame i f32_zero).
Proof.
  intros Hok Hcf Hn0 Hn2. split; [|split].
  - intros track i Hin Hi sampleIndex.
    rewrite Forall_forall in Hok. split.
    + apply contribution_in_range. apply Hok, list_elem_of_In, Hin.
    + apply contribution_out_of_range.
  - intros track buf Hin Hlen.
    rewrite Forall_forall in Hok.
    destruct (mix_track_spec track currentFrame numFrames buf
                (Hok track (proj2 (list_elem_of_In _ _) Hin)) Hcf Hn0 Hn2 Hlen)
      as (out & Hout & HL & Hslots).
    exists out. split; [exact Hout|]. split; [exact HL|].
    intros i l r Hi Hl Hr. split.
    + pose proof (Hslots i 0 l Hi ltac:(lia)) as H0.
      rewrite Z.add_0_r in H0. now apply H0.
    + apply (Hslots i 1 r Hi); [lia | exact Hr].
  - destruct (mix_sum_spec tracks currentFrame numFrames Hok Hcf Hn0 Hn2)
      as (summed & Hsum & Hlen & Hslots).
    exists summed. split; [exact Hsum|]. split; [exact Hlen|].
    intros i Hi. split.
    + pose proof (Hslots i 0 Hi ltac:(lia)) as H0.
      now rewrite Z.add_0_r in H0.
    + apply Hslots; [exact Hi | lia].
Qed.

Lemma C1_witness :
  Forall track_ok [clip_100_50] /\ is_int64 80
  /\ 0 <= 40 /\ 40 * kChannelCountOut <= INT32_MAX
  /\ exists summed,
       mix_sum [clip_100_50] 80 40 = Some summed
       /\ vec_at summed (2 * 25)
          = Some (summed_sample [clip_100_50] 80 25 f32_zero).
Proof.
  assert (H1 : Forall track_ok [clip_100_50]).
  { repeat constructor; vm_compute; congruence. }
  assert (H2 : is_int64 80) by (vm_compute; split; congruence).
  assert (H3 : 0 <= 40) by lia.
  assert (H4 : 40 * kChannelCountOut <= INT32_MAX) by (vm_compute; congruence).
  repeat (split; [assumption|]).
  destruct (C1_mix_adds_overlapping_samples [clip_100_50] 80 40 H1 H2 H3 H4)
    as (_ & _ & summed & Hsum & _ & Hslots).
  exists summed. split; [exact Hsum|].
  apply (Hslots 25). lia.
Defined.

(** The windows of section 8 of the specification. *)
Example clip_silent_before currentFrame i :
  currentFrame + i < 100 -> contribution clip_100_50 currentFrame i = None.
Proof. intros H. apply contribution_out_of_range. cbn. lia. Qed.

Example clip_silent_after currentFrame i :
  150 <= currentFrame + i -> contribution clip_100_50 currentFrame i = None.
Proof. intros H. apply contribution_out_of_range. cbn. lia. Qed.

Example clip_window_0_100 :
  mix_sum [clip_100_50] 0 100 = Some (replicate 200 f32_zero).
Proof. vm_compute. reflexivity. Qed.

Example clip_window_100_150 :
  mix_sum [clip_100_50] 100 50
  = Some (concat (map (fun s => [s; s]) (data clip_100_50))).
Proof. vm_compute. reflexivity. Qed.

Example clip_window_straddling :
  mix_sum [clip_100_50] 80 40
  = Some (replicate 40 f32_zero
          ++ concat (map (fun s => [s; s]) (take 20 (data clip_100_50)))).
Proof. vm_compute. reflexivity. Qed.

(** C2.  In every callback, after all tracks are summed, each slot of the
    buffer handed back holds the summed value itself when its magnitude
    is at most 1.0, and the hyperbolic tangent of the summed value when
    its magnitude exceeds 1.0; a summed value of exactly 2.0 comes back
    as tanh(2.0). *)
Theorem C2_soft_clip_by_magnitude tanhf rd numFrames e :
  Forall track_ok (mTracks e) -> is_int64 (mCurrentFrame e) ->
  0 <= numFrames -> numFrames * kChannelCountOut <= INT32_MAX ->
  exists summed e' out,
    mix_sum (mTracks e) (mCurrentFrame e) numFrames = Some summed
    /\ onAudioReady tanhf rd numFrames e = Some (e', out)
    /\ length out = length summed
    /\ forall k x, vec_at summed k = Some x ->
         (f32_leb (f32_abs x) f32_one = true -> vec_at out k = Some x)
         /\ (f32_ltb f32_one (f32_abs x) = true -> vec_at out k = Some (tanhf x))
         /\ (x = f32_two -> vec_at out k = Some (tanhf f32_two)).
Proof.
  intros Hok Hcf Hn0 Hn2.
  destruct (onAudioReady_runs tanhf rd numFrames e Hok Hcf Hn0 Hn2)
    as (summed & out & Hsum & Hclip & Hrun).
  destruct (mix_sum_spec (mTracks e) (mCurrentFrame e) numFrames Hok Hcf Hn0 Hn2)
    as (summed' & Hsum' & Hlen & _).
  assert (summed' = summed) as -> by congruence.
  destruct (soft_clip_spec tanhf numFrames summed Hn0 Hn2 Hlen)
    as (out' & Hclip' & HL & Hslots).
  assert (out' = out) as -> by congruence.
  eexists summed, _, out. split; [exact Hsum|]. split; [exact Hrun|].
  split; [exact HL|].
  intros k x Hx. rewrite (Hslots k x Hx). unfold clipped.
  split; [|split].
  - intros Hle. now rewrite (within_unit_not_exceeds x Hle).
  - intros Hgt. now rewrite Hgt.
  - intros ->. reflexivity.
Qed.

Lemma C2_witness :
  Forall track_ok (mTracks four_halves) /\ is_int64 (mCurrentFrame four_halves)
  /\ 0 <= 2 /\ 2 * kChannelCountOut <= INT32_MAX
  /\ exists summed e' out,
       mix_sum (mTracks four_halves) (mCurrentFrame four_halves) 2 = Some summed
       /\ onAudioReady sign_tanhf (Oboe.ReadAvailable []) 2 four_halves
          = Some (e', out)
       /\ length out = length summed.
Proof.
  assert (H1 : Forall track_ok (mTracks four_halves)).
  { repeat constructor; vm_compute; congruence. }
  assert (H2 : is_int64 (mCurrentFrame four_halves))
    by (vm_compute; split; congruence).
  assert (H3 : 0 <= 2) by lia.
  assert (H4 : 2 * kChannelCountOut <= INT32_MAX) by (vm_compute; congruence).
  repeat (split; [assumption|]).
  destruct (C2_soft_clip_by_magnitude sign_tanhf (Oboe.ReadAvailable []) 2
              four_halves H1 H2 H3 H4)
    as (summed & e' & out & Hsum & Hrun & HL & _).
  exists summed, e', out. auto.
Defined.

(** Four clips of 0.5 sum to exactly 2.0 in the first frame, which is
    handed back as tanh(2.0); the second frame is silent and untouched. *)
Example four_halves_clip tanhf :
  mix_sum (mTracks four_halves) 0 2
  = Some [f32_two; f32_two; f32_zero; f32_zero]
  /\ option_map snd (onAudioReady tanhf (Oboe.ReadAvailable []) 2 four_halves)
     = Some [tanhf f32_two; tanhf f32_two; f32_zero; f32_zero].
Proof. split; reflexivity. Qed.

(** ** The frame clock *)

(** The callback in one equation: capture and mix both take the frame
    value the engine held at entry. *)
Lemma onAudioReady_eq tanhf rd n e :
  onAudioReady tanhf rd n e
  = option_map
      (fun out => (set_mCurrentFrame (int64_wrap (mCurrentFrame e + n))
                     (capture (mCurrentFrame e) rd n e), out))
      (mix_path tanhf (mTracks e) (mCurrentFrame e) n).
Proof.
  unfold onAudioReady.
  destruct (capture_keeps (mCurrentFrame e) rd n e) as (-> & -> & _).
  destruct (mix_path tanhf (mTracks e) (mCurrentFrame e) n); reflexivity.
Qed.

Lemma total_frames_app cbs1 cbs2 :
  total_frames (cbs1 ++ cbs2) = total_frames cbs1 + total_frames cbs2.
Proof.
  induction cbs1 as [|cb cbs1 IH]; cbn [total_frames app]; lia.
Qed.

Lemma total_frames_nonneg cbs :
  Forall (fun cb : Oboe.ReadEnv * Z => 0 < snd cb
                 /\ snd cb * kChannelCountOut <= INT32_MAX) cbs ->
  0 <= total_frames cbs.
Proof.
  induction 1 as [|cb cbs [Hpos _] _ IH]; cbn [total_frames]; lia.
Qed.

(** A run of callbacks that stays below the top of the 64-bit range adds
    up the frames it delivers. *)
Lemma callbacks_sum tanhf cbs : forall e,
  Forall track_ok (mTracks e) -> is_int64 (mCurrentFrame e) ->
  Forall (fun cb : Oboe.ReadEnv * Z => 0 < snd cb
                 /\ snd cb * kChannelCountOut <= INT32_MAX) cbs ->
  mCurrentFrame e + total_frames cbs <= INT64_MAX ->
  exists e',
    run tanhf (callbacks cbs) e = Some e'
    /\ mCurrentFrame e' = mCurrentFrame e + total_frames cbs
    /\ mTracks e' = mTracks e.
Proof.
  induction cbs as [|[rd n] cbs IH]; intros e Hok Hcf Hall Hmax.
  - exists e. cbn. repeat split; lia.
  - inversion Hall as [|? ? [Hpos Hfit] Hrest]; subst. cbn in Hpos, Hfit.
    pose proof (total_frames_nonneg cbs Hrest) as Hnn.
    cbn [callbacks map run step fst snd total_frames] in *.
    destruct (onAudioReady_runs tanhf rd n e Hok Hcf ltac:(lia) Hfit)
      as (summed & out & _ & _ & Hrun).
    rewrite Hrun. cbn [option_map fst].
    set (e1 := set_mCurrentFrame _ _).
    destruct (capture_keeps (mCurrentFrame e) rd n e) as (Et & Ef & _).
    assert (Hclock : mCurrentFrame e1 = mCurrentFrame e + n).
    { unfold e1; cbn. apply int64_wrap_id.
      unfold is_int64, INT64_MIN, INT64_MAX in *. lia. }
    assert (Htracks : mTracks e1 = mTracks e) by (unfold e1; cbn; exact Et).
    destruct (IH e1) as (e' & Hrest_run & Hc & Ht).
    + now rewrite Htracks.
    + rewrite Hclock. unfold is_int64, INT64_MIN, INT64_MAX in *. lia.
    + exact Hrest.
    + rewrite Hclock. lia.
    + exists e'. fold (callbacks cbs). split; [exact Hrest_run|].
      split; [lia | congruence].
Qed.

Lemma run_app tanhf cs1 cs2 e :
  run tanhf (cs1 ++ cs2) e
  = match run tanhf cs1 e with
    | Some e1 => run tanhf cs2 e1
    | None => None
    end.
Proof.
  revert e. induction cs1 as [|c cs1 IH]; intros e; cbn; [reflexivity|].
  destruct (step tanhf c e); [apply IH | reflexivity].
Qed.

(** C3 (amended).  In every callback the capture step and the mix step
    take the same [currentFrame], the value the clock held at entry; when
    both are done the clock holds the entry value plus [numFrames]
    reduced to the signed 64-bit range, which is the exact sum whenever
    that sum is at most 2^63 - 1.  Hence in any sequence of callbacks,
    each delivering at least one frame, in which the clock does not pass
    2^63 - 1, every callback strictly increases the clock by exactly the
    frame count it delivered. *)
Theorem C3_clock_advances_by_numFrames tanhf :
  (forall rd numFrames e,
     Forall track_ok (mTracks e) -> is_int64 (mCurrentFrame e) ->
     0 <= numFrames -> numFrames * kChannelCountOut <= INT32_MAX ->
     exists e' out,
       onAudioReady tanhf rd numFrames e = Some (e', out)
       /\ mix_path tanhf (mTracks e) (mCurrentFrame e) numFrames = Some out
       /\ e' = set_mCurrentFrame (int64_wrap (mCurrentFrame e + numFrames))
                 (capture (mCurrentFrame e) rd numFrames e)
       /\ mCurrentFrame e' = int64_wrap (mCurrentFrame e + numFrames)
       /\ (mCurrentFrame e + numFrames <= INT64_MAX ->
           mCurrentFrame e' = mCurrentFrame e + numFrames))
  /\ (forall cbs e,
        Forall track_ok (mTracks e) -> is_int64 (mCurrentFrame e) ->
        Forall (fun cb : Oboe.ReadEnv * Z =>
                  0 < snd cb /\ snd cb * kChannelCountOut <= INT32_MAX) cbs ->
        mCurrentFrame e + total_frames cbs <= INT64_MAX ->
        forall before cb after, cbs = before ++ cb :: after ->
          exists e1 e2,
            run tanhf (callbacks before) e = Some e1
            /\ step tanhf (AudioReady (fst cb) (snd cb)) e1 = Some e2
            /\ mCurrentFrame e2 = mCurrentFrame e1 + snd cb
            /\ mCurrentFrame e1 < mCurrentFrame e2).
Proof.
  split.
  - intros rd n e Hok Hcf Hn0 Hn2.
    destruct (onAudioReady_runs tanhf rd n e Hok Hcf Hn0 Hn2)
      as (summed & out & Hsum & Hclip & Hrun).
    eexists _, out. split; [exact Hrun|].
    split; [unfold mix_path; now rewrite Hsum|].
    split; [reflexivity|].
    destruct (capture_keeps (mCurrentFrame e) rd n e) as (_ & Ef & _).
    cbn. split; [reflexivity|].
    intros Hmax. apply int64_wrap_id.
    unfold is_int64, INT64_MIN, INT64_MAX in *. lia.
  - intros cbs e Hok Hcf Hall Hmax before [rd n] after ->.
    apply Forall_app in Hall as [Hbefore Hrest].
    inversion Hrest as [|? ? [Hpos Hfit] Hafter]; subst. cbn in Hpos, Hfit.
    rewrite total_frames_app in Hmax.
    cbn [total_frames snd] in Hmax.
    pose proof (total_frames_nonneg after Hafter) as Ha.
    pose proof (total_frames_nonneg before Hbefore) as Hb.
    destruct (callbacks_sum tanhf before e Hok Hcf Hbefore ltac:(lia))
      as (e1 & Hrun1 & Hc1 & Ht1).
    assert (Hcf1 : is_int64 (mCurrentFrame e1)).
    { rewrite Hc1. unfold is_int64, INT64_MIN, INT64_MAX in *. lia. }
    destruct (callbacks_sum tanhf [(rd, n)] e1) as (e2 & Hrun2 & Hc2 & _).
    + now rewrite Ht1.
    + exact Hcf1.
    + constructor; [split; assumption | constructor].
    + cbn. lia.
    + cbn [callbacks map run fst snd] in Hrun2.
      exists e1, e2. split; [exact Hrun1|]. cbn [fst snd].
      destruct (step tanhf (AudioReady rd n) e1) as [e2'|]; [|discriminate].
      cbn in Hc2. split; [congruence|]. split; lia.
Qed.

Lemma C3_witness :
  Forall track_ok (mTracks four_halves) /\ is_int64 (mCurrentFrame four_halves)
  /\ 0 <= 2 /\ 2 * kChannelCountOut <= INT32_MAX
  /\ exists e' out,
       onAudioReady sign_tanhf (Oboe.ReadAvailable []) 2 four_halves
       = Some (e', out)
       /\ mCurrentFrame e' = int64_wrap (mCurrentFrame four_halves + 2).
Proof.
  assert (H1 : Forall track_ok (mTracks four_halves)).
  { repeat constructor; vm_compute; congruence. }
  assert (H2 : is_int64 (mCurrentFrame four_halves))
    by (vm_compute; split; congruence).
  assert (H3 : 0 <= 2) by lia.
  assert (H4 : 2 * kChannelCountOut <= INT32_MAX) by (vm_compute; congruence).
  repeat (split; [assumption|]).
  destruct (proj1 (C3_clock_advances_by_numFrames sign_tanhf)
              (Oboe.ReadAvailable []) 2 four_halves H1 H2 H3 H4)
    as (e' & out & Hrun & _ & _ & Hclock & _).
  exists e', out. auto.
Defined.

(** C3 as stated fails at the top of the range: on a running engine,
    after a seek to 2^63 - 1, a callback of one frame leaves the clock at
    -2^63, which is neither the entry value plus one nor an increase. *)
Lemma C3_counterexample :
  let e := seekToFrame INT64_MAX (start devices_ok newEngine) in
  exists e' out,
    onAudioReady sign_tanhf (Oboe.ReadAvailable []) 1 e = Some (e', out)
    /\ mCurrentFrame e' = INT64_MIN
    /\ mCurrentFrame e' <> mCurrentFrame e + 1
    /\ ~ (mCurrentFrame e < mCurrentFrame e').
Proof.
  cbn zeta. eexists _, _. split; [vm_compute; reflexivity|].
  vm_compute. repeat split; congruence.
Qed.

(** A run of well-typed steps within contract leads from reachable
    states to reachable states. *)
Lemma run_reachable tanhf cs : forall e e',
  reachable tanhf e -> Forall well_typed cs -> Forall in_contract cs ->
  run tanhf cs e = Some e' -> reachable tanhf e'.
Proof.
  induction cs as [|c cs IH]; intros e e' He Hcs Hin Hrun; cbn in Hrun.
  - now inversion Hrun; subst.
  - inversion Hcs as [|? ? Hc Hrest]; subst.
    inversion Hin as [|? ? Hi Hirest]; subst.
    destruct (step tanhf c e) as [e1|] eqn:Hstep; [|discriminate].
    apply (IH e1 e'); [|assumption|assumption|assumption].
    eapply reachable_step; eassumption.
Qed.

(** ** Recording *)

Lemma sample_bytes_length (got : list Z) :
  length (concat (map int16_bytes got)) = (2 * length got)%nat.
Proof.
  induction got as [|x got IH]; [reflexivity|].
  cbn [map concat]. rewrite length_app, IH. cbn. lia.
Qed.

(** What a write on an open stream in good state leaves behind. *)
Lemma write_on_good_stream a f bytes :
  Ofstream.is_open f = true -> Ofstream.failed f = false ->
  match a with
  | Ofstream.Done _ =>
      Ofstream.written (Ofstream.write a f bytes) = Ofstream.written f ++ bytes
      /\ Ofstream.failed (Ofstream.write a f bytes) = false
  | Ofstream.Failed taken _ =>
      Ofstream.written (Ofstream.write a f bytes)
      = Ofstream.written f ++ take (Nat.min taken (length bytes - 1)) bytes
      /\ Ofstream.failed (Ofstream.write a f bytes) = true
  end.
Proof.
  intros Hopen Hgood. unfold Ofstream.write. rewrite Hgood, Hopen.
  destruct a; cbn; split; reflexivity.
Qed.

(** A write on a stream that is not in good state changes nothing. *)
Lemma write_on_failed_stream a f bytes :
  Ofstream.failed f = true -> Ofstream.write a f bytes = f.
Proof. intros Hf. unfold Ofstream.write. now rewrite Hf. Qed.

(** A callback whose read returned [n >= 1] samples while recording is
    enabled and the sink is open and in good state: at or past the
    threshold the counter grows by [n] (within the 64-bit range) whatever
    becomes of the write, and the bytes of the [n] samples are appended
    when the file system lets the write succeed; before the threshold the
    read still takes place and nothing else changes. *)
Lemma capture_on_good_sink cf rd numFrames e :
  mRecordStream e = Some Oboe.Started ->
  let got := Oboe.read_samples rd numFrames in
  let n := Oboe.read_value rd numFrames in
  let bytes := concat (map int16_bytes got) in
  1 <= n -> mIsRecording e = true ->
  Ofstream.is_open (mRecordingFile e) = true ->
  Ofstream.failed (mRecordingFile e) = false ->
  let e' := capture cf rd numFrames e in
  deviceLog e' = deviceLog e ++ [Oboe.CallRead numFrames n]
  /\ (mRecordStartFrame e <= cf ->
      mRecordedSampleCount e' = int64_wrap (mRecordedSampleCount e + n)
      /\ (mRecordedSampleCount e + n <= INT64_MAX ->
          is_int64 (mRecordedSampleCount e) ->
          mRecordedSampleCount e' = mRecordedSampleCount e + n)
      /\ match fst (Ofstream.next_answer (sinkAnswers e)) with
         | Ofstream.Done _ =>
             Ofstream.written (mRecordingFile e')
             = Ofstream.written (mRecordingFile e) ++ bytes
             /\ Ofstream.failed (mRecordingFile e') = false
         | Ofstream.Failed taken _ =>
             Ofstream.written (mRecordingFile e')
             = Ofstream.written (mRecordingFile e)
               ++ take (Nat.min taken (length bytes - 1)) bytes
             /\ Ofstream.failed (mRecordingFile e') = true
         end)
  /\ (cf < mRecordStartFrame e ->
      mRecordingFile e' = mRecordingFile e
      /\ mRecordedSampleCount e' = mRecordedSampleCount e).
Proof.
  intros Hs got n bytes Hn Hrec Hopen Hgood e'.
  unfold e'. rewrite (capture_started cf rd numFrames e Hs).
  fold got. change (Z.of_nat (length got)) with n.
  rewrite Hrec, Hopen.
  replace (n >? 0) with true by (symmetry; apply Z.gtb_lt; lia).
  cbn [andb].
  destruct (Z.geb_spec cf (mRecordStartFrame e)) as [Hge | Hlt].
  - pose proof (write_on_good_stream
                  (fst (Ofstream.next_answer (sinkAnswers e)))
                  (mRecordingFile e) bytes Hopen Hgood) as Hw.
    unfold recordingFile_write, Ofstream.consults.
    destruct e as [ps rs tr rec f sf cnt cur run log ans]; cbn in *.
    rewrite Hopen, Hgood. cbn.
    split; [reflexivity|]. split; [|lia]. intros _.
    split; [reflexivity|]. split; [|exact Hw].
    intros Hmax Hmin. apply int64_wrap_id.
    unfold is_int64, INT64_MIN, INT64_MAX in *. lia.
  - split; [destruct e; reflexivity|]. split; [lia|].
    intros _. destruct e; cbn. auto.
Qed.

(** The same callback when the stream of the open sink is not in good
    state: the write does nothing, the counter grows all the same. *)
Lemma capture_on_failed_sink cf rd numFrames e :
  mRecordStream e = Some Oboe.Started ->
  let n := Oboe.read_value rd numFrames in
  1 <= n -> mIsRecording e = true ->
  Ofstream.is_open (mRecordingFile e) = true ->
  Ofstream.failed (mRecordingFile e) = true ->
  mRecordStartFrame e <= cf ->
  mRecordingFile (capture cf rd numFrames e) = mRecordingFile e
  /\ mRecordedSampleCount (capture cf rd numFrames e)
     = int64_wrap (mRecordedSampleCount e + n).
Proof.
  intros Hs n Hn Hrec Hopen Hfailed Hge.
  rewrite (capture_started cf rd numFrames e Hs).
  change (Z.of_nat (length (Oboe.read_samples rd numFrames))) with n.
  rewrite Hrec, Hopen.
  replace (n >? 0) with true by (symmetry; apply Z.gtb_lt; lia).
  replace (cf >=? mRecordStartFrame e) with true
    by (symmetry; apply Z.geb_le; lia).
  cbn [andb]. unfold recordingFile_write, Ofstream.consults.
  destruct e as [ps rs tr rec f sf cnt cur run log ans]; cbn in *.
  split; [now apply write_on_failed_stream | reflexivity].
Qed.

(** Before the threshold nothing is persisted or counted, whatever state
    the sink is in. *)
Lemma capture_gated cf rd numFrames e :
  cf < mRecordStartFrame e ->
  mRecordingFile (capture cf rd numFrames e) = mRecordingFile e
  /\ mRecordedSampleCount (capture cf rd numFrames e) = mRecordedSampleCount e.
Proof.
  intros Hlt. unfold capture.
  destruct (mRecordStream e) as [st|]; [|auto].
  destruct (Oboe.state_eqb st Oboe.Started); [|auto].
  destruct e as [ps rs tr rec f sf cnt cur run log ans]; cbn in *.
  destruct (Z.geb_spec cur sf); [|]; destruct (Z.geb_spec cf sf); try lia;
    break_ifs; auto.
Qed.

(** The read never returns more than it was asked for. *)
Lemma read_value_le rd numFrames :
  0 <= numFrames -> Oboe.read_value rd numFrames <= numFrames.
Proof.
  intros Hn0. unfold Oboe.read_value, Oboe.read_samples.
  destruct rd as [samples|r]; cbn [length]; [|lia].
  rewrite length_take. lia.
Qed.

(** C4 (amended).  In every callback of a reachable engine where the
    non-blocking read returned [n >= 1] samples, recording is enabled,
    and the sink is open and its stream is in good state (no open or
    write on it has failed since it was opened): the read is issued to
    the device.  If [currentFrame >= recordStartFrame] the
    captured-sample counter grows by [n], the count the read returned (at
    most [numFrames]), in 64-bit arithmetic, whatever becomes of the
    write; the bytes of the [n] samples read are appended to the sink's
    stream, which stays in good state, when the file system lets the
    write succeed, and when it fails the write the stream takes fewer
    bytes than it was handed and leaves good state.  If [currentFrame <
    recordStartFrame] nothing is appended and the counter is unchanged.
    ([Ofstream.written] is what the stream accepted; the bytes reach the
    file when the stream flushes its buffer or is closed.) *)
Theorem C4_capture_appends_when_write_succeeds tanhf rd numFrames e :
  reachable tanhf e ->
  0 <= numFrames -> numFrames * kChannelCountOut <= INT32_MAX ->
  mRecordStream e = Some Oboe.Started ->
  1 <= Oboe.read_value rd numFrames ->
  mIsRecording e = true ->
  Ofstream.is_open (mRecordingFile e) = true ->
  Ofstream.failed (mRecordingFile e) = false ->
  let bytes := concat (map int16_bytes (Oboe.read_samples rd numFrames)) in
  exists e' out,
    onAudioReady tanhf rd numFrames e = Some (e', out)
    /\ Oboe.read_value rd numFrames <= numFrames
    /\ deviceLog e'
       = deviceLog e ++ [Oboe.CallRead numFrames (Oboe.read_value rd numFrames)]
    /\ (mRecordStartFrame e <= mCurrentFrame e ->
        mRecordedSampleCount e'
        = int64_wrap (mRecordedSampleCount e + Oboe.read_value rd numFrames)
        /\ (mRecordedSampleCount e + Oboe.read_value rd numFrames <= INT64_MAX ->
            mRecordedSampleCount e'
            = mRecordedSampleCount e + Oboe.read_value rd numFrames)
        /\ match fst (Ofstream.next_answer (sinkAnswers e)) with
           | Ofstream.Done _ =>
               Ofstream.written (mRecordingFile e')
               = Ofstream.written (mRecordingFile e) ++ bytes
               /\ Ofstream.failed (mRecordingFile e') = false
           | Ofstream.Failed taken _ =>
               Ofstream.written (mRecordingFile e')
               = Ofstream.written (mRecordingFile e)
                 ++ take (Nat.min taken (length bytes - 1)) bytes
               /\ Ofstream.written (mRecordingFile e')
                  <> Ofstream.written (mRecordingFile e) ++ bytes
               /\ Ofstream.failed (mRecordingFile e') = true
           end)
    /\ (mCurrentFrame e < mRecordStartFrame e ->
        mRecordingFile e' = mRecordingFile e
        /\ mRecordedSampleCount e' = mRecordedSampleCount e).
Proof.
  intros Hreach Hn0 Hn2 Hs Hn Hrec Hopen Hgood bytes.
  destruct (reachable_ok tanhf e Hreach) as (Hok & _ & Hcf & Hcount & _).
  destruct (onAudioReady_runs tanhf rd numFrames e Hok Hcf Hn0 Hn2)
    as (summed & out & _ & _ & Hrun).
  eexists _, out. split; [exact Hrun|].
  split; [now apply read_value_le|].
  destruct (capture_on_good_sink (mCurrentFrame e) rd numFrames e
              Hs Hn Hrec Hopen Hgood) as (Hlog & Hpast & Hbefore).
  cbn [deviceLog mRecordingFile mRecordedSampleCount set_mCurrentFrame].
  split; [exact Hlog|]. split.
  - intros Hge. destruct (Hpast Hge) as (Hc & Hexact & Hw).
    split; [exact Hc|]. split.
    { intros Hmax. apply Hexact; [exact Hmax | exact Hcount]. }
    fold bytes in Hw.
    destruct (fst (Ofstream.next_answer (sinkAnswers e))) as [k | taken k].
    + exact Hw.
    + destruct Hw as [Hw Hf]. split; [exact Hw|]. split; [|exact Hf].
      rewrite Hw. intros Heq. apply app_inv_head in Heq.
      apply (f_equal (@length Z)) in Heq. rewrite length_take in Heq.
      assert (Hlen : (length bytes = 2 * length (Oboe.read_samples rd numFrames))%nat)
        by apply sample_bytes_length.
      unfold Oboe.read_value in Hn. lia.
  - exact Hbefore.
Qed.

Lemma C4_witness :
  reachable sign_tanhf armed
  /\ 0 <= 4 /\ 4 * kChannelCountOut <= INT32_MAX
  /\ mRecordStream armed = Some Oboe.Started
  /\ 1 <= Oboe.read_value (Oboe.ReadAvailable [11; -12]) 4
  /\ mIsRecording armed = true
  /\ Ofstream.is_open (mRecordingFile armed) = true
  /\ Ofstream.failed (mRecordingFile armed) = false
  /\ mRecordStartFrame armed <= mCurrentFrame armed
  /\ exists e' out,
       onAudioReady sign_tanhf (Oboe.ReadAvailable [11; -12]) 4 armed
       = Some (e', out)
       /\ Ofstream.written (mRecordingFile e') = [11; 0; 244; 255]
       /\ mRecordedSampleCount e' = 2.
Proof.
  assert (H1 : reachable sign_tanhf armed).
  { apply (run_reachable sign_tanhf armed_at_5 newEngine).
    - apply reachable_new.
    - repeat constructor; vm_compute; congruence.
    - repeat constructor.
    - vm_compute. reflexivity. }
  assert (H2 : 0 <= 4) by lia.
  assert (H3 : 4 * kChannelCountOut <= INT32_MAX) by (vm_compute; congruence).
  assert (H4 : mRecordStream armed = Some Oboe.Started) by reflexivity.
  assert (H5 : 1 <= Oboe.read_value (Oboe.ReadAvailable [11; -12]) 4)
    by (vm_compute; congruence).
  assert (H6 : mIsRecording armed = true) by reflexivity.
  assert (H7 : Ofstream.is_open (mRecordingFile armed) = true) by reflexivity.
  assert (H8 : Ofstream.failed (mRecordingFile armed) = false) by reflexivity.
  assert (H9 : mRecordStartFrame armed <= mCurrentFrame armed)
    by (vm_compute; congruence).
  destruct (C4_capture_appends_when_write_succeeds sign_tanhf
              (Oboe.ReadAvailable [11; -12]) 4 armed H1 H2 H3 H4 H5 H6 H7 H8)
    as (e' & out & Hrun & _ & _ & Hpast & _).
  destruct (Hpast H9) as (Hc & _ & Hw).
  split; [exact H1|]. split; [exact H2|]. split; [exact H3|].
  split; [exact H4|]. split; [exact H5|]. split; [exact H6|].
  split; [exact H7|]. split; [exact H8|]. split; [exact H9|].
  exists e', out. split; [exact Hrun|].
  split; [exact (proj1 Hw) | exact Hc].
Defined.

(** C4 as stated fails when the file system fails the write.  The engine
    is at frame 5, armed to record from frame 5 into a file it has just
    opened, and running; the stream of the sink is in good state.  The
    device has no room left, so the next write will fail with nothing
    taken.  The callback reads two samples at a frame that is not before
    the threshold, with recording enabled and the sink open: nothing is
    appended to the sink, and the captured-sample counter is raised by
    2. *)
Lemma C4_counterexample :
  exists e e' out,
    run sign_tanhf armed_device_full newEngine = Some e
    /\ reachable sign_tanhf e
    /\ mRecordStream e = Some Oboe.Started
    /\ Oboe.read_value (Oboe.ReadAvailable [7; -3]) 2 = 2
    /\ mIsRecording e = true
    /\ Ofstream.is_open (mRecordingFile e) = true
    /\ Ofstream.failed (mRecordingFile e) = false
    /\ mRecordStartFrame e <= mCurrentFrame e
    /\ onAudioReady sign_tanhf (Oboe.ReadAvailable [7; -3]) 2 e = Some (e', out)
    /\ Ofstream.written (mRecordingFile e')
       <> Ofstream.written (mRecordingFile e)
          ++ concat (map int16_bytes
                       (Oboe.read_samples (Oboe.ReadAvailable [7; -3]) 2))
    /\ Ofstream.written (mRecordingFile e') = []
    /\ mRecordedSampleCount e' = mRecordedSampleCount e + 2.
Proof.
  eexists _, _, _. split; [vm_compute; reflexivity|].
  split.
  { apply (run_reachable sign_tanhf armed_device_full newEngine).
    - apply reachable_new.
    - repeat constructor; vm_compute; congruence.
    - repeat constructor.
    - vm_compute. reflexivity. }
  split; [reflexivity|]. split; [reflexivity|]. split; [reflexivity|].
  split; [reflexivity|]. split; [reflexivity|].
  split; [vm_compute; congruence|].
  split; [vm_compute; reflexivity|].
  split; [vm_compute; congruence|]. split; reflexivity.
Qed.

(** ** Lifecycle *)

Lemma step_keeps_position tanhf c e e' :
  keeps_position c = true -> step tanhf c e = Some e' ->
  mCurrentFrame e' = mCurrentFrame e.
Proof.
  intros Hc Hstep. destruct c; cbn in Hc, Hstep; try discriminate;
    try (inversion Hstep; subst e'; clear Hstep).
  - apply start_keeps.
  - apply stop_keeps.
  - apply loadTrack_Some in Hstep as [_ ->]. reflexivity.
  - reflexivity.
  - unfold startRecording. destruct e; cbn. break_ifs; reflexivity.
  - unfold stopRecording, recordingFile_close. destruct e; cbn.
    break_ifs; reflexivity.
  - unfold onErrorAfterClose. destruct result; reflexivity.
  - apply streamMoved_keeps.
  - reflexivity.
Qed.

Lemma run_keeps_position tanhf cs : forall e e',
  forallb keeps_position cs = true -> run tanhf cs e = Some e' ->
  mCurrentFrame e' = mCurrentFrame e.
Proof.
  induction cs as [|c cs IH]; intros e e' Hcs Hrun; cbn in Hcs, Hrun.
  - now inversion Hrun.
  - apply andb_true_iff in Hcs as [Hc Hcs].
    destruct (step tanhf c e) as [e1|] eqn:Hstep; [|discriminate].
    rewrite (IH e1 e' Hcs Hrun). eapply step_keeps_position; eassumption.
Qed.

Lemma stop_not_running e : mIsRunning (stop e) = false.
Proof.
  unfold stop, stopStreams. destruct e; cbn.
  destruct mIsRunning0, mPlayStream0, mRecordStream0; reflexivity.
Qed.

(** C5.  [stop()] leaves the frame clock as it is, in every engine
    state.  A [start()] that follows, with any commands other than a
    reset, a seek or a callback in between, finds the clock at the value
    it had at the stop, and the first callback then captures and mixes
    at that value, not at 0.  [stop()] on an engine that is not running
    changes nothing, so stopping twice is stopping once. *)
Theorem C5_stop_keeps_clock tanhf e :
  mCurrentFrame (stop e) = mCurrentFrame e
  /\ (forall dev, mCurrentFrame (start dev (stop e)) = mCurrentFrame e)
  /\ (forall dev rd n,
        onAudioReady tanhf rd n (start dev (stop e))
        = option_map
            (fun out =>
               (set_mCurrentFrame (int64_wrap (mCurrentFrame e + n))
                  (capture (mCurrentFrame e) rd n (start dev (stop e))), out))
            (mix_path tanhf (mTracks e) (mCurrentFrame e) n))
  /\ (forall cs dev e',
        forallb keeps_position cs = true ->
        run tanhf (cs ++ [Start dev]) (stop e) = Some e' ->
        mCurrentFrame e' = mCurrentFrame e)
  /\ (mIsRunning e = false -> stop e = e)
  /\ stop (stop e) = stop e.
Proof.
  destruct (stop_keeps e) as (Est & Esf & _).
  split; [exact Esf|]. split; [|split; [|split; [|split]]].
  - intros dev. destruct (start_keeps dev (stop e)) as (_ & -> & _). exact Esf.
  - intros dev rd n. rewrite onAudioReady_eq.
    destruct (start_keeps dev (stop e)) as (-> & -> & _).
    now rewrite Est, Esf.
  - intros cs dev e' Hcs Hrun. rewrite <- Esf.
    apply (run_keeps_position tanhf (cs ++ [Start dev])); [|exact Hrun].
    rewrite forallb_app, Hcs. reflexivity.
  - intros Hrun. unfold stop. now rewrite Hrun.
  - unfold stop at 1. now rewrite stop_not_running.
Qed.

Lemma C5_witness :
  let stopped := stop playing_at_4410 in
  let resumed := start devices_ok (stopRecording (clearTracks stopped)) in
  forallb keeps_position [ClearTracks; StopRecording] = true
  /\ run sign_tanhf ([ClearTracks; StopRecording] ++ [Start devices_ok]) stopped
     = Some resumed
  /\ mIsRunning stopped = false
  /\ mCurrentFrame resumed = mCurrentFrame playing_at_4410
  /\ mCurrentFrame playing_at_4410 = 4410
  /\ stop stopped = stopped.
Proof.
  intros stopped resumed.
  pose proof (C5_stop_keeps_clock sign_tanhf playing_at_4410)
    as (_ & _ & _ & Hrun & _ & _).
  pose proof (C5_stop_keeps_clock sign_tanhf stopped)
    as (_ & _ & _ & _ & Hidle & _).
  assert (H1 : forallb keeps_position [ClearTracks; StopRecording] = true)
    by reflexivity.
  assert (H2 : run sign_tanhf ([ClearTracks; StopRecording] ++ [Start devices_ok])
                 stopped = Some resumed) by reflexivity.
  assert (H3 : mIsRunning stopped = false) by reflexivity.
  split; [exact H1|]. split; [exact H2|]. split; [exact H3|].
  split; [exact (Hrun _ _ _ H1 H2)|]. split; [reflexivity|].
  exact (Hidle H3).
Defined.

(** C6.  [seekToFrame(frame)] stores [frame] in the frame clock, whatever
    the value, and changes no other member: the tracks, the
    recording-enabled flag, the record start-frame threshold, the
    captured-sample counter, the sink, the streams and the running flag
    stay as they were.  The next callback captures and mixes with
    [currentFrame = frame]; for every 64-bit [frame], negative or past
    every track, that callback is defined and sums the tracks at
    [frame]. *)
Theorem C6_seek_overwrites_clock_only tanhf frame e :
  getCurrentFrame (seekToFrame frame e) = frame
  /\ mTracks (seekToFrame frame e) = mTracks e
  /\ mIsRecording (seekToFrame frame e) = mIsRecording e
  /\ mRecordStartFrame (seekToFrame frame e) = mRecordStartFrame e
  /\ mRecordedSampleCount (seekToFrame frame e) = mRecordedSampleCount e
  /\ mRecordingFile (seekToFrame frame e) = mRecordingFile e
  /\ mPlayStream (seekToFrame frame e) = mPlayStream e
  /\ mRecordStream (seekToFrame frame e) = mRecordStream e
  /\ mIsRunning (seekToFrame frame e) = mIsRunning e
  /\ deviceLog (seekToFrame frame e) = deviceLog e
  /\ (forall rd n,
        onAudioReady tanhf rd n (seekToFrame frame e)
        = option_map
            (fun out =>
               (set_mCurrentFrame (int64_wrap (frame + n))
                  (capture frame rd n (seekToFrame frame e)), out))
            (mix_path tanhf (mTracks e) frame n))
  /\ (is_int64 frame -> Forall track_ok (mTracks e) ->
      forall rd n, 0 <= n -> n * kChannelCountOut <= INT32_MAX ->
        exists e' out summed,
          onAudioReady tanhf rd n (seekToFrame frame e) = Some (e', out)
          /\ mix_sum (mTracks e) frame n = Some summed
          /\ forall i, 0 <= i < n ->
               vec_at summed (2 * i)
               = Some (summed_sample (mTracks e) frame i f32_zero)
               /\ vec_at summed (2 * i + 1)
                  = Some (summed_sample (mTracks e) frame i f32_zero)).
Proof.
  repeat (split; [reflexivity|]). split.
  - intros rd n. now rewrite onAudioReady_eq.
  - intros Hframe Hok rd n Hn0 Hn2.
    destruct (onAudioReady_runs tanhf rd n (seekToFrame frame e))
      as (summed & out & Hsum & _ & Hrun); try assumption.
    cbn [seekToFrame set_mCurrentFrame mTracks mCurrentFrame] in Hsum.
    eexists _, out, summed. split; [exact Hrun|]. split; [exact Hsum|].
    destruct (mix_sum_spec (mTracks e) frame n)
      as (summed' & Hsum' & _ & Hslots); try assumption.
    assert (summed' = summed) as -> by congruence.
    intros i Hi. split.
    + pose proof (Hslots i 0 Hi ltac:(lia)) as H0.
      now rewrite Z.add_0_r in H0.
    + apply Hslots; [exact Hi | lia].
Qed.

Lemma C6_witness :
  is_int64 (-7) /\ Forall track_ok (mTracks with_clip)
  /\ 0 <= 3 /\ 3 * kChannelCountOut <= INT32_MAX
  /\ getCurrentFrame (seekToFrame (-7) with_clip) = -7
  /\ exists e' out summed,
       onAudioReady sign_tanhf (Oboe.ReadAvailable []) 3 (seekToFrame (-7) with_clip)
       = Some (e', out)
       /\ mix_sum (mTracks with_clip) (-7) 3 = Some summed.
Proof.
  assert (H1 : is_int64 (-7)) by (vm_compute; split; congruence).
  assert (H2 : Forall track_ok (mTracks with_clip)).
  { repeat constructor; vm_compute; congruence. }
  assert (H3 : 0 <= 3) by lia.
  assert (H4 : 3 * kChannelCountOut <= INT32_MAX) by (vm_compute; congruence).
  repeat (split; [assumption|]).
  pose proof (C6_seek_overwrites_clock_only sign_tanhf (-7) with_clip) as H.
  split; [exact (proj1 H)|].
  do 11 apply proj2 in H.
  destruct (H H1 H2 (Oboe.ReadAvailable []) 3 H3 H4)
    as (e' & out & summed & Hrun & Hsum & _).
  exists e', out, summed. auto.
Defined.

(** C7.  [reset()], in every engine state: clears the running flag,
    stops each stream the engine holds and then closes it and lets go of
    it, and sets the frame clock to 0.  The [start()] that follows finds
    the clock at 0, and the first callback then captures and mixes at
    frame 0. *)
Theorem C7_reset_closes_streams_and_zeroes_clock tanhf e :
  mCurrentFrame (reset e) = 0
  /\ mIsRunning (reset e) = false
  /\ mPlayStream (reset e) = None
  /\ mRecordStream (reset e) = None
  /\ deviceLog (reset e)
     = deviceLog e
       ++ calls_for (mPlayStream e) (Oboe.CallStop Oboe.Output)
       ++ calls_for (mRecordStream e) (Oboe.CallStop Oboe.Input)
       ++ calls_for (mPlayStream e) (Oboe.CallClose Oboe.Output)
       ++ calls_for (mRecordStream e) (Oboe.CallClose Oboe.Input)
  /\ (forall dev, mCurrentFrame (start dev (reset e)) = 0)
  /\ (forall dev rd n,
        onAudioReady tanhf rd n (start dev (reset e))
        = option_map
            (fun out =>
               (set_mCurrentFrame (int64_wrap (0 + n))
                  (capture 0 rd n (start dev (reset e))), out))
            (mix_path tanhf (mTracks e) 0 n)).
Proof.
  assert (Hclock : mCurrentFrame (reset e) = 0) by reflexivity.
  split; [exact Hclock|].
  split; [unfold reset, stopStreams, closeStreams; destruct e as [[] [] ]; reflexivity|].
  split; [unfold reset, stopStreams, closeStreams; destruct e as [[] [] ]; reflexivity|].
  split; [unfold reset, stopStreams, closeStreams; destruct e as [[] [] ]; reflexivity|].
  split.
  { unfold reset, stopStreams, closeStreams. destruct e as [[] [] ]; cbn;
      rewrite <- ?app_assoc; cbn; rewrite ?app_nil_r; reflexivity. }
  split.
  - intros dev. destruct (start_keeps dev (reset e)) as (_ & -> & _). exact Hclock.
  - intros dev rd n. rewrite onAudioReady_eq.
    destruct (start_keeps dev (reset e)) as (-> & -> & _).
    destruct (reset_keeps e) as (-> & _). now rewrite Hclock.
Qed.

(** A reset of a playing engine, as the device layer sees it. *)
Example reset_while_playing :
  deviceLog playing_at_4410
  = [Oboe.CallOpen Oboe.Output; Oboe.CallOpen Oboe.Input;
     Oboe.CallStart Oboe.Input; Oboe.CallStart Oboe.Output]
  /\ deviceLog (reset playing_at_4410)
     = deviceLog playing_at_4410
       ++ [Oboe.CallStop Oboe.Output; Oboe.CallStop Oboe.Input;
           Oboe.CallClose Oboe.Output; Oboe.CallClose Oboe.Input]
  /\ mCurrentFrame (reset playing_at_4410) = 0.
Proof. repeat split; reflexivity. Qed.

(** ** Recording control *)

(** While no sink is open, a [startRecording] that does not get the sink
    at [filePath] opened leaves recording disabled with no sink open and
    the counter at 0, and returns normally; the flag goes from false to
    true only when the sink at [filePath] was opened; and whenever the
    flag is true afterwards a sink is open. *)
Lemma startRecording_on_idle_engine tanhf fs filePath startFrame e :
  reachable tanhf e ->
  (Ofstream.rdbuf_open fs (mRecordingFile e) filePath = false ->
     mIsRecording (startRecording fs filePath startFrame e) = mIsRecording e
     /\ (mIsRecording e = false ->
         mIsRecording (startRecording fs filePath startFrame e) = false
         /\ Ofstream.is_open
              (mRecordingFile (startRecording fs filePath startFrame e)) = false)
     /\ getRecordedSampleCount (startRecording fs filePath startFrame e) = 0)
  /\ (mIsRecording e = false ->
      mIsRecording (startRecording fs filePath startFrame e) = true ->
      Ofstream.rdbuf_open fs (mRecordingFile e) filePath = true
      /\ mRecordingFile (startRecording fs filePath startFrame e)
         = Ofstream.mk true false filePath [])
  /\ (mIsRecording (startRecording fs filePath startFrame e) = true ->
      Ofstream.is_open
        (mRecordingFile (startRecording fs filePath startFrame e)) = true).
Proof.
  intros Hreach.
  destruct (reachable_ok tanhf e Hreach) as (_ & Hrec & _).
  unfold startRecording, getRecordedSampleCount, Ofstream.open,
    Ofstream.rdbuf_open.
  destruct e as [ps rs tr rec [o fl p w fd] sf cnt cur run log ans]; cbn in *.
  subst rec. destruct o; cbn.
  - repeat split; intros; try discriminate; auto.
  - destruct (fs filePath); cbn; repeat split; intros; try discriminate; auto.
Qed.

(** A second [startRecording] while a file is attached: the open of the
    new path is refused, the first file stays attached with [failbit]
    set, and the flag, already true, is stored as true again. *)
Example second_startRecording_refused :
  let e := startRecording every_path "a.pcm" 0 newEngine in
  Ofstream.rdbuf_open every_path (mRecordingFile e) "b.pcm" = false
  /\ mRecordingFile (startRecording every_path "b.pcm" 0 e)
     = Ofstream.mk true true "a.pcm" []
  /\ mIsRecording e = true
  /\ mIsRecording (startRecording every_path "b.pcm" 0 e) = true.
Proof. repeat split; reflexivity. Qed.

(** C8 does not hold of the code: [startRecording] tests [is_open()]
    after the call of [open], not whether that open succeeded.  While a
    session is in progress (recording enabled, so a sink is open, no
    [stopRecording] since), every [startRecording] fails to open the sink
    at [filePath], whatever the path and the file system, because a file
    is still attached to the stream; and it stores the enabled flag as
    true all the same, since [is_open()] still answers true for the
    earlier file.  The stream is left out of good state and attached to
    the earlier file, the counter is zeroed and the threshold replaced.
    The counter does not remain 0 either: every later callback whose
    read returns [n >= 1] samples at or past the new threshold writes
    nothing and raises the counter to [n]. *)
Theorem C8_refused_open_stores_enabled tanhf fs filePath startFrame e :
  reachable tanhf e ->
  mIsRecording e = true ->
  Ofstream.rdbuf_open fs (mRecordingFile e) filePath = false
  /\ mIsRecording (startRecording fs filePath startFrame e) = true
  /\ Ofstream.failed (mRecordingFile (startRecording fs filePath startFrame e))
     = true
  /\ Ofstream.path (mRecordingFile (startRecording fs filePath startFrame e))
     = Ofstream.path (mRecordingFile e)
  /\ Ofstream.written (mRecordingFile (startRecording fs filePath startFrame e))
     = Ofstream.written (mRecordingFile e)
  /\ getRecordedSampleCount (startRecording fs filePath startFrame e) = 0
  /\ getRecordingStartFrame (startRecording fs filePath startFrame e)
     = startFrame
  /\ forall rd numFrames,
       0 <= numFrames -> numFrames * kChannelCountOut <= INT32_MAX ->
       mRecordStream e = Some Oboe.Started ->
       1 <= Oboe.read_value rd numFrames ->
       startFrame <= mCurrentFrame e ->
       exists e' out,
         onAudioReady tanhf rd numFrames
           (startRecording fs filePath startFrame e) = Some (e', out)
         /\ mRecordingFile e'
            = mRecordingFile (startRecording fs filePath startFrame e)
         /\ getRecordedSampleCount e' = Oboe.read_value rd numFrames.
Proof.
  intros Hreach Hrec.
  pose proof (reachable_ok tanhf e Hreach) as Hok.
  destruct Hok as (Hok & Hflag & Hcf & _).
  rewrite Hrec in Hflag. symmetry in Hflag.
  set (e1 := startRecording fs filePath startFrame e).
  assert (Hfacts :
    mTracks e1 = mTracks e /\ mCurrentFrame e1 = mCurrentFrame e
    /\ mRecordStream e1 = mRecordStream e
    /\ mIsRecording e1 = true
    /\ Ofstream.is_open (mRecordingFile e1) = true
    /\ Ofstream.failed (mRecordingFile e1) = true
    /\ Ofstream.path (mRecordingFile e1) = Ofstream.path (mRecordingFile e)
    /\ Ofstream.written (mRecordingFile e1)
       = Ofstream.written (mRecordingFile e)
    /\ mRecordedSampleCount e1 = 0
    /\ mRecordStartFrame e1 = startFrame).
  { unfold e1, startRecording, Ofstream.open, Ofstream.rdbuf_open.
    destruct e as [ps rs tr rec [o fl p w fd] sf cnt cur run log ans];
      cbn in *.
    subst o rec. cbn. repeat split; reflexivity. }
  destruct Hfacts as (Et & Ecf & Ers & Eflag & Eopen & Efailed & Epath & Ew
                      & Ecount & Esf).
  split; [unfold Ofstream.rdbuf_open; now rewrite Hflag|].
  split; [exact Eflag|]. split; [exact Efailed|]. split; [exact Epath|].
  split; [exact Ew|]. split; [exact Ecount|]. split; [exact Esf|].
  intros rd numFrames Hn0 Hn2 Hs Hn Hge.
  assert (Hok1 : Forall track_ok (mTracks e1)) by (rewrite Et; exact Hok).
  assert (Hcf1 : is_int64 (mCurrentFrame e1)) by (rewrite Ecf; exact Hcf).
  destruct (onAudioReady_runs tanhf rd numFrames e1 Hok1 Hcf1 Hn0 Hn2)
    as (summed & out & _ & _ & Hrun).
  eexists _, out. split; [exact Hrun|].
  assert (Hs1 : mRecordStream e1 = Some Oboe.Started) by (rewrite Ers; exact Hs).
  assert (Hge1 : mRecordStartFrame e1 <= mCurrentFrame e1)
    by (rewrite Esf, Ecf; exact Hge).
  destruct (capture_on_failed_sink (mCurrentFrame e1) rd numFrames e1
              Hs1 Hn Eflag Eopen Efailed Hge1) as [Hfile Hcount].
  unfold getRecordedSampleCount.
  cbn [mRecordingFile mRecordedSampleCount set_mCurrentFrame].
  split; [exact Hfile|].
  rewrite Hcount, Ecount. apply int64_wrap_id.
  pose proof (read_value_le rd numFrames Hn0).
  unfold is_int64, INT64_MIN, INT64_MAX, INT32_MAX, kChannelCountOut in *. lia.
Qed.

Lemma C8_witness :
  reachable sign_tanhf armed
  /\ mIsRecording armed = true
  /\ 0 <= 2 /\ 2 * kChannelCountOut <= INT32_MAX
  /\ mRecordStream armed = Some Oboe.Started
  /\ 1 <= Oboe.read_value (Oboe.ReadAvailable [7; -3]) 2
  /\ 5 <= mCurrentFrame armed
  /\ Ofstream.rdbuf_open every_path (mRecordingFile armed) "b.pcm" = false
  /\ mIsRecording (startRecording every_path "b.pcm" 5 armed) = true
  /\ Ofstream.path (mRecordingFile (startRecording every_path "b.pcm" 5 armed))
     = "take1.pcm"%string
  /\ exists e' out,
       onAudioReady sign_tanhf (Oboe.ReadAvailable [7; -3]) 2
         (startRecording every_path "b.pcm" 5 armed) = Some (e', out)
       /\ Ofstream.written (mRecordingFile e') = []
       /\ getRecordedSampleCount e' = 2.
Proof.
  assert (H1 : reachable sign_tanhf armed).
  { apply (run_reachable sign_tanhf armed_at_5 newEngine).
    - apply reachable_new.
    - repeat constructor; vm_compute; congruence.
    - repeat constructor.
    - vm_compute. reflexivity. }
  assert (H2 : mIsRecording armed = true) by reflexivity.
  assert (H3 : 0 <= 2) by lia.
  assert (H4 : 2 * kChannelCountOut <= INT32_MAX) by (vm_compute; congruence).
  assert (H5 : mRecordStream armed = Some Oboe.Started) by reflexivity.
  assert (H6 : 1 <= Oboe.read_value (Oboe.ReadAvailable [7; -3]) 2)
    by (vm_compute; congruence).
  assert (H7 : 5 <= mCurrentFrame armed) by (vm_compute; congruence).
  destruct (C8_refused_open_stores_enabled sign_tanhf every_path "b.pcm" 5
              armed H1 H2)
    as (Hrefused & Hflag & _ & Hpath & Hw & _ & _ & Hlater).
  destruct (Hlater (Oboe.ReadAvailable [7; -3]) 2 H3 H4 H5 H6 H7)
    as (e' & out & Hrun & Hfile & Hcount).
  split; [exact H1|]. split; [exact H2|]. split; [exact H3|].
  split; [exact H4|]. split; [exact H5|]. split; [exact H6|].
  split; [exact H7|]. split; [exact Hrefused|]. split; [exact Hflag|].
  split; [exact Hpath|].
  exists e', out. split; [exact Hrun|]. split; [|exact Hcount].
  rewrite Hfile. exact Hw.
Defined.

(** A session on a healthy sink: two samples arrive at the threshold
    frame, their four bytes reach the file and the counter reads 2. *)
Example one_session_records :
  exists e,
    run sign_tanhf one_session newEngine = Some e
    /\ Ofstream.in_file (mRecordingFile e) = [11; 0; 244; 255]
    /\ Ofstream.is_open (mRecordingFile e) = false
    /\ mIsRecording e = false
    /\ getRecordingStartFrame e = 5
    /\ getRecordedSampleCount e = 2
    /\ getCurrentFrame e = 7.
Proof. eexists. split; [vm_compute; reflexivity|]. repeat split. Qed.

(** C10.  When [startRecording] does not get the sink opened, the record
    start-frame threshold is the new [startFrame] all the same and the
    captured-sample counter is 0: both were written before the open was
    attempted, so the getters no longer answer with the values of an
    earlier session. *)
Theorem C10_failed_startRecording_overwrites_session fs filePath startFrame e :
  Ofstream.rdbuf_open fs (mRecordingFile e) filePath = false ->
  getRecordingStartFrame (startRecording fs filePath startFrame e) = startFrame
  /\ getRecordedSampleCount (startRecording fs filePath startFrame e) = 0
  /\ (getRecordingStartFrame e <> startFrame \/ getRecordedSampleCount e <> 0 ->
      startRecording fs filePath startFrame e <> e).
Proof.
  intros Hfail.
  assert (Hsf : getRecordingStartFrame (startRecording fs filePath startFrame e)
                = startFrame).
  { unfold startRecording, getRecordingStartFrame. destruct e; cbn.
    break_ifs; reflexivity. }
  assert (Hcount : getRecordedSampleCount (startRecording fs filePath startFrame e)
                   = 0).
  { unfold startRecording, getRecordedSampleCount. destruct e; cbn.
    break_ifs; reflexivity. }
  split; [exact Hsf|]. split; [exact Hcount|].
  intros Hold Heq. rewrite Heq in Hsf, Hcount. tauto.
Qed.

Lemma C10_witness :
  exists e,
    run sign_tanhf one_session newEngine = Some e
    /\ getRecordingStartFrame e = 5
    /\ getRecordedSampleCount e = 2
    /\ Ofstream.rdbuf_open no_path (mRecordingFile e) "take2.pcm" = false
    /\ getRecordingStartFrame (startRecording no_path "take2.pcm" 9 e) = 9
    /\ getRecordedSampleCount (startRecording no_path "take2.pcm" 9 e) = 0
    /\ mIsRecording (startRecording no_path "take2.pcm" 9 e) = false.
Proof.
  eexists. split; [vm_compute; reflexivity|].
  split; [reflexivity|]. split; [reflexivity|].
  match goal with
  | |- Ofstream.rdbuf_open no_path (mRecordingFile ?e) _ = false /\ _ =>
      assert (H : Ofstream.rdbuf_open no_path (mRecordingFile e) "take2.pcm"
                  = false) by reflexivity;
      destruct (C10_failed_startRecording_overwrites_session
                  no_path "take2.pcm" 9 e H) as (H1 & H2 & _)
  end.
  split; [exact H|]. split; [exact H1|]. split; [exact H2|]. reflexivity.
Defined.

(** ** Loading *)

(** C9.  [loadTrack] appends a track whose samples are the 16-bit inputs
    each multiplied by [scalar = 1.0f / 32768.0f]: the float made from
    input [x] denotes exactly [x / 32768] for every 16-bit [x], with no
    rounding and no clamping.  The minimum -32768 becomes exactly -1.0
    and the maximum 32767 becomes 32767/32768, which is below +1.0. *)
Theorem C9_loadTrack_scales_by_32768 trackId (samples : list Z) placedAt e :
  Forall is_int16 samples ->
  exists track,
    loadTrack trackId samples (Z.of_nat (length samples)) placedAt e
    = Some (set_mTracks (mTracks e ++ [track]) e)
    /\ startFrame track = placedAt
    /\ lengthFrames track = Z.of_nat (length samples)
    /\ length (data track) = length samples
    /\ (forall i x, samples !! i = Some x ->
          data track !! i = Some (f32_mul (f32_of_int x) scalar)
          /\ exists q, f32_value (f32_mul (f32_of_int x) scalar) = Some q
                       /\ (q == x # 32768)%Q)
    /\ (exists q, f32_value scalar = Some q /\ (q == 1 # 32768)%Q)
    /\ int16_to_float INT16_MIN = f32_minus_one
    /\ (exists q, f32_value f32_minus_one = Some q /\ (q == -1)%Q)
    /\ (exists q, f32_value (int16_to_float INT16_MAX) = Some q
                  /\ (q == 32767 # 32768)%Q /\ (q < 1)%Q)
    /\ f32_ltb (int16_to_float INT16_MAX) f32_one = true.
Proof.
  intros Hsamples.
  eexists. split; [apply loadTrack_spec|]. cbn [data lengthFrames].
  split; [reflexivity|]. split; [reflexivity|].
  split; [apply length_map|]. split.
  - intros i x Hx. rewrite lookup_map, Hx. split; [reflexivity|].
    apply int16_to_float_exact.
    rewrite Forall_forall in Hsamples. apply Hsamples.
    eapply list_elem_of_lookup_2; eassumption.
  - split; [eexists; split; [reflexivity | vm_compute; reflexivity]|].
    split; [reflexivity|].
    split; [eexists; split; [reflexivity | vm_compute; reflexivity]|].
    split; [|reflexivity].
    eexists. split; [reflexivity|]. split; vm_compute; reflexivity.
Qed.

Lemma C9_witness :
  Forall is_int16 [INT16_MIN; -1; 0; 16384; INT16_MAX]
  /\ exists track,
       loadTrack "clip" [INT16_MIN; -1; 0; 16384; INT16_MAX] 5 100 newEngine
       = Some (set_mTracks [track] newEngine)
       /\ data track !! 0%nat = Some f32_minus_one
       /\ lengthFrames track = 5.
Proof.
  assert (H : Forall is_int16 [INT16_MIN; -1; 0; 16384; INT16_MAX]).
  { repeat constructor; vm_compute; congruence. }
  split; [exact H|].
  destruct (C9_loadTrack_scales_by_32768 "clip"
              [INT16_MIN; -1; 0; 16384; INT16_MAX] 100 newEngine H)
    as (track & Hload & _ & Hlen & _ & Hdata & _).
  exists track. split; [exact Hload|]. split; [|exact Hlen].
  exact (proj1 (Hdata 0%nat INT16_MIN eq_refl)).
Defined.

(* ================================================================== *)
(** * Further properties of the engine *)

(** ** Loading with an explicit count *)



(** ** What the mixer hands back *)

Lemma f32_same_eq a b : f32_same a b = true -> a = b.
Proof.
  destruct a as [s | s | | s m e], b as [t | t | | t n f]; cbn;
    try discriminate; try reflexivity.
  - intros H. apply Bool.eqb_prop in H. now subst.
  - intros H. apply Bool.eqb_prop in H. now subst.
  - intros H. apply andb_true_iff in H as [H He].
    apply andb_true_iff in H as [Hs Hm].
    apply Bool.eqb_prop in Hs. apply Pos.eqb_eq in Hm. apply Z.eqb_eq in He.
    now subst.
Qed.

Lemma passes_unchanged_all :
  forallb passes_unchanged (zrange INT16_MIN (Z.to_nat 65536)) = true.
Proof. vm_compute. reflexivity. Qed.

(** A converted 16-bit sample added to a cleared slot is itself, and the
    clip leaves it alone. *)
Lemma converted_sample_passes tanhf x :
  is_int16 x ->
  clipped tanhf (f32_add f32_zero (int16_to_float x)) = int16_to_float x.
Proof.
  intros Hx. pose proof passes_unchanged_all as Hall.
  rewrite forallb_forall in Hall.
  assert (Hin : In x (zrange INT16_MIN (Z.to_nat 65536))).
  { apply in_zrange. unfold is_int16, INT16_MIN, INT16_MAX in *. lia. }
  specialize (Hall x Hin). unfold passes_unchanged in Hall.
  apply andb_true_iff in Hall as [Hsame Hclip].
  apply f32_same_eq in Hsame. rewrite Hsame.
  rewrite <- clip_test_clipped.
  apply negb_true_iff in Hclip. now rewrite Hclip.
Qed.

Lemma clipped_zero tanhf : clipped tanhf f32_zero = f32_zero.
Proof. reflexivity. Qed.

(** X2.  With exactly one track in the store, loaded from 16-bit
    samples, the callback hands the track's own samples back unchanged:
    both slots of output frame [i] hold the sample at index
    [currentFrame - startFrame + i], and +0.0 where the track has no
    sample; nothing is rounded and nothing is clipped. *)
Theorem single_track_passes_unchanged tanhf rd numFrames e samples placedAt :
  mTracks e = [Build_Track (map int16_to_float samples) placedAt
                 (Z.of_nat (length samples))] ->
  Forall is_int16 samples -> Z.of_nat (length samples) <= INT32_MAX ->
  is_int32 placedAt -> is_int64 (mCurrentFrame e) ->
  0 <= numFrames -> numFrames * kChannelCountOut <= INT32_MAX ->
  exists e' out,
    onAudioReady tanhf rd numFrames e = Some (e', out)
    /\ forall i, 0 <= i < numFrames ->
         let sample :=
           match vec_at (map int16_to_float samples)
                   (mCurrentFrame e - placedAt + i) with
           | Some s => s
           | None => f32_zero
           end in
         vec_at out (2 * i) = Some sample
         /\ vec_at out (2 * i + 1) = Some sample.
Proof.
  intros Htracks Hsamples Hlen Hplaced Hcf Hn0 Hn2.
  set (track := Build_Track (map int16_to_float samples) placedAt
                  (Z.of_nat (length samples))) in *.
  assert (Hok : Forall track_ok (mTracks e)).
  { rewrite Htracks. constructor; [|constructor].
    unfold track_ok, track; cbn. rewrite length_map.
    repeat split; try apply Hplaced; unfold INT32_MIN; lia. }
  destruct (onAudioReady_runs tanhf rd numFrames e Hok Hcf Hn0 Hn2)
    as (summed & out & Hsum & Hclip & Hrun).
  destruct (mix_sum_spec (mTracks e) (mCurrentFrame e) numFrames Hok Hcf Hn0 Hn2)
    as (summed' & Hsum' & HLs & Hslots).
  assert (summed' = summed) as -> by congruence.
  destruct (soft_clip_spec tanhf numFrames summed Hn0 Hn2 HLs)
    as (out' & Hclip' & _ & Hout).
  assert (out' = out) as -> by congruence.
  eexists _, out. split; [exact Hrun|].
  intros i Hi.
  assert (Hslot : forall side, 0 <= side <= 1 ->
            vec_at out (2 * i + side)
            = Some (match vec_at (map int16_to_float samples)
                            (mCurrentFrame e - placedAt + i) with
                    | Some s => s
                    | None => f32_zero
                    end)).
  { intros side Hside.
    rewrite (Hout _ _ (Hslots i side Hi Hside)). f_equal.
    rewrite Htracks. cbn [summed_sample].
    unfold contribution, track; cbn [data startFrame lengthFrames].
    set (si := mCurrentFrame e - placedAt + i).
    unfold vec_at.
    destruct (Z.ltb_spec si 0) as [Hneg | Hpos].
    - destruct (Z.leb_spec 0 si); [lia|]. cbn. reflexivity.
    - destruct (Z.leb_spec 0 si); [|lia].
      destruct (Z.ltb_spec si (Z.of_nat (length samples))) as [Hin | Hpast]; cbn.
      + rewrite lookup_map.
        destruct (samples !! Z.to_nat si) as [x|] eqn:Hx; cbn.
        * apply converted_sample_passes.
          rewrite Forall_forall in Hsamples. apply Hsamples.
          eapply list_elem_of_lookup_2; eassumption.
        * reflexivity.
      + rewrite lookup_map.
        rewrite (proj2 (lookup_ge_None samples _)) by lia. reflexivity. }
  cbn zeta. split.
  - pose proof (Hslot 0 ltac:(lia)) as H0. now rewrite Z.add_0_r in H0.
  - apply Hslot. lia.
Qed.

Lemma single_track_passes_unchanged_witness :
  let e := seekToFrame 1 (set_mTracks [short_clip] newEngine) in
  mTracks e = [Build_Track (map int16_to_float short_clip_samples) 2
                 (Z.of_nat (length short_clip_samples))]
  /\ Forall is_int16 short_clip_samples
  /\ Z.of_nat (length short_clip_samples) <= INT32_MAX
  /\ is_int32 2 /\ is_int64 (mCurrentFrame e)
  /\ 0 <= 3 /\ 3 * kChannelCountOut <= INT32_MAX
  /\ exists e' out,
       onAudioReady sign_tanhf (Oboe.ReadAvailable []) 3 e = Some (e', out)
       /\ vec_at out (2 * 2) = Some (int16_to_float 7).
Proof.
  intros e.
  assert (H1 : mTracks e
               = [Build_Track (map int16_to_float short_clip_samples) 2
                    (Z.of_nat (length short_clip_samples))]) by reflexivity.
  assert (H2 : Forall is_int16 short_clip_samples).
  { repeat constructor; vm_compute; congruence. }
  assert (H3 : Z.of_nat (length short_clip_samples) <= INT32_MAX)
    by (vm_compute; congruence).
  assert (H4 : is_int32 2) by (vm_compute; split; congruence).
  assert (H5 : is_int64 (mCurrentFrame e)) by (vm_compute; split; congruence).
  assert (H6 : 0 <= 3) by lia.
  assert (H7 : 3 * kChannelCountOut <= INT32_MAX) by (vm_compute; congruence).
  destruct (single_track_passes_unchanged sign_tanhf (Oboe.ReadAvailable []) 3
              e short_clip_samples 2 H1 H2 H3 H4 H5 H6 H7)
    as (e' & out & Hrun & Hslots).
  split; [exact H1|]. split; [exact H2|]. split; [exact H3|].
  split; [exact H4|]. split; [exact H5|]. split; [exact H6|].
  split; [exact H7|].
  exists e', out. split; [exact Hrun|].
  exact (proj1 (Hslots 2 ltac:(lia))).
Defined.

(** X3.  In every callback the two channels carry the same signal: the
    buffer handed back has [2 * numFrames] slots, and the left and the
    right slot of each frame hold the same value, also after clipping. *)
Theorem callback_left_equals_right tanhf rd numFrames e :
  Forall track_ok (mTracks e) -> is_int64 (mCurrentFrame e) ->
  0 <= numFrames -> numFrames * kChannelCountOut <= INT32_MAX ->
  exists e' out,
    onAudioReady tanhf rd numFrames e = Some (e', out)
    /\ Z.of_nat (length out) = 2 * numFrames
    /\ forall i, 0 <= i < numFrames ->
         exists s, vec_at out (2 * i) = Some s
                   /\ vec_at out (2 * i + 1) = Some s.
Proof.
  intros Hok Hcf Hn0 Hn2.
  destruct (onAudioReady_runs tanhf rd numFrames e Hok Hcf Hn0 Hn2)
    as (summed & out & Hsum & Hclip & Hrun).
  destruct (mix_sum_spec (mTracks e) (mCurrentFrame e) numFrames Hok Hcf Hn0 Hn2)
    as (summed' & Hsum' & HLs & Hslots).
  assert (summed' = summed) as -> by congruence.
  destruct (soft_clip_spec tanhf numFrames summed Hn0 Hn2 HLs)
    as (out' & Hclip' & HL & Hout).
  assert (out' = out) as -> by congruence.
  eexists _, out. split; [exact Hrun|]. split.
  - rewrite HL, HLs. unfold kChannelCountOut. lia.
  - intros i Hi. eexists. split.
    + pose proof (Hout _ _ (Hslots i 0 Hi ltac:(lia))) as H0.
      rewrite Z.add_0_r in H0. exact H0.
    + exact (Hout _ _ (Hslots i 1 Hi ltac:(lia))).
Qed.

Lemma callback_left_equals_right_witness :
  Forall track_ok (mTracks four_halves) /\ is_int64 (mCurrentFrame four_halves)
  /\ 0 <= 2 /\ 2 * kChannelCountOut <= INT32_MAX
  /\ exists e' out,
       onAudioReady sign_tanhf (Oboe.ReadAvailable []) 2 four_halves
       = Some (e', out)
       /\ Z.of_nat (length out) = 2 * 2.
Proof.
  assert (H1 : Forall track_ok (mTracks four_halves)).
  { repeat constructor; vm_compute; congruence. }
  assert (H2 : is_int64 (mCurrentFrame four_halves))
    by (vm_compute; split; congruence).
  assert (H3 : 0 <= 2) by lia.
  assert (H4 : 2 * kChannelCountOut <= INT32_MAX) by (vm_compute; congruence).
  destruct (callback_left_equals_right sign_tanhf (Oboe.ReadAvailable []) 2
              four_halves H1 H2 H3 H4) as (e' & out & Hrun & HL & _).
  split; [exact H1|]. split; [exact H2|]. split; [exact H3|].
  split; [exact H4|]. exists e', out. auto.
Defined.

(** X4.  After [clearTracks] the callback hands back silence: a buffer
    of [2 * numFrames] slots that all hold +0.0, whatever the clock and
    whatever was loaded before. *)
Theorem cleared_store_is_silent tanhf rd numFrames e :
  0 <= numFrames -> numFrames * kChannelCountOut <= INT32_MAX ->
  mTracks (clearTracks e) = []
  /\ option_map snd (onAudioReady tanhf rd numFrames (clearTracks e))
     = Some (replicate (Z.to_nat (2 * numFrames)) f32_zero).
Proof.
  intros Hn0 Hn2. split; [reflexivity|].
  rewrite onAudioReady_output.
  unfold mix_path, mix_sum. cbn [clearTracks set_mTracks mTracks mix_tracks].
  rewrite int32_wrap_id
    by (unfold is_int32, INT32_MIN, INT32_MAX, kChannelCountOut in *; lia).
  set (cleared := replicate (Z.to_nat (numFrames * kChannelCountOut)) f32_zero).
  assert (HLc : Z.of_nat (length cleared) = numFrames * kChannelCountOut).
  { unfold cleared. rewrite length_replicate. unfold kChannelCountOut. lia. }
  destruct (soft_clip_spec tanhf numFrames cleared Hn0 Hn2 HLc)
    as (out & Hclip & HL & Hout).
  rewrite Hclip. f_equal.
  replace (2 * numFrames) with (numFrames * kChannelCountOut)
    by (unfold kChannelCountOut; lia).
  fold cleared. apply list_eq. intros k.
  destruct (cleared !! k) as [x|] eqn:Hx.
  - assert (Hz : x = f32_zero).
    { unfold cleared in Hx. apply lookup_replicate in Hx. tauto. }
    subst x.
    pose proof (Hout (Z.of_nat k) f32_zero) as Hk.
    unfold vec_at in Hk.
    destruct (Z.ltb_spec (Z.of_nat k) 0); [lia|].
    rewrite Nat2Z.id in Hk. rewrite (Hk Hx). reflexivity.
  - apply lookup_ge_None. apply lookup_ge_None in Hx. lia.
Qed.

Lemma cleared_store_is_silent_witness :
  0 <= 2 /\ 2 * kChannelCountOut <= INT32_MAX
  /\ option_map snd
       (onAudioReady sign_tanhf (Oboe.ReadAvailable []) 2 (clearTracks four_halves))
     = Some [f32_zero; f32_zero; f32_zero; f32_zero].
Proof.
  assert (H1 : 0 <= 2) by lia.
  assert (H2 : 2 * kChannelCountOut <= INT32_MAX) by (vm_compute; congruence).
  split; [exact H1|]. split; [exact H2|].
  exact (proj2 (cleared_store_is_silent sign_tanhf (Oboe.ReadAvailable []) 2
                  four_halves H1 H2)).
Defined.

(** ** What a callback leaves alone *)

Lemma state_eqb_eq a b : Oboe.state_eqb a b = true <-> a = b.
Proof. destruct a, b; cbn; split; intros H; congruence. Qed.

(** X5.  A callback never touches the track store, the streams, the
    running flag, the recording flag or the threshold.  It issues a read
    only when the record stream is started, and it leaves the sink and
    the captured-sample counter as they are unless recording is enabled,
    the sink is open and that read delivered at least one sample.  A
    callback of zero frames hands back an empty buffer and leaves the
    clock where it is. *)
Theorem callback_leaves_engine_alone tanhf rd numFrames e :
  Forall track_ok (mTracks e) -> is_int64 (mCurrentFrame e) ->
  0 <= numFrames -> numFrames * kChannelCountOut <= INT32_MAX ->
  exists e' out,
    onAudioReady tanhf rd numFrames e = Some (e', out)
    /\ mTracks e' = mTracks e
    /\ mPlayStream e' = mPlayStream e /\ mRecordStream e' = mRecordStream e
    /\ mIsRunning e' = mIsRunning e /\ mIsRecording e' = mIsRecording e
    /\ mRecordStartFrame e' = mRecordStartFrame e
    /\ (mRecordStream e <> Some Oboe.Started -> deviceLog e' = deviceLog e)
    /\ (mRecordStream e <> Some Oboe.Started
        \/ Oboe.read_value rd numFrames = 0
        \/ mIsRecording e = false
        \/ Ofstream.is_open (mRecordingFile e) = false ->
        mRecordingFile e' = mRecordingFile e
        /\ mRecordedSampleCount e' = mRecordedSampleCount e)
    /\ (numFrames = 0 -> out = [] /\ mCurrentFrame e' = mCurrentFrame e).
Proof.
  intros Hok Hcf Hn0 Hn2.
  destruct (onAudioReady_runs tanhf rd numFrames e Hok Hcf Hn0 Hn2)
    as (summed & out & Hsum & Hclip & Hrun).
  eexists _, out. split; [exact Hrun|].
  destruct (capture_keeps (mCurrentFrame e) rd numFrames e)
    as (Et & Ef & Er & Es & Erun & Eps & Ers).
  cbn [set_mCurrentFrame mTracks mPlayStream mRecordStream mIsRunning
       mIsRecording mRecordStartFrame deviceLog mRecordingFile
       mRecordedSampleCount mCurrentFrame].
  repeat (split; [assumption|]).
  split; [|split].
  - intros Hns. unfold capture.
    destruct (mRecordStream e) as [st|]; [|reflexivity].
    destruct (Oboe.state_eqb st Oboe.Started) eqn:Hst; [|reflexivity].
    apply state_eqb_eq in Hst. now subst.
  - intros Hcase. unfold capture.
    destruct (mRecordStream e) as [st|] eqn:Hrs; [|auto].
    destruct (Oboe.state_eqb st Oboe.Started) eqn:Hst; [|auto].
    apply state_eqb_eq in Hst. subst st.
    destruct e as [ps rs tr rec f sf cnt cur run log ans]; cbn in *.
    destruct Hcase as [Hns | [Hzero | [Hrec | Hopen]]].
    + congruence.
    + rewrite Hzero. cbn. auto.
    + subst rec. rewrite andb_false_r. cbn. auto.
    + rewrite Hopen, andb_false_r. auto.
  - intros ->. split.
    + destruct (mix_sum_spec (mTracks e) (mCurrentFrame e) 0 Hok Hcf
                  ltac:(lia) Hn2) as (summed' & Hsum' & HLs & _).
      assert (summed' = summed) as -> by congruence.
      destruct (soft_clip_spec tanhf 0 summed ltac:(lia) Hn2 HLs)
        as (out' & Hclip' & HL & _).
      assert (out' = out) as -> by congruence.
      destruct out; [reflexivity|]. cbn in HL, HLs. lia.
    + rewrite Z.add_0_r. now apply int64_wrap_id.
Qed.

Lemma callback_leaves_engine_alone_witness :
  Forall track_ok (mTracks armed) /\ is_int64 (mCurrentFrame armed)
  /\ 0 <= 2 /\ 2 * kChannelCountOut <= INT32_MAX
  /\ Oboe.read_value (Oboe.ReadError Oboe.ErrorInternal) 2 = 0
  /\ exists e' out,
       onAudioReady sign_tanhf (Oboe.ReadError Oboe.ErrorInternal) 2 armed
       = Some (e', out)
       /\ mRecordingFile e' = mRecordingFile armed
       /\ mRecordedSampleCount e' = mRecordedSampleCount armed.
Proof.
  assert (H1 : Forall track_ok (mTracks armed)) by constructor.
  assert (H2 : is_int64 (mCurrentFrame armed)) by (vm_compute; split; congruence).
  assert (H3 : 0 <= 2) by lia.
  assert (H4 : 2 * kChannelCountOut <= INT32_MAX) by (vm_compute; congruence).
  assert (H5 : Oboe.read_value (Oboe.ReadError Oboe.ErrorInternal) 2 = 0)
    by reflexivity.
  destruct (callback_leaves_engine_alone sign_tanhf
              (Oboe.ReadError Oboe.ErrorInternal) 2 armed H1 H2 H3 H4)
    as (e' & out & Hrun & _ & _ & _ & _ & _ & _ & _ & Hsink & _).
  split; [exact H1|]. split; [exact H2|]. split; [exact H3|].
  split; [exact H4|]. split; [exact H5|].
  exists e', out. split; [exact Hrun|].
  exact (Hsink (or_intror (or_introl H5))).
Defined.

(** ** Starting and stopping *)

Ltac log_suffix :=
  cbn [deviceLog]; rewrite <- ?app_assoc;
  rewrite ?drop_app_length, ?drop_all; cbn.

Lemma start_from_no_streams dev e :
  mIsRunning e = false -> mPlayStream e = None -> mRecordStream e = None ->
  deviceLog (start dev e) = deviceLog e ++ cold_start_calls dev
  /\ mIsRunning (start dev e)
     = Oboe.is_ok (Oboe.openPlay dev) && Oboe.is_ok (Oboe.startPlay dev)
  /\ mPlayStream (start dev e)
     = (if Oboe.is_ok (Oboe.openPlay dev)
        then Some (if Oboe.is_ok (Oboe.startPlay dev)
                   then Oboe.Started else Oboe.Open)
        else None)
  /\ mRecordStream (start dev e)
     = (if Oboe.is_ok (Oboe.openPlay dev) && Oboe.is_ok (Oboe.openRecord dev)
        then Some (if Oboe.is_ok (Oboe.startRecord dev)
                   then Oboe.Started else Oboe.Open)
        else None).
Proof.
  intros Hrun Hps Hrs.
  destruct e as [ps rs tr rec f sf cnt cur run log ans]; cbn in *. subst.
  unfold start, openStreams, cold_start_calls, Oboe.stream_start; cbn.
  destruct (Oboe.is_ok (Oboe.openPlay dev)); cbn;
    [destruct (Oboe.is_ok (Oboe.openRecord dev)); cbn;
     destruct (Oboe.is_ok (Oboe.startRecord dev)); cbn|];
    destruct (Oboe.is_ok (Oboe.startPlay dev)); cbn;
    rewrite <- ?app_assoc; cbn; repeat split; reflexivity.
Qed.

(** X6.  [start()] on an engine that holds no stream (new, or after
    [reset()]): the play stream is opened first; if that fails nothing
    else is tried and the engine stays stopped; if the record stream
    cannot be opened the engine carries on without it; the microphone is
    started before the speaker; and the engine is running afterwards
    exactly when the play stream both opened and started. *)
Theorem cold_start_outcome dev e :
  mIsRunning e = false -> mPlayStream e = None -> mRecordStream e = None ->
  deviceLog (start dev e) = deviceLog e ++ cold_start_calls dev
  /\ mIsRunning (start dev e)
     = Oboe.is_ok (Oboe.openPlay dev) && Oboe.is_ok (Oboe.startPlay dev)
  /\ mPlayStream (start dev e)
     = (if Oboe.is_ok (Oboe.openPlay dev)
        then Some (if Oboe.is_ok (Oboe.startPlay dev)
                   then Oboe.Started else Oboe.Open)
        else None)
  /\ mRecordStream (start dev e)
     = (if Oboe.is_ok (Oboe.openPlay dev) && Oboe.is_ok (Oboe.openRecord dev)
        then Some (if Oboe.is_ok (Oboe.startRecord dev)
                   then Oboe.Started else Oboe.Open)
        else None).
Proof. apply start_from_no_streams. Qed.

Lemma cold_start_outcome_witness :
  mIsRunning newEngine = false /\ mPlayStream newEngine = None
  /\ mRecordStream newEngine = None
  /\ deviceLog (start no_microphone newEngine)
     = [Oboe.CallOpen Oboe.Output; Oboe.CallOpen Oboe.Input;
        Oboe.CallStart Oboe.Output]
  /\ mIsRunning (start no_microphone newEngine) = true
  /\ mRecordStream (start no_microphone newEngine) = None.
Proof.
  destruct (cold_start_outcome no_microphone newEngine eq_refl eq_refl eq_refl)
    as (Hlog & Hrun & _ & Hrs).
  split; [reflexivity|]. split; [reflexivity|]. split; [reflexivity|].
  split; [exact Hlog|]. split; [exact Hrun | exact Hrs].
Defined.

(** X7.  [start()] on a running engine does nothing.  On a stopped
    engine it opens streams exactly when the play stream is absent or
    closed, and then the first call it issues opens the play stream; a
    play stream in any other state is never reopened.  [start()] never
    closes a stream. *)
Theorem start_opens_only_when_needed dev e :
  (mIsRunning e = true -> start dev e = e)
  /\ (mIsRunning e = false ->
      deviceLog (start dev e) = deviceLog e ++ new_calls e (start dev e)
      /\ forallb (fun c => negb (is_close_call c)) (new_calls e (start dev e))
         = true
      /\ (needs_open (mPlayStream e) = true ->
          head (new_calls e (start dev e)) = Some (Oboe.CallOpen Oboe.Output))
      /\ (needs_open (mPlayStream e) = false ->
          forallb (fun c => negb (is_open_call c)) (new_calls e (start dev e))
          = true)).
Proof.
  split.
  - intros Hrun. unfold start. now rewrite Hrun.
  - intros Hrun.
    destruct e as [ps rs tr rec f sf cnt cur run log ans]; cbn in Hrun. subst run.
    unfold start, openStreams, new_calls, Oboe.stream_start.
    cbn [mIsRunning mPlayStream mRecordStream].
    destruct (needs_open ps) eqn:Hneed; cbn.
    + destruct (Oboe.is_ok (Oboe.openPlay dev)); cbn;
        [destruct (Oboe.is_ok (Oboe.openRecord dev)); cbn;
         destruct (Oboe.is_ok (Oboe.startRecord dev)); cbn|
         destruct rs as [rs|]; cbn; [destruct (startable rs); cbn|]];
        try destruct (Oboe.is_ok (Oboe.startPlay dev)); cbn;
        log_suffix; repeat split; try reflexivity; discriminate.
    + destruct ps as [ps|]; [|discriminate]. cbn.
      destruct rs as [rs|]; cbn; [destruct (startable rs); cbn|];
        (destruct (startable ps); cbn;
         [destruct (Oboe.is_ok (Oboe.startPlay dev)); cbn|]);
        log_suffix; rewrite ?app_nil_r; repeat split; try reflexivity;
        discriminate.
Qed.

Lemma start_opens_only_when_needed_witness :
  mIsRunning playing_at_4410 = true
  /\ start devices_ok playing_at_4410 = playing_at_4410
  /\ mIsRunning (stop playing_at_4410) = false
  /\ needs_open (mPlayStream (stop playing_at_4410)) = false
  /\ forallb (fun c => negb (is_open_call c))
       (new_calls (stop playing_at_4410) (start devices_ok (stop playing_at_4410)))
     = true.
Proof.
  destruct (start_opens_only_when_needed devices_ok playing_at_4410)
    as [Hidle _].
  destruct (start_opens_only_when_needed devices_ok (stop playing_at_4410))
    as [_ Hwarm].
  assert (H1 : mIsRunning playing_at_4410 = true) by reflexivity.
  assert (H2 : mIsRunning (stop playing_at_4410) = false) by reflexivity.
  assert (H3 : needs_open (mPlayStream (stop playing_at_4410)) = false)
    by reflexivity.
  destruct (Hwarm H2) as (_ & _ & _ & Hlive).
  split; [exact H1|]. split; [exact (Hidle H1)|]. split; [exact H2|].
  split; [exact H3 | exact (Hlive H3)].
Defined.

(** X8.  Whenever [start()] starts the speaker, that is the last call it
    issues to the device: every open and the start of the microphone
    come before it.  The running flag is set only by a [start()] that
    issued the speaker start. *)
Theorem speaker_is_started_last dev e :
  mIsRunning e = false ->
  forallb (fun c => negb (is_speaker_start c))
    (removelast (new_calls e (start dev e))) = true
  /\ (mIsRunning (start dev e) = true ->
      last (new_calls e (start dev e)) = Some (Oboe.CallStart Oboe.Output)
      /\ Oboe.is_ok (Oboe.startPlay dev) = true).
Proof.
  intros Hrun.
  destruct e as [ps rs tr rec f sf cnt cur run log ans]; cbn in Hrun. subst run.
  unfold start, openStreams, new_calls, Oboe.stream_start.
  cbn [mIsRunning mPlayStream mRecordStream].
  destruct (needs_open ps) eqn:Hneed; cbn.
  - destruct (Oboe.is_ok (Oboe.openPlay dev)); cbn;
      [destruct (Oboe.is_ok (Oboe.openRecord dev)); cbn;
       destruct (Oboe.is_ok (Oboe.startRecord dev)); cbn|
       destruct rs as [rs|]; cbn; [destruct (startable rs); cbn|]];
      try destruct (Oboe.is_ok (Oboe.startPlay dev)); cbn;
      log_suffix; repeat split; try reflexivity; discriminate.
  - destruct ps as [ps|]; [|discriminate]. cbn.
    destruct rs as [rs|]; cbn; [destruct (startable rs); cbn|];
      (destruct (startable ps); cbn;
       [destruct (Oboe.is_ok (Oboe.startPlay dev)); cbn|]);
      log_suffix; rewrite ?app_nil_r; repeat split; try reflexivity;
      discriminate.
Qed.

Lemma speaker_is_started_last_witness :
  mIsRunning newEngine = false
  /\ mIsRunning (start devices_ok newEngine) = true
  /\ new_calls newEngine (start devices_ok newEngine)
     = [Oboe.CallOpen Oboe.Output; Oboe.CallOpen Oboe.Input;
        Oboe.CallStart Oboe.Input; Oboe.CallStart Oboe.Output]
  /\ last (new_calls newEngine (start devices_ok newEngine))
     = Some (Oboe.CallStart Oboe.Output).
Proof.
  assert (H1 : mIsRunning newEngine = false) by reflexivity.
  assert (H2 : mIsRunning (start devices_ok newEngine) = true) by reflexivity.
  destruct (speaker_is_started_last devices_ok newEngine H1) as [_ Hlast].
  split; [exact H1|]. split; [exact H2|]. split; [reflexivity|].
  exact (proj1 (Hlast H2)).
Defined.

Lemma start_running_started dev e :
  running_started e -> running_started (start dev e).
Proof.
  unfold running_started. intros Hinv.
  destruct e as [ps rs tr rec f sf cnt cur run log ans]; cbn in Hinv.
  unfold start, openStreams, Oboe.stream_start.
  cbn [mIsRunning mPlayStream mRecordStream].
  destruct run; [exact Hinv|].
  destruct (needs_open ps) eqn:Hneed; cbn.
  - destruct (Oboe.is_ok (Oboe.openPlay dev)); cbn;
      [destruct (Oboe.is_ok (Oboe.openRecord dev)); cbn;
       destruct (Oboe.is_ok (Oboe.startRecord dev)); cbn|
       destruct rs as [rs|]; cbn; [destruct (startable rs); cbn|]];
      try destruct (Oboe.is_ok (Oboe.startPlay dev)); cbn;
      intros; try reflexivity; discriminate.
  - destruct ps as [ps|]; [|discriminate]. cbn.
    destruct rs as [rs|]; cbn; [destruct (startable rs); cbn|];
      (destruct (startable ps); cbn;
       [destruct (Oboe.is_ok (Oboe.startPlay dev)); cbn|]);
      intros; try reflexivity; discriminate.
Qed.

Lemma step_running_started tanhf c e e' :
  is_stream_event c = false ->
  running_started e -> step tanhf c e = Some e' -> running_started e'.
Proof.
  intros Hc Hinv Hstep. destruct c; cbn in Hstep, Hc; try discriminate;
    try (inversion Hstep; subst e'; clear Hstep).
  - now apply start_running_started.
  - unfold running_started. rewrite stop_not_running. discriminate.
  - unfold running_started, reset, stopStreams, closeStreams.
    destruct e as [[] []]; cbn; discriminate.
  - apply loadTrack_Some in Hstep as [_ ->]. exact Hinv.
  - exact Hinv.
  - unfold running_started, startRecording in *. destruct e; cbn in *.
    break_ifs; exact Hinv.
  - unfold running_started, stopRecording, recordingFile_close in *.
    destruct e; cbn in *. break_ifs; exact Hinv.
  - exact Hinv.
  - rewrite onAudioReady_eq in Hstep.
    destruct (mix_path tanhf (mTracks e) (mCurrentFrame e) numFrames);
      [|discriminate].
    cbn in Hstep. inversion Hstep; subst e'.
    destruct (capture_keeps (mCurrentFrame e) rd numFrames e)
      as (_ & _ & _ & _ & Erun & Eps & _).
    unfold running_started. cbn. now rewrite Erun, Eps.
  - unfold running_started, onErrorAfterClose in *.
    destruct result; try exact Hinv. cbn. discriminate.
  - exact Hinv.
Qed.

Lemma run_running_started tanhf cs : forall e e',
  forallb (fun c => negb (is_stream_event c)) cs = true ->
  running_started e -> run tanhf cs e = Some e' -> running_started e'.
Proof.
  induction cs as [|c cs IH]; intros e e' Hcs Hinv Hrun; cbn in Hcs, Hrun.
  - now inversion Hrun; subst.
  - apply andb_true_iff in Hcs as [Hc Hcs].
    destruct (step tanhf c e) as [e1|] eqn:Hstep; [|discriminate].
    apply (IH e1 e' Hcs); [|exact Hrun].
    apply (step_running_started tanhf c e e1); [|exact Hinv|exact Hstep].
    now destruct (is_stream_event c).
Qed.

(** X9.  In every state the engine gets to through its own member
    functions and callbacks (any of them, with any arguments and any
    answers of the device and the file system, as long as the device
    layer does not move a stream to another state on its own), the
    running flag is set only while the engine holds a play stream whose
    last start succeeded and which it has not stopped or closed since. *)
Theorem running_means_play_stream_started tanhf cs e :
  forallb (fun c => negb (is_stream_event c)) cs = true ->
  run tanhf cs newEngine = Some e ->
  mIsRunning e = true ->
  mPlayStream e = Some Oboe.Started.
Proof.
  intros Hcs Hrun.
  apply (run_running_started tanhf cs newEngine e Hcs); [|exact Hrun].
  unfold running_started. cbn. discriminate.
Qed.

Lemma running_means_play_stream_started_witness :
  forallb (fun c => negb (is_stream_event c)) armed_at_5 = true
  /\ run sign_tanhf armed_at_5 newEngine = Some armed
  /\ mIsRunning armed = true
  /\ mPlayStream armed = Some Oboe.Started.
Proof.
  assert (H1 : forallb (fun c => negb (is_stream_event c)) armed_at_5 = true)
    by reflexivity.
  assert (H2 : run sign_tanhf armed_at_5 newEngine = Some armed)
    by (vm_compute; reflexivity).
  assert (H3 : mIsRunning armed = true) by reflexivity.
  split; [exact H1|]. split; [exact H2|]. split; [exact H3|].
  exact (running_means_play_stream_started sign_tanhf armed_at_5 armed H1 H2 H3).
Defined.

(** Once the device layer has closed the play stream on its own, as it
    does before it reports an error other than a disconnect, the flag is
    still set and the stream is not started. *)
Example running_with_closed_stream :
  exists e,
    run sign_tanhf
      (armed_at_5 ++ [StreamMoved Oboe.Output Oboe.Closed;
                      ErrorAfterClose Oboe.ErrorInternal]) newEngine = Some e
    /\ mIsRunning e = true
    /\ mPlayStream e = Some Oboe.Closed.
Proof. eexists. split; [vm_compute; reflexivity|]. split; reflexivity. Qed.



Lemma reset_at_rest r :
  mIsRunning r = false -> mPlayStream r = None -> mRecordStream r = None ->
  mCurrentFrame r = 0 -> reset r = r.
Proof.
  intros Hrun Hps Hrs Hclock.
  destruct r as [ps rs tr rec f sf cnt cur run log ans]; cbn in *. subst.
  reflexivity.
Qed.

(** X11.  [reset()] twice is [reset()] once, and the [start()] after a
    reset always builds the streams anew: it issues the calls of a cold
    start, beginning with the opening of the play stream, and the engine
    runs exactly when the play stream opened and started. *)
Theorem reset_is_idempotent_and_start_reopens dev e :
  reset (reset e) = reset e
  /\ deviceLog (start dev (reset e))
     = deviceLog (reset e) ++ cold_start_calls dev
  /\ head (cold_start_calls dev) = Some (Oboe.CallOpen Oboe.Output)
  /\ mIsRunning (start dev (reset e))
     = Oboe.is_ok (Oboe.openPlay dev) && Oboe.is_ok (Oboe.startPlay dev).
Proof.
  assert (Hrun : mIsRunning (reset e) = false)
    by (unfold reset, stopStreams, closeStreams; destruct e as [[] []];
        reflexivity).
  assert (Hps : mPlayStream (reset e) = None)
    by (unfold reset, stopStreams, closeStreams; destruct e as [[] []];
        reflexivity).
  assert (Hrs : mRecordStream (reset e) = None)
    by (unfold reset, stopStreams, closeStreams; destruct e as [[] []];
        reflexivity).
  destruct (start_from_no_streams dev (reset e) Hrun Hps Hrs)
    as (Hlog & Hrunning & _).
  split; [|split; [exact Hlog | split; [reflexivity | exact Hrunning]]].
  apply reset_at_rest; [exact Hrun | exact Hps | exact Hrs | reflexivity].
Qed.

(** X12.  [onErrorAfterClose] changes nothing for an error other than a
    disconnect.  On a disconnect it clears the running flag and nothing
    else: it issues no call to the device and keeps both stream handles,
    so a [stop()] that follows is a no-op which stops neither stream,
    while a [start()] that follows is not refused as already running. *)
Theorem disconnect_only_clears_running_flag dev result e :
  (result <> Oboe.ErrorDisconnected -> onErrorAfterClose result e = e)
  /\ onErrorAfterClose Oboe.ErrorDisconnected e = set_mIsRunning false e
  /\ stop (onErrorAfterClose Oboe.ErrorDisconnected e)
     = onErrorAfterClose Oboe.ErrorDisconnected e
  /\ deviceLog (stop (onErrorAfterClose Oboe.ErrorDisconnected e)) = deviceLog e
  /\ mRecordStream (stop (onErrorAfterClose Oboe.ErrorDisconnected e))
     = mRecordStream e
  /\ (mPlayStream e = Some Oboe.Closed ->
      head (new_calls e (start dev (onErrorAfterClose Oboe.ErrorDisconnected e)))
      = Some (Oboe.CallOpen Oboe.Output)).
Proof.
  split; [|split; [|split; [|split; [|split]]]]; try reflexivity.
  - intros Hne. destruct result; try reflexivity. congruence.
  - intros Hps.
    destruct e as [ps rs tr rec f sf cnt cur run log ans]; cbn in Hps. subst ps.
    unfold start, openStreams, new_calls, onErrorAfterClose, Oboe.stream_start.
    cbn.
    destruct (Oboe.is_ok (Oboe.openPlay dev)); cbn;
      [destruct (Oboe.is_ok (Oboe.openRecord dev)); cbn;
       destruct (Oboe.is_ok (Oboe.startRecord dev)); cbn|
       destruct rs as [rs|]; cbn; [destruct (startable rs); cbn|]];
      try destruct (Oboe.is_ok (Oboe.startPlay dev)); cbn;
      log_suffix; reflexivity.
Qed.

Lemma disconnect_only_clears_running_flag_witness :
  Oboe.ErrorInternal <> Oboe.ErrorDisconnected
  /\ onErrorAfterClose Oboe.ErrorInternal armed = armed
  /\ mIsRunning (onErrorAfterClose Oboe.ErrorDisconnected armed) = false
  /\ mRecordStream (stop (onErrorAfterClose Oboe.ErrorDisconnected armed))
     = Some Oboe.Started.
Proof.
  assert (H1 : Oboe.ErrorInternal <> Oboe.ErrorDisconnected) by discriminate.
  destruct (disconnect_only_clears_running_flag devices_ok Oboe.ErrorInternal
              armed) as (Hother & _ & _ & _ & Hrs & _).
  split; [exact H1|]. split; [exact (Hother H1)|]. split; [reflexivity|].
  rewrite Hrs. reflexivity.
Defined.

(** ** Recording sessions *)

Lemma int64_wrap_add_l a b : int64_wrap (int64_wrap a + b) = int64_wrap (a + b).
Proof.
  unfold int64_wrap. f_equal.
  replace ((a + 2 ^ 63) mod 2 ^ 64 - 2 ^ 63 + b + 2 ^ 63)
    with ((a + 2 ^ 63) mod 2 ^ 64 + b) by lia.
  replace (a + b + 2 ^ 63) with ((a + 2 ^ 63) + b) by lia.
  rewrite Zplus_mod_idemp_l. reflexivity.
Qed.

Lemma capture_not_started cf rd n e :
  mRecordStream e <> Some Oboe.Started -> capture cf rd n e = e.
Proof.
  intros Hns. unfold capture.
  destruct (mRecordStream e) as [st|]; [|reflexivity].
  destruct (Oboe.state_eqb st Oboe.Started) eqn:Hst; [|reflexivity].
  apply state_eqb_eq in Hst. now subst.
Qed.

Lemma capture_sink_matches cf rd n e :
  sink_matches_counter e -> sink_matches_counter (capture cf rd n e).
Proof.
  intros Hinv.
  destruct (mRecordStream e) as [st|] eqn:Hrs.
  2:{ rewrite capture_not_started; [exact Hinv | congruence]. }
  destruct (Oboe.state_eqb st Oboe.Started) eqn:Hst.
  2:{ rewrite capture_not_started; [exact Hinv|].
      intros Heq. rewrite Hrs in Heq. inversion Heq; subst.
      cbn in Hst. discriminate. }
  apply state_eqb_eq in Hst. subst st.
  rewrite (capture_started cf rd n e Hrs).
  set (got := Oboe.read_samples rd n).
  destruct ((Z.of_nat (length got) >? 0) && mIsRecording e
            && Ofstream.is_open (mRecordingFile e)
            && (cf >=? mRecordStartFrame e)) eqn:Hcond.
  - apply andb_true_iff in Hcond as [Hcond _].
    apply andb_true_iff in Hcond as [_ Hopen].
    unfold sink_matches_counter, recordingFile_write, Ofstream.consults in *.
    destruct e as [ps rs tr rec [o fl p w fd] sf cnt cur run log ans]; cbn in *.
    subst o. unfold Ofstream.write; cbn.
    destruct fl; cbn; [discriminate|].
    destruct (Ofstream.next_answer ans) as [[k | taken k] rest]; cbn;
      [|discriminate].
    intros _. destruct (Hinv eq_refl) as [Hcnt Heven].
    rewrite length_app, sample_bytes_length.
    replace (Z.of_nat (length w + 2 * length got))
      with (Z.of_nat (length w) + Z.of_nat (length got) * 2) by lia.
    rewrite Z.div_add by lia. rewrite Z_mod_plus_full.
    split; [|exact Heven].
    rewrite Hcnt. apply int64_wrap_add_l.
  - unfold sink_matches_counter in *. destruct e; exact Hinv.
Qed.

Lemma step_sink_matches tanhf c e e' :
  sink_matches_counter e -> step tanhf c e = Some e' ->
  sink_matches_counter e'.
Proof.
  intros Hinv Hstep. unfold sink_matches_counter in *.
  destruct c; cbn in Hstep; try (inversion Hstep; subst e'; clear Hstep).
  - destruct (start_keeps dev e) as (_ & _ & _ & -> & _ & ->). exact Hinv.
  - destruct (stop_keeps e) as (_ & _ & _ & -> & _ & ->). exact Hinv.
  - destruct (reset_keeps e) as (_ & _ & -> & _ & ->). exact Hinv.
  - apply loadTrack_Some in Hstep as [_ ->]. exact Hinv.
  - exact Hinv.
  - unfold startRecording, Ofstream.open, Ofstream.rdbuf_open.
    destruct e as [ps rs tr rec [o fl p w fd] sf cnt cur run log ans]; cbn in *.
    destruct o; cbn; [discriminate|].
    destruct (fs filePath); cbn; [|discriminate].
    intros _. split; reflexivity.
  - unfold stopRecording, recordingFile_close, Ofstream.close.
    destruct e as [ps rs tr rec [o fl p w fd] sf cnt cur run log ans]; cbn in *.
    destruct o; cbn; [|exact Hinv].
    destruct (Ofstream.next_answer ans) as [[k | taken k] rest]; cbn;
      [exact Hinv | discriminate].
  - exact Hinv.
  - rewrite onAudioReady_eq in Hstep.
    destruct (mix_path tanhf (mTracks e) (mCurrentFrame e) numFrames);
      [|discriminate].
    cbn in Hstep. inversion Hstep; subst e'.
    exact (capture_sink_matches (mCurrentFrame e) rd numFrames e Hinv).
  - unfold onErrorAfterClose. destruct result; exact Hinv.
  - destruct (streamMoved_keeps d state e) as (_ & _ & -> & _ & -> & _).
    exact Hinv.
  - exact Hinv.
Qed.

Lemma reachable_sink_matches tanhf e :
  reachable tanhf e -> sink_matches_counter e.
Proof.
  induction 1 as [|c e e' _ IH _ _ Hstep].
  - intros _. split; reflexivity.
  - eapply step_sink_matches; eassumption.
Qed.

Lemma write_file_follows a f bytes :
  file_follows_stream f -> file_follows_stream (Ofstream.write a f bytes).
Proof.
  unfold file_follows_stream, Ofstream.write.
  destruct f as [o fl p w fd]; cbn. intros [Hle Hall].
  destruct fl; cbn; [split; assumption|].
  destruct o; cbn.
  - destruct a as [k | taken k]; cbn; split; try discriminate; lia.
  - split; [exact Hle | discriminate].
Qed.

Lemma capture_file_follows cf rd n e :
  file_follows_stream (mRecordingFile e) ->
  file_follows_stream (mRecordingFile (capture cf rd n e)).
Proof.
  intros Hinv. unfold capture, recordingFile_write.
  destruct e as [ps rs tr rec f sf cnt cur run log ans]; cbn in *.
  break_ifs; cbn; try exact Hinv; now apply write_file_follows.
Qed.

Lemma step_file_follows tanhf c e e' :
  file_follows_stream (mRecordingFile e) -> step tanhf c e = Some e' ->
  file_follows_stream (mRecordingFile e').
Proof.
  intros Hinv Hstep.
  destruct c; cbn in Hstep; try (inversion Hstep; subst e'; clear Hstep).
  - destruct (start_keeps dev e) as (_ & _ & _ & -> & _). exact Hinv.
  - destruct (stop_keeps e) as (_ & _ & _ & -> & _). exact Hinv.
  - destruct (reset_keeps e) as (_ & _ & -> & _). exact Hinv.
  - apply loadTrack_Some in Hstep as [_ ->]. exact Hinv.
  - exact Hinv.
  - unfold startRecording, Ofstream.open, Ofstream.rdbuf_open,
      file_follows_stream in *.
    destruct e as [ps rs tr rec [o fl p w fd] sf cnt cur run log ans]; cbn in *.
    destruct o; cbn; [split; [apply Hinv | discriminate]|].
    destruct (fs filePath); cbn; split; try discriminate; try apply Hinv.
    reflexivity.
  - unfold stopRecording, recordingFile_close, Ofstream.close,
      file_follows_stream in *.
    destruct e as [ps rs tr rec [o fl p w fd] sf cnt cur run log ans]; cbn in *.
    destruct o; cbn; [|exact Hinv].
    destruct (Ofstream.next_answer ans) as [[k | taken k] rest]; cbn;
      split; try discriminate; try reflexivity; lia.
  - exact Hinv.
  - rewrite onAudioReady_eq in Hstep.
    destruct (mix_path tanhf (mTracks e) (mCurrentFrame e) numFrames);
      [|discriminate].
    cbn in Hstep. inversion Hstep; subst e'.
    exact (capture_file_follows (mCurrentFrame e) rd numFrames e Hinv).
  - unfold onErrorAfterClose. destruct result; exact Hinv.
  - destruct (streamMoved_keeps d state e) as (_ & _ & -> & _). exact Hinv.
  - exact Hinv.
Qed.

Lemma reachable_file_follows tanhf e :
  reachable tanhf e -> file_follows_stream (mRecordingFile e).
Proof.
  induction 1 as [|c e e' _ IH _ _ Hstep].
  - split; [cbn; lia | reflexivity].
  - eapply step_file_follows; eassumption.
Qed.

(** X13.  In every state the engine can reach in which no open, write or
    close on the sink's stream has failed, [getRecordedSampleCount] is
    the number of 16-bit samples the sink's stream has accepted since the
    file was opened: that is an even number of bytes and the counter is
    half of it (reduced to 64 bits), during a session and after
    [stopRecording].  The file itself holds the first bytes of what the
    stream accepted, possibly fewer while the stream is open (the stream
    buffers and the engine never flushes it), and all of them once the
    stream is closed. *)
Theorem counter_is_samples_accepted_by_sink tanhf e :
  reachable tanhf e -> Ofstream.failed (mRecordingFile e) = false ->
  Z.of_nat (length (Ofstream.written (mRecordingFile e))) mod 2 = 0
  /\ getRecordedSampleCount e
     = int64_wrap (Z.of_nat (length (Ofstream.written (mRecordingFile e))) / 2)
  /\ (Z.of_nat (length (Ofstream.written (mRecordingFile e))) / 2 <= INT64_MAX ->
      2 * getRecordedSampleCount e
      = Z.of_nat (length (Ofstream.written (mRecordingFile e))))
  /\ (exists buffered,
        Ofstream.written (mRecordingFile e)
        = Ofstream.in_file (mRecordingFile e) ++ buffered)
  /\ (Ofstream.is_open (mRecordingFile e) = false ->
      Ofstream.in_file (mRecordingFile e) = Ofstream.written (mRecordingFile e)).
Proof.
  intros Hreach Hgood.
  destruct (reachable_sink_matches tanhf e Hreach Hgood) as [Hcnt Heven].
  destruct (reachable_file_follows tanhf e Hreach) as [Hle Hall].
  split; [exact Heven|]. split; [exact Hcnt|]. split; [|split].
  - intros Hmax. unfold getRecordedSampleCount. rewrite Hcnt.
    set (len := Z.of_nat (length (Ofstream.written (mRecordingFile e)))) in *.
    rewrite int64_wrap_id.
    + pose proof (Z.div_mod len 2). lia.
    + unfold is_int64, INT64_MIN, INT64_MAX in *.
      pose proof (Z.div_pos len 2). lia.
  - exists (drop (Ofstream.flushed (mRecordingFile e))
              (Ofstream.written (mRecordingFile e))).
    unfold Ofstream.in_file. symmetry. apply take_drop.
  - intros Hclosed. unfold Ofstream.in_file.
    rewrite (Hall Hclosed Hgood). apply firstn_all.
Qed.

Lemma counter_is_samples_accepted_by_sink_witness :
  exists e,
    run sign_tanhf one_session newEngine = Some e
    /\ reachable sign_tanhf e
    /\ Ofstream.failed (mRecordingFile e) = false
    /\ Ofstream.is_open (mRecordingFile e) = false
    /\ Ofstream.in_file (mRecordingFile e) = [11; 0; 244; 255]
    /\ getRecordedSampleCount e = int64_wrap (4 / 2).
Proof.
  eexists. split; [vm_compute; reflexivity|].
  match goal with
  | |- reachable _ ?e /\ _ =>
      assert (H1 : reachable sign_tanhf e)
  end.
  { apply (run_reachable sign_tanhf one_session newEngine).
    - apply reachable_new.
    - repeat constructor; vm_compute; congruence.
    - repeat constructor; vm_compute; congruence.
    - vm_compute. reflexivity. }
  split; [exact H1|]. split; [reflexivity|]. split; [reflexivity|].
  split; [reflexivity|].
  exact (proj1 (proj2 (counter_is_samples_accepted_by_sink sign_tanhf _ H1 eq_refl))).
Defined.

(** During a session the file may hold less than the counter says: after
    one callback that read two samples the counter is 2 while the four
    bytes are still in the stream's buffer. *)
Example file_lags_counter :
  exists e out,
    onAudioReady sign_tanhf (Oboe.ReadAvailable [11; -12]) 2 armed = Some (e, out)
    /\ getRecordedSampleCount e = 2
    /\ Ofstream.written (mRecordingFile e) = [11; 0; 244; 255]
    /\ Ofstream.in_file (mRecordingFile e) = [].
Proof. eexists _, _. split; [vm_compute; reflexivity|]. repeat split. Qed.

(** X14.  [stopRecording] disables recording and closes the sink, keeps
    the bytes written, the counter and the threshold for the getters, and
    doing it twice is doing it once; after it no callback writes to the
    sink or moves the counter, whatever the device delivers. *)
Theorem stopRecording_freezes_session e :
  mIsRecording (stopRecording e) = false
  /\ Ofstream.is_open (mRecordingFile (stopRecording e)) = false
  /\ Ofstream.written (mRecordingFile (stopRecording e))
     = Ofstream.written (mRecordingFile e)
  /\ getRecordedSampleCount (stopRecording e) = getRecordedSampleCount e
  /\ getRecordingStartFrame (stopRecording e) = getRecordingStartFrame e
  /\ stopRecording (stopRecording e) = stopRecording e
  /\ forall cf rd numFrames,
       mRecordingFile (capture cf rd numFrames (stopRecording e))
       = mRecordingFile (stopRecording e)
       /\ mRecordedSampleCount (capture cf rd numFrames (stopRecording e))
          = mRecordedSampleCount (stopRecording e).
Proof.
  assert (Hflag : mIsRecording (stopRecording e) = false).
  { unfold stopRecording, recordingFile_close. destruct e; cbn.
    break_ifs; reflexivity. }
  split; [exact Hflag|].
  split; [unfold stopRecording, recordingFile_close, Ofstream.close;
          destruct e as [ps rs tr rec [[] fl p w fd] sf cnt cur run log
                           [|[k | taken k] ans]];
          reflexivity|].
  split; [unfold stopRecording, recordingFile_close, Ofstream.close;
          destruct e as [ps rs tr rec [[] fl p w fd] sf cnt cur run log
                           [|[k | taken k] ans]];
          reflexivity|].
  split; [unfold stopRecording, recordingFile_close; destruct e; cbn;
          break_ifs; reflexivity|].
  split; [unfold stopRecording, recordingFile_close; destruct e; cbn;
          break_ifs; reflexivity|].
  split; [unfold stopRecording, recordingFile_close, Ofstream.close;
          destruct e as [ps rs tr rec [[] fl p w fd] sf cnt cur run log
                           [|[k | taken k] ans]];
          reflexivity|].
  intros cf rd n. revert Hflag. generalize (stopRecording e). intros s Hflag.
  unfold capture.
  destruct (mRecordStream s) as [st|]; [|auto].
  destruct (Oboe.state_eqb st Oboe.Started); [|auto].
  destruct s as [ps rs tr rec f sf cnt cur run log ans]; cbn in *. subst rec.
  rewrite andb_false_r. cbn. auto.
Qed.

(** X15.  After [stopRecording], a [startRecording] on a path the file
    system accepts always begins a clean session, whatever went wrong
    before: the sink is open on the new path, empty and in good state,
    recording is enabled, the counter is 0 and the threshold is the new
    start frame. *)
Theorem stop_then_startRecording_recovers fs filePath startFrame e :
  fs filePath = true ->
  mRecordingFile (startRecording fs filePath startFrame (stopRecording e))
  = Ofstream.mk true false filePath []
  /\ mIsRecording (startRecording fs filePath startFrame (stopRecording e))
     = true
  /\ getRecordedSampleCount
       (startRecording fs filePath startFrame (stopRecording e)) = 0
  /\ getRecordingStartFrame
       (startRecording fs filePath startFrame (stopRecording e)) = startFrame.
Proof.
  intros Hfs.
  unfold startRecording, stopRecording, recordingFile_close, Ofstream.open,
    Ofstream.rdbuf_open, Ofstream.close.
  destruct e as [ps rs tr rec [[] fl p w fd] sf cnt cur run log
                   [|[k | taken k] ans]]; cbn;
    rewrite Hfs; cbn; repeat split; reflexivity.
Qed.

Lemma stop_then_startRecording_recovers_witness :
  exists e,
    run sign_tanhf started_twice newEngine = Some e
    /\ Ofstream.failed (mRecordingFile e) = true
    /\ every_path "c.pcm"%string = true
    /\ mRecordingFile (startRecording every_path "c.pcm" 3 (stopRecording e))
       = Ofstream.mk true false "c.pcm" [].
Proof.
  eexists. split; [vm_compute; reflexivity|]. split; [reflexivity|].
  split; [reflexivity|].
  exact (proj1 (stop_then_startRecording_recovers every_path "c.pcm" 3 _ eq_refl)).
Defined.

(** ** Runs never leave the buffers *)

Lemma step_defined tanhf c e :
  engine_ok e -> in_contract c -> exists e', step tanhf c e = Some e'.
Proof.
  intros (Ht & _ & Hcf & _) Hin. destruct c; cbn in *; eauto.
  - rewrite loadTrack_within by exact Hin. eauto.
  - destruct Hin as (Hn0 & Hn2).
    destruct (onAudioReady_runs tanhf rd numFrames e Ht Hcf Hn0 Hn2)
      as (summed & out & _ & _ & Hrun).
    rewrite Hrun. cbn. eauto.
Qed.

Lemma runs_in_contract_defined tanhf cs : forall e,
  reachable tanhf e -> Forall well_typed cs -> Forall in_contract cs ->
  exists e', run tanhf cs e = Some e' /\ reachable tanhf e'.
Proof.
  induction cs as [|c cs IH]; intros e Hreach Hcs Hin.
  - exists e. split; [reflexivity | exact Hreach].
  - inversion Hcs as [|? ? Hc Hrest]; subst.
    inversion Hin as [|? ? Hi Hirest]; subst.
    destruct (step_defined tanhf c e (reachable_ok tanhf e Hreach) Hi)
      as [e1 Hstep].
    destruct (IH e1) as (e' & Hrun & Hreach').
    + eapply reachable_step; eassumption.
    + exact Hrest.
    + exact Hirest.
    + exists e'. cbn. rewrite Hstep. split; assumption.
Qed.

(** X16.  From every state the engine can reach, every sequence of
    calls, callbacks and device events whose arguments hold values of
    their types (16-bit samples, 32-bit counts and start frames, 64-bit
    seek targets) and which keeps to what the callers owe the engine (a
    [loadTrack] count between 0 and the length of the array; a callback
    frame count that is not negative, with a buffer size that fits 32
    bits) runs to completion: no vector or buffer is indexed out of
    bounds, and the state it ends in is reachable again.  A sequence
    that contains a [loadTrack] with a negative count or a count past
    the end of its array has no defined result, whatever comes before
    and after that call. *)
Theorem runs_within_contract_are_defined tanhf e :
  reachable tanhf e ->
  (forall cs, Forall well_typed cs -> Forall in_contract cs ->
     exists e', run tanhf cs e = Some e' /\ reachable tanhf e')
  /\ (forall before trackId samples numSamples placedAt after,
        numSamples < 0 \/ Z.of_nat (length samples) < numSamples ->
        run tanhf
          (before ++ LoadTrack trackId samples numSamples placedAt :: after) e
        = None).
Proof.
  intros Hreach. split.
  - intros cs Hcs Hin. now apply runs_in_contract_defined.
  - intros before trackId samples numSamples placedAt after Hout.
    rewrite run_app. destruct (run tanhf before e) as [e1|]; [|reflexivity].
    cbn. now rewrite loadTrack_outside.
Qed.

Lemma runs_within_contract_are_defined_witness :
  reachable sign_tanhf newEngine
  /\ Forall well_typed (LoadTrack "clip" [5; -6; 7] 2 0 :: one_session)
  /\ Forall in_contract (LoadTrack "clip" [5; -6; 7] 2 0 :: one_session)
  /\ (exists e', run sign_tanhf (LoadTrack "clip" [5; -6; 7] 2 0 :: one_session)
                   newEngine = Some e'
                 /\ reachable sign_tanhf e')
  /\ Z.of_nat (length [5; -6; 7]) < 4
  /\ run sign_tanhf ([SeekToFrame 5] ++ LoadTrack "clip" [5; -6; 7] 4 0 :: [Stop])
        newEngine = None
  /\ -1 < 0
  /\ run sign_tanhf ([] ++ LoadTrack "clip" [5; -6; 7] (-1) 0 :: []) newEngine
     = None.
Proof.
  assert (H1 : reachable sign_tanhf newEngine) by apply reachable_new.
  assert (H2 : Forall well_typed (LoadTrack "clip" [5; -6; 7] 2 0 :: one_session)).
  { repeat constructor; vm_compute; congruence. }
  assert (H3 : Forall in_contract (LoadTrack "clip" [5; -6; 7] 2 0 :: one_session)).
  { repeat constructor; vm_compute; congruence. }
  assert (H4 : Z.of_nat (length [5; -6; 7]) < 4) by (cbn; lia).
  assert (H5 : -1 < 0) by lia.
  destruct (runs_within_contract_are_defined sign_tanhf newEngine H1)
    as [Hruns Hfails].
  split; [exact H1|]. split; [exact H2|]. split; [exact H3|].
  split; [exact (Hruns _ H2 H3)|]. split; [exact H4|].
  split; [exact (Hfails [SeekToFrame 5] "clip"%string [5; -6; 7] 4 0 [Stop]
                   (or_intror H4))|].
  split; [exact H5|].
  exact (Hfails [] "clip"%string [5; -6; 7] (-1) 0 [] (or_introl H5)).
Defined.

(** ** The JNI bridge *)

Lemma jni_run_app cs1 cs2 g :
  Jni.run (cs1 ++ cs2) g
  = match Jni.run cs1 g with
    | Some g1 => Jni.run cs2 g1
    | None => None
    end.
Proof.
  revert g. induction cs1 as [|c cs1 IH]; intros g; cbn; [reflexivity|].
  destruct (Jni.step c g); [apply IH | reflexivity].
Qed.

Lemma jni_run_without_engine cs :
  forallb (fun c => negb (Jni.is_create c)) cs = true ->
  Jni.run cs None = Some None.
Proof.
  induction cs as [|c cs IH]; intros Hcs; [reflexivity|].
  cbn in Hcs. apply andb_true_iff in Hcs as [Hc Hcs].
  destruct c; cbn in Hc; try discriminate; cbn; now apply IH.
Qed.

(** X17.  The bridge guards every entry point with a null check: until
    [nativeCreateEngine] is called every other call does nothing and the
    three getters answer 0; the first create makes a new engine; a create
    while an engine exists keeps that engine and all its state; and after
    a delete, which runs the destructor on the engine, the bridge is back
    where it began, so the next create starts from a new engine. *)
Theorem bridge_is_guarded_singleton cs engine :
  (forallb (fun c => negb (Jni.is_create c)) cs = true ->
   Jni.run cs None = Some None
   /\ Jni.run (cs ++ [Jni.CreateEngine]) None = Some (Some newEngine))
  /\ Jni.nativeGetCurrentFrame None = 0
  /\ Jni.nativeGetRecordingStartFrame None = 0
  /\ Jni.nativeGetRecordedSampleCount None = 0
  /\ Jni.nativeCreateEngine (Jni.nativeCreateEngine engine)
     = Jni.nativeCreateEngine engine
  /\ (forall e, engine = Some e -> Jni.nativeCreateEngine engine = Some e)
  /\ fst (Jni.nativeDeleteEngine engine) = None
  /\ snd (Jni.nativeDeleteEngine engine) = option_map stop engine
  /\ Jni.run [Jni.DeleteEngine; Jni.CreateEngine] engine = Some (Some newEngine).
Proof.
  split.
  { intros Hcs. pose proof (jni_run_without_engine cs Hcs) as Hrun.
    split; [exact Hrun|]. rewrite jni_run_app, Hrun. reflexivity. }
  repeat (split; [reflexivity|]).
  split; [destruct engine; reflexivity|].
  split; [intros e ->; reflexivity|].
  split; [destruct engine; reflexivity|].
  split; [destruct engine; reflexivity|].
  destruct engine; reflexivity.
Qed.

Lemma bridge_is_guarded_singleton_witness :
  forallb (fun c => negb (Jni.is_create c))
    [Jni.Start devices_ok; Jni.SeekToFrame 9; Jni.LoadTrack "clip" [1; 2] 0]
  = true
  /\ Jni.run [Jni.Start devices_ok; Jni.SeekToFrame 9;
              Jni.LoadTrack "clip" [1; 2] 0] None = Some None.
Proof.
  assert (H : forallb (fun c => negb (Jni.is_create c))
                [Jni.Start devices_ok; Jni.SeekToFrame 9;
                 Jni.LoadTrack "clip" [1; 2] 0] = true) by reflexivity.
  split; [exact H|].
  exact (proj1 (proj1 (bridge_is_guarded_singleton _ None) H)).
Defined.




(** ** The order of the first two tracks *)








(** ** Playback and capture do not mix *)

Lemma capture_set_mTracks cf rd n tracks e :
  capture cf rd n (set_mTracks tracks e) = set_mTracks tracks (capture cf rd n e).
Proof.
  unfold capture, recordingFile_write.
  destruct e as [ps rs tr rec f sf cnt cur run log ans]; cbn.
  break_ifs; reflexivity.
Qed.

(** X20.  The two paths of the callback are independent.  What the
    microphone delivers never reaches the output buffer: two callbacks
    that differ only in the result of the read hand back the same buffer.
    And what is loaded never reaches the recording: with another track
    store the callback leaves the sink, the counter and the device log
    exactly as it does with this one. *)
Theorem playback_and_capture_are_independent
    tanhf rd rd' numFrames tracks e :
  option_map snd (onAudioReady tanhf rd numFrames e)
  = option_map snd (onAudioReady tanhf rd' numFrames e)
  /\ forall e1 out1 e2 out2,
       onAudioReady tanhf rd numFrames e = Some (e1, out1) ->
       onAudioReady tanhf rd numFrames (set_mTracks tracks e) = Some (e2, out2) ->
       mRecordingFile e2 = mRecordingFile e1
       /\ mRecordedSampleCount e2 = mRecordedSampleCount e1
       /\ deviceLog e2 = deviceLog e1
       /\ mCurrentFrame e2 = mCurrentFrame e1.
Proof.
  split.
  - now rewrite !onAudioReady_output.
  - intros e1 out1 e2 out2 H1 H2.
    rewrite onAudioReady_eq in H1, H2.
    destruct (mix_path tanhf (mTracks e) (mCurrentFrame e) numFrames);
      [|discriminate].
    destruct (mix_path tanhf (mTracks (set_mTracks tracks e))
                (mCurrentFrame (set_mTracks tracks e)) numFrames);
      [|discriminate].
    cbn [option_map] in H1, H2. inversion H1; subst. inversion H2; subst.
    cbn [set_mTracks mCurrentFrame]. rewrite capture_set_mTracks.
    repeat split; reflexivity.
Qed.

Lemma playback_and_capture_are_independent_witness :
  exists e1 out1 e2 out2,
    onAudioReady sign_tanhf (Oboe.ReadAvailable [11; -12]) 2 armed
    = Some (e1, out1)
    /\ onAudioReady sign_tanhf (Oboe.ReadAvailable [11; -12]) 2
         (set_mTracks [half] armed) = Some (e2, out2)
    /\ mRecordingFile e2 = mRecordingFile e1
    /\ Ofstream.written (mRecordingFile e1) = [11; 0; 244; 255].
Proof.
  eexists _, _, _, _. split; [vm_compute; reflexivity|].
  split; [vm_compute; reflexivity|].
  split; [|reflexivity].
  refine (proj1 (proj2 (playback_and_capture_are_independent sign_tanhf
                          (Oboe.ReadAvailable [11; -12]) (Oboe.ReadAvailable [])
                          2 [half] armed) _ _ _ _ _ _));
    vm_compute; reflexivity.
Defined.
